(** * robotwebtools: connection, correlation and multiplexing engine

    A shallow embedding of [src/dist/robotwebtools.js] (the [ROS] connection
    object with its topics, services and params, and the [ActionClient]),
    together with the properties of the natural-language specification that
    are stated about it.

    The JavaScript program is event driven and mutates shared objects, so
    the embedding threads one explicit [State] through every operation and
    returns either a normal result or the exception the JavaScript code
    would throw.  Closures are defunctionalised: every function value that
    the source registers as a listener or callback is a constructor of an
    inductive type, and running it is a function of this file. *)

From Stdlib Require Import ZArith NArith List String Ascii Bool Lia Sorted.
From stdpp Require Import base option list gmap strings pretty.

Local Open Scope string_scope.
Local Open Scope list_scope.
Local Set Warnings "-register-all".

(** ** JavaScript values *)

(** The double quote character, written by code so that no string literal
    of this file has to contain one. *)
Definition dq : ascii := ascii_of_nat 34.
Definition backslash : ascii := ascii_of_nat 92.

(** JSON-representable JavaScript values.  Strings are sequences of code
    units below 256.  Integers are [VNum]; a number written with a fraction
    or an exponent is kept as its literal text ([VReal]), which is exact for
    well-formedness and an approximation of the double it denotes (such
    numbers are only passed through by the program, never computed on).
    Objects keep their fields in insertion order. *)
Inductive value : Type :=
| VUndef
| VNull
| VBool (b : bool)
| VNum (n : Z)
| VReal (lit : string)
| VStr (s : string)
| VArr (elems : list value)
| VObj (fields : list (string * value)).

Global Instance value_inhabited : Inhabited value := populate VUndef.

(** Exceptions thrown by the program and by the host functions it calls. *)
Inductive exn : Type :=
| TypeError
| SyntaxError
| InvalidStateError
| UncaughtErrorEvent.

Module JS.

Definition is_digit (c : ascii) : bool :=
  let n := nat_of_ascii c in (48 <=? n)%nat && (n <=? 57)%nat.

(** A literal kept in [VReal] denotes zero when its mantissa has no
    digit other than 0. *)
Fixpoint mantissa_zero (s : string) : bool :=
  match s with
  | EmptyString => true
  | String c r =>
      if bool_decide (c = "e"%char) || bool_decide (c = "E"%char) then true
      else if is_digit c && negb (bool_decide (c = "0"%char)) then false
      else mantissa_zero r
  end.

(** ToBoolean. *)
Definition truthy (v : value) : bool :=
  match v with
  | VUndef | VNull => false
  | VBool b => b
  | VNum n => negb (n =? 0)%Z
  | VReal lit => negb (mantissa_zero lit)
  | VStr s => negb (bool_decide (s = ""))
  | VArr _ | VObj _ => true
  end.

Fixpoint join (sep : string) (l : list string) : string :=
  match l with
  | [] => ""
  | [x] => x
  | x :: r => x +:+ sep +:+ join sep r
  end.

(** ToString. *)
Fixpoint to_string (v : value) : string :=
  match v with
  | VUndef => "undefined"
  | VNull => "null"
  | VBool true => "true"
  | VBool false => "false"
  | VNum n => pretty n
  | VReal lit => lit
  | VStr s => s
  | VArr l =>
      join ","
        ((fix elems (l : list value) : list string :=
            match l with
            | [] => []
            | x :: r =>
                match x with
                | VUndef | VNull => ""
                | _ => to_string x
                end :: elems r
            end) l)
  | VObj _ => "[object Object]"
  end.

(** Own enumerable properties of an object, in key order. *)
Fixpoint indexed {A} (i : nat) (l : list A) : list (string * A) :=
  match l with
  | [] => []
  | x :: r => (pretty i, x) :: indexed (S i) r
  end.

Fixpoint chars (s : string) : list value :=
  match s with
  | EmptyString => []
  | String c r => VStr (String c EmptyString) :: chars r
  end.

Definition own_props (v : value) : list (string * value) :=
  match v with
  | VObj fs => fs
  | VArr l => indexed 0 l
  | VStr s => indexed 0 (chars s)
  | _ => []
  end.

(** [Object.keys(v)]: a TypeError on undefined and null, the own
    enumerable keys otherwise (primitives are boxed, as from ES2015). *)
Definition Object_keys (v : value) : exn + list string :=
  match v with
  | VUndef | VNull => inl TypeError
  | _ => inr (own_props v).*1
  end.

Fixpoint assoc {A} (k : string) (l : list (string * A)) : option A :=
  match l with
  | [] => None
  | (k', x) :: r => if decide (k' = k) then Some x else assoc k r
  end.

(** [o[k]] for a value that is neither undefined nor null.  Inherited
    properties other than [length] are functions, which are not values of
    this model, and read as undefined. *)
Definition get (v : value) (k : string) : value :=
  match assoc k (own_props v) with
  | Some x => x
  | None =>
      match v with
      | VArr l => if decide (k = "length") then VNum (Z.of_nat (length l)) else VUndef
      | VStr s => if decide (k = "length") then VNum (Z.of_nat (String.length s)) else VUndef
      | _ => VUndef
      end
  end.

(** [o[k] = x] on the field list of an object. *)
Fixpoint set (fs : list (string * value)) (k : string) (x : value)
  : list (string * value) :=
  match fs with
  | [] => [(k, x)]
  | (k', y) :: r =>
      if decide (k' = k) then (k, x) :: r else (k', y) :: set r k x
  end.

(** The body shared by [ros.Message], [ros.ServiceRequest] and
    [ros.ServiceResponse]:
    [if (values) Object.keys(values).forEach(name => this[name] = values[name])].
    The objects of this model have own fields and no prototype, so the
    copy is that of the code for values without an own field named
    [__proto__], the one name whose assignment sets the prototype and
    creates no field; the statements about the contents of a copy are
    made for such values. *)
Definition copy_fields (values : value) : value :=
  if truthy values then
    VObj (fold_left (fun fs name => set fs name (get values name))
                    (own_props values).*1 [])
  else VObj [].

End JS.

(** ** JSON.stringify and JSON.parse *)

Module JSON.

Definition hex_digit (n : nat) : ascii :=
  ascii_of_nat (if (n <? 10)%nat then 48 + n else 87 + n).

Definition escape_char (c : ascii) : string :=
  let n := nat_of_ascii c in
  if bool_decide (c = dq) then String backslash (String dq "")
  else if bool_decide (c = backslash) then String backslash (String backslash "")
  else if (n =? 8)%nat then String backslash "b"
  else if (n =? 9)%nat then String backslash "t"
  else if (n =? 10)%nat then String backslash "n"
  else if (n =? 12)%nat then String backslash "f"
  else if (n =? 13)%nat then String backslash "r"
  else if (n <? 32)%nat then
    String backslash
      (String "u" (String "0" (String "0"
         (String (hex_digit (n / 16)) (String (hex_digit (n mod 16)) "")))))
  else String c "".

Fixpoint escape (s : string) : string :=
  match s with
  | EmptyString => ""
  | String c r => escape_char c +:+ escape r
  end.

Definition quote (s : string) : string :=
  String dq (escape s +:+ String dq "").

(** [JSON.stringify(v)]; [None] is JavaScript's [undefined]. *)
Fixpoint stringify (v : value) : option string :=
  match v with
  | VUndef => None
  | VNull => Some "null"
  | VBool true => Some "true"
  | VBool false => Some "false"
  | VNum n => Some (pretty n)
  | VReal lit => Some lit
  | VStr s => Some (quote s)
  | VArr l =>
      Some ("[" +:+
            JS.join ","
              ((fix elems (l : list value) : list string :=
                  match l with
                  | [] => []
                  | x :: r => default "null" (stringify x) :: elems r
                  end) l) +:+ "]")
  | VObj fs =>
      Some ("{" +:+
            JS.join ","
              ((fix members (fs : list (string * value)) : list string :=
                  match fs with
                  | [] => []
                  | (k, x) :: r =>
                      match stringify x with
                      | Some s => (quote k +:+ ":" +:+ s) :: members r
                      | None => members r
                      end
                  end) fs) +:+ "}")
  end.

(** The result of [JSON.stringify] as a JavaScript value. *)
Definition stringify_value (v : value) : value :=
  match stringify v with
  | Some s => VStr s
  | None => VUndef
  end.

Definition is_ws (c : ascii) : bool :=
  let n := nat_of_ascii c in
  (n =? 32)%nat || (n =? 9)%nat || (n =? 10)%nat || (n =? 13)%nat.

Fixpoint skip_ws (s : string) : string :=
  match s with
  | String c r => if is_ws c then skip_ws r else s
  | EmptyString => s
  end.

Fixpoint take_digits (s : string) : string * string :=
  match s with
  | String c r =>
      if JS.is_digit c then
        let '(d, rest) := take_digits r in (String c d, rest)
      else ("", s)
  | EmptyString => ("", "")
  end.

Fixpoint digits_value (acc : Z) (s : string) : Z :=
  match s with
  | String c r => digits_value (10 * acc + (Z.of_nat (nat_of_ascii c) - 48)) r
  | EmptyString => acc
  end.

(** A JSON number: an optional minus sign, an integer part without
    leading zero, an optional fraction and an optional exponent. *)
Definition parse_number (s : string) : option (value * string) :=
  let '(neg, s1) :=
    match s with
    | String "-" r => (true, r)
    | _ => (false, s)
    end in
  let '(int, s2) := take_digits s1 in
  match int with
  | EmptyString => None
  | String c more =>
      if bool_decide (c = "0"%char) && negb (bool_decide (more = "")) then None
      else
        let frac : option (string * string) :=
          match s2 with
          | String "." r =>
              let '(f, r') := take_digits r in
              if bool_decide (f = "") then None else Some ("." +:+ f, r')
          | _ => Some ("", s2)
          end in
        match frac with
        | None => None
        | Some (f, s3) =>
            let expo : option (string * string) :=
              match s3 with
              | String c r =>
                  if bool_decide (c = "e"%char) || bool_decide (c = "E"%char) then
                    let '(sign, r1) :=
                      match r with
                      | String "+" r1 => ("+", r1)
                      | String "-" r1 => ("-", r1)
                      | _ => ("", r)
                      end in
                    let '(e, r2) := take_digits r1 in
                    if bool_decide (e = "") then None
                    else Some (String c (sign +:+ e), r2)
                  else Some ("", s3)
              | EmptyString => Some ("", s3)
              end in
            match expo with
            | None => None
            | Some (e, s4) =>
                if bool_decide (f = "") && bool_decide (e = "") then
                  let n := digits_value 0 int in
                  Some (VNum (if neg then - n else n), s4)
                else
                  Some (VReal ((if neg then "-" else "") +:+ int +:+ f +:+ e), s4)
            end
        end
  end.

Definition hex_value (c : ascii) : option nat :=
  let n := nat_of_ascii c in
  if (48 <=? n)%nat && (n <=? 57)%nat then Some (n - 48)
  else if (97 <=? n)%nat && (n <=? 102)%nat then Some (n - 87)
  else if (65 <=? n)%nat && (n <=? 70)%nat then Some (n - 55)
  else None.

(** The characters of a string literal after its opening quote.  An
    escape [\uXXXX] above 00FF is outside the 8-bit code units of this
    model and is kept as its low byte. *)
Fixpoint parse_string (s : string) : option (string * string) :=
  match s with
  | EmptyString => None
  | String c r =>
      if bool_decide (c = dq) then Some ("", r)
      else if bool_decide (c = backslash) then
        match r with
        | String e r1 =>
            let simple (x : ascii) :=
              match parse_string r1 with
              | Some (t, rest) => Some (String x t, rest)
              | None => None
              end in
            if bool_decide (e = dq) then simple dq
            else if bool_decide (e = backslash) then simple backslash
            else if bool_decide (e = "/"%char) then simple "/"%char
            else if bool_decide (e = "b"%char) then simple (ascii_of_nat 8)
            else if bool_decide (e = "f"%char) then simple (ascii_of_nat 12)
            else if bool_decide (e = "n"%char) then simple (ascii_of_nat 10)
            else if bool_decide (e = "r"%char) then simple (ascii_of_nat 13)
            else if bool_decide (e = "t"%char) then simple (ascii_of_nat 9)
            else if bool_decide (e = "u"%char) then
              match r1 with
              | String h1 (String h2 (String h3 (String h4 r2))) =>
                  match hex_value h1, hex_value h2, hex_value h3, hex_value h4 with
                  | Some _, Some _, Some a, Some b =>
                      match parse_string r2 with
                      | Some (t, rest) =>
                          Some (String (ascii_of_nat (16 * a + b)) t, rest)
                      | None => None
                      end
                  | _, _, _, _ => None
                  end
              | _ => None
              end
            else None
        | EmptyString => None
        end
      else if (nat_of_ascii c <? 32)%nat then None
      else
        match parse_string r with
        | Some (t, rest) => Some (String c t, rest)
        | None => None
        end
  end.

Fixpoint expect (lit s : string) : option string :=
  match lit, s with
  | EmptyString, _ => Some s
  | String a l, String b r => if bool_decide (a = b) then expect l r else None
  | String _ _, EmptyString => None
  end.

(** value, elements and members of the JSON grammar.  [fuel] bounds the
    depth of the calls; every call of [parse_value] that succeeds
    consumes a character. *)
Fixpoint parse_value (fuel : nat) (s : string) {struct fuel}
  : option (value * string) :=
  match fuel with
  | O => None
  | S n =>
      match skip_ws s with
      | EmptyString => None
      | String c r =>
          if bool_decide (c = "{"%char) then
            match skip_ws r with
            | String "}" r' => Some (VObj [], r')
            | _ => parse_members n [] r
            end
          else if bool_decide (c = "["%char) then
            match skip_ws r with
            | String "]" r' => Some (VArr [], r')
            | _ => parse_elements n [] r
            end
          else if bool_decide (c = dq) then
            match parse_string r with
            | Some (t, rest) => Some (VStr t, rest)
            | None => None
            end
          else if bool_decide (c = "t"%char) then
            match expect "rue" r with
            | Some rest => Some (VBool true, rest)
            | None => None
            end
          else if bool_decide (c = "f"%char) then
            match expect "alse" r with
            | Some rest => Some (VBool false, rest)
            | None => None
            end
          else if bool_decide (c = "n"%char) then
            match expect "ull" r with
            | Some rest => Some (VNull, rest)
            | None => None
            end
          else parse_number (String c r)
      end
  end
with parse_elements (fuel : nat) (acc : list value) (s : string) {struct fuel}
  : option (value * string) :=
  match fuel with
  | O => None
  | S n =>
      match parse_value n s with
      | Some (v, r) =>
          match skip_ws r with
          | String "," r' => parse_elements n (v :: acc) r'
          | String "]" r' => Some (VArr (rev (v :: acc)), r')
          | _ => None
          end
      | None => None
      end
  end
with parse_members (fuel : nat) (acc : list (string * value)) (s : string)
       {struct fuel} : option (value * string) :=
  match fuel with
  | O => None
  | S n =>
      match skip_ws s with
      | String c r =>
          if bool_decide (c = dq) then
            match parse_string r with
            | Some (k, r1) =>
                match skip_ws r1 with
                | String ":" r2 =>
                    match parse_value n r2 with
                    | Some (v, r3) =>
                        match skip_ws r3 with
                        | String "," r4 => parse_members n (JS.set acc k v) r4
                        | String "}" r4 => Some (VObj (JS.set acc k v), r4)
                        | _ => None
                        end
                    | None => None
                    end
                | _ => None
                end
            | None => None
            end
          else None
      | EmptyString => None
      end
  end.

(** [JSON.parse(text)]; [None] is a thrown SyntaxError. *)
Definition parse (text : string) : option value :=
  match parse_value (2 * String.length text + 2) text with
  | Some (v, rest) =>
      match skip_ws rest with
      | EmptyString => Some v
      | String _ _ => None
      end
  | None => None
  end.

End JSON.

(** ** EventEmitter2

    [ROS], [Topic], [Service], [Param], [ActionClient] and [Goal] inherit
    from EventEmitter2, a library the program loads and which is not part
    of the repository.  Modelled from its documented behaviour, for an
    emitter without wildcards: the listeners of an event are kept in
    registration order; [emit] calls a snapshot of them in that order;
    [once] registers a listener that removes itself before its first call;
    [off] removes the first registration of a given function object;
    [removeAllListeners(type)] forgets every listener of [type]; [emit]
    of the event named error throws when it has no listener.  The meta
    event newListener is not modelled.  The identity of a function object
    is a number allocated at registration. *)

Module Emitter.

Record entry (L : Type) : Type := Entry { lid : nat; once : bool; fn : L }.
Global Arguments Entry {L} _ _ _.
Global Arguments lid {L} _.
Global Arguments once {L} _.
Global Arguments fn {L} _.

Section Ops.
Context {L : Type}.

Definition listeners (key : string) (ev : gmap string (list (entry L)))
  : list (entry L) :=
  default [] (ev !! key).

Definition on (key : string) (e : entry L)
    (ev : gmap string (list (entry L))) : gmap string (list (entry L)) :=
  <[key := listeners key ev ++ [e]]> ev.

Fixpoint remove_first (id : nat) (l : list (entry L)) : list (entry L) :=
  match l with
  | [] => []
  | e :: r => if decide (lid e = id) then r else e :: remove_first id r
  end.

Definition off (key : string) (id : nat)
    (ev : gmap string (list (entry L))) : gmap string (list (entry L)) :=
  match ev !! key with
  | None => ev
  | Some l =>
      match remove_first id l with
      | [] => delete key ev
      | l' => <[key := l']> ev
      end
  end.

Definition removeAllListeners (key : string)
    (ev : gmap string (list (entry L))) : gmap string (list (entry L)) :=
  delete key ev.
End Ops.

End Emitter.

Import Emitter.

(** ** Function values of the program *)

(** The functions passed as [callback] to [topic.subscribe] and
    [service.callService].  [CbUser k] is a function of the application:
    it is opaque, and calling it is recorded in the trace (it is assumed
    neither to throw nor to call back into the library while it runs). *)
Inductive callback : Type :=
| CbUser (k : nat)
| CbField (field : string) (k : callback)
    (* function(result) { callback(result.field); }       getTopics, getServices, getParams *)
| CbParamGet (k : callback)
    (* function(result) { var value = JSON.parse(result.value); callback(value); } *)
| CbNoop
    (* function() {}                                       param.set *)
| CbStatus (client : nat)
| CbFeedback (client : nat)
| CbResult (client : nat).
    (* the three listeners of the ActionClient constructor *)

(** Listeners on the [ros] object. *)
Inductive ros_listener : Type :=
| LSend (messageJson : value)
    (* function() { ros.socket.send(messageJson); } *)
| LRoute (topic : nat)
    (* function(data) { var message = new ros.Message(data); topic.emit('message', message); } *)
| LResponse (cb : callback)
    (* function(data) { var response = new ros.ServiceResponse(data); callback(response); } *)
| LApp (k : nat).

(** Listeners on a topic. *)
Inductive topic_listener : Type :=
| TCall (cb : callback)
    (* function(message) { callback(message); } *)
| TApp (k : nat).

(** Listeners on a goal. *)
Inductive goal_listener : Type :=
| GStatus     (* function(status) { goal.status = status; } *)
| GResult     (* function(result) { goal.isFinished = true; goal.result = result; } *)
| GFeedback   (* function(feedback) { goal.feedback = feedback; } *)
| GApp (k : nat).

(** Functions handed to [setTimeout]. *)
Inductive timer : Type :=
| TimerServer (client : nat) (delay : Z)
    (* function() { if (!receivedStatus) actionClient.emit('timeout'); } *)
| TimerGoal (goal : nat) (delay : Z).
    (* function() { if (!goal.isFinished) goal.emit('timeout'); } *)

(** ** Objects *)

Inductive ReadyState : Type := CONNECTING | OPEN | CLOSING | CLOSED.

Global Instance ReadyState_eq_dec : EqDecision ReadyState.
Proof. solve_decision. Defined.

(** [readyState === WebSocket.OPEN] *)
Definition is_open (rs : ReadyState) : bool :=
  match rs with
  | OPEN => true
  | _ => false
  end.

Module Topic.
Record options : Type := Options {
  o_node : value;
  o_name : string;
  o_messageType : value;
  o_compression : option string;
  o_throttle_rate : option Z
}.

Record t : Type := Make {
  node : value;
  name : string;
  messageType : value;
  isAdvertised : bool;
  compression : string;
  throttle_rate : Z;
  events : gmap string (list (entry topic_listener))
}.

Definition set_isAdvertised (b : bool) (x : t) : t :=
  Make (node x) (name x) (messageType x) b (compression x) (throttle_rate x) (events x).
Definition set_throttle_rate (r : Z) (x : t) : t :=
  Make (node x) (name x) (messageType x) (isAdvertised x) (compression x) r (events x).
Definition set_events (ev : gmap string (list (entry topic_listener))) (x : t) : t :=
  Make (node x) (name x) (messageType x) (isAdvertised x) (compression x)
       (throttle_rate x) ev.
End Topic.

Module Service.
Record t : Type := Make { name : string; serviceType : value }.
End Service.

Module Param.
Record t : Type := Make { name : value }.
End Param.

Module Goal.
Record t : Type := Make {
  isFinished : bool;
  status : value;
  result : value;
  feedback : value;
  goalId : string;
  goalMessage : value;
  client : nat;
  events : gmap string (list (entry goal_listener))
}.

Definition set_isFinished (b : bool) (x : t) : t :=
  Make b (status x) (result x) (feedback x) (goalId x) (goalMessage x) (client x) (events x).
Definition set_status (v : value) (x : t) : t :=
  Make (isFinished x) v (result x) (feedback x) (goalId x) (goalMessage x) (client x) (events x).
Definition set_result (v : value) (x : t) : t :=
  Make (isFinished x) (status x) v (feedback x) (goalId x) (goalMessage x) (client x) (events x).
Definition set_feedback (v : value) (x : t) : t :=
  Make (isFinished x) (status x) (result x) v (goalId x) (goalMessage x) (client x) (events x).
Definition set_events (ev : gmap string (list (entry goal_listener))) (x : t) : t :=
  Make (isFinished x) (status x) (result x) (feedback x) (goalId x) (goalMessage x)
       (client x) ev.
End Goal.

Module ActionClient.
Record options : Type := Options {
  o_serverName : string;
  o_actionName : string;
  o_timeout : option Z
}.

Record t : Type := Make {
  serverName : string;
  actionName : string;
  timeout : option Z;
  goals : gmap string nat;
  goalTopic : option nat;
  cancelTopic : option nat;
  receivedStatus : bool;
  events : gmap string (list (entry nat))
}.

Definition set_goals (g : gmap string nat) (x : t) : t :=
  Make (serverName x) (actionName x) (timeout x) g (goalTopic x) (cancelTopic x)
       (receivedStatus x) (events x).
Definition set_goalTopic (n : option nat) (x : t) : t :=
  Make (serverName x) (actionName x) (timeout x) (goals x) n (cancelTopic x)
       (receivedStatus x) (events x).
Definition set_cancelTopic (n : option nat) (x : t) : t :=
  Make (serverName x) (actionName x) (timeout x) (goals x) (goalTopic x) n
       (receivedStatus x) (events x).
Definition set_receivedStatus (b : bool) (x : t) : t :=
  Make (serverName x) (actionName x) (timeout x) (goals x) (goalTopic x) (cancelTopic x)
       b (events x).
Definition set_events (ev : gmap string (list (entry nat))) (x : t) : t :=
  Make (serverName x) (actionName x) (timeout x) (goals x) (goalTopic x) (cancelTopic x)
       (receivedStatus x) ev.
End ActionClient.

(** ** Observations

    What the program does to its environment is recorded in the state:
    the frames given to an open socket ([wire]), the call objects given to
    [callOnConnection] ([calls]), the call IDs formed ([ids]) and a trace
    of the events emitted and application functions called. *)

Inductive source : Type :=
| SrcRos
| SrcTopic (t : nat)
| SrcGoal (g : nat)
| SrcClient (c : nat).

Inductive obs : Type :=
| ObsEmit (src : source) (event : string) (arg : value)
| ObsCall (k : nat) (arg : value).

(** ** The state of one ROS connection and the objects created from it *)

Record State : Type := MkState {
  socket : option ReadyState;        (* ros.socket and its readyState *)
  idCounter : N;                     (* ros.idCounter *)
  ros_events : gmap string (list (entry ros_listener));
  topics : list Topic.t;
  goals : list Goal.t;
  clients : list ActionClient.t;
  timers : list timer;               (* pending setTimeout callbacks *)
  images : list string;              (* Image objects waiting for onload, by src *)
  next_listener : nat;               (* identity of the next function object *)
  wire : list string;
  calls : list value;
  ids : list string;
  trace : list obs
}.

Definition set_socket (x : option ReadyState) (s : State) : State :=
  MkState x (idCounter s) (ros_events s) (topics s) (goals s) (clients s) (timers s)
          (images s) (next_listener s) (wire s) (calls s) (ids s) (trace s).
Definition set_idCounter (x : N) (s : State) : State :=
  MkState (socket s) x (ros_events s) (topics s) (goals s) (clients s) (timers s)
          (images s) (next_listener s) (wire s) (calls s) (ids s) (trace s).
Definition set_ros_events (x : gmap string (list (entry ros_listener))) (s : State)
  : State :=
  MkState (socket s) (idCounter s) x (topics s) (goals s) (clients s) (timers s)
          (images s) (next_listener s) (wire s) (calls s) (ids s) (trace s).
Definition set_topics (x : list Topic.t) (s : State) : State :=
  MkState (socket s) (idCounter s) (ros_events s) x (goals s) (clients s) (timers s)
          (images s) (next_listener s) (wire s) (calls s) (ids s) (trace s).
Definition set_goals (x : list Goal.t) (s : State) : State :=
  MkState (socket s) (idCounter s) (ros_events s) (topics s) x (clients s) (timers s)
          (images s) (next_listener s) (wire s) (calls s) (ids s) (trace s).
Definition set_clients (x : list ActionClient.t) (s : State) : State :=
  MkState (socket s) (idCounter s) (ros_events s) (topics s) (goals s) x (timers s)
          (images s) (next_listener s) (wire s) (calls s) (ids s) (trace s).
Definition set_timers (x : list timer) (s : State) : State :=
  MkState (socket s) (idCounter s) (ros_events s) (topics s) (goals s) (clients s) x
          (images s) (next_listener s) (wire s) (calls s) (ids s) (trace s).
Definition set_images (x : list string) (s : State) : State :=
  MkState (socket s) (idCounter s) (ros_events s) (topics s) (goals s) (clients s)
          (timers s) x (next_listener s) (wire s) (calls s) (ids s) (trace s).
Definition set_next_listener (x : nat) (s : State) : State :=
  MkState (socket s) (idCounter s) (ros_events s) (topics s) (goals s) (clients s)
          (timers s) (images s) x (wire s) (calls s) (ids s) (trace s).
Definition set_wire (x : list string) (s : State) : State :=
  MkState (socket s) (idCounter s) (ros_events s) (topics s) (goals s) (clients s)
          (timers s) (images s) (next_listener s) x (calls s) (ids s) (trace s).
Definition set_calls (x : list value) (s : State) : State :=
  MkState (socket s) (idCounter s) (ros_events s) (topics s) (goals s) (clients s)
          (timers s) (images s) (next_listener s) (wire s) x (ids s) (trace s).
Definition set_ids (x : list string) (s : State) : State :=
  MkState (socket s) (idCounter s) (ros_events s) (topics s) (goals s) (clients s)
          (timers s) (images s) (next_listener s) (wire s) (calls s) x (trace s).
Definition set_trace (x : list obs) (s : State) : State :=
  MkState (socket s) (idCounter s) (ros_events s) (topics s) (goals s) (clients s)
          (timers s) (images s) (next_listener s) (wire s) (calls s) (ids s) x.

(** [new ROS()] without a url: no socket yet. *)
Definition ROS_new : State :=
  MkState None 0 ∅ [] [] [] [] [] 0 [] [] [] [].

(** ** The monad of the program: state and exceptions *)

Inductive outcome (A : Type) : Type :=
| Normal (a : A)
| Throw (e : exn).
Global Arguments Normal {A} _.
Global Arguments Throw {A} _.

Definition M (A : Type) : Type := State -> outcome A * State.

Definition ret {A} (a : A) : M A := fun s => (Normal a, s).
Definition throw {A} (e : exn) : M A := fun s => (Throw e, s).
Definition bind {A B} (m : M A) (k : A -> M B) : M B :=
  fun s =>
    match m s with
    | (Normal a, s') => k a s'
    | (Throw e, s') => (Throw e, s')
    end.
Definition gets {A} (f : State -> A) : M A := fun s => (Normal (f s), s).
Definition modify (f : State -> State) : M unit := fun s => (Normal tt, f s).

Declare Scope js_scope.
Delimit Scope js_scope with js.
Notation "x <- m ;; k" := (bind m (fun x => k))
  (at level 100, m at next level, right associativity) : js_scope.
Notation "m ;; k" := (bind m (fun _ => k))
  (at level 100, right associativity) : js_scope.
Local Open Scope js_scope.

(** [for (x of l) body(x)], stopping at the first exception. *)
Fixpoint for_each {A} (body : A -> M unit) (l : list A) : M unit :=
  match l with
  | [] => ret tt
  | x :: r => body x ;; for_each body r
  end.

Definition record (o : obs) : M unit :=
  modify (fun s => set_trace (trace s ++ [o]) s).

(** A property read: a TypeError on undefined and null. *)
Definition prop (v : value) (k : string) : M value :=
  match v with
  | VUndef | VNull => throw TypeError
  | _ => ret (JS.get v k)
  end.

(** A fresh function object. *)
Definition fresh : M nat :=
  fun s => (Normal (next_listener s), set_next_listener (S (next_listener s)) s).

(** Calls a snapshot of listeners in order; a [once] listener first
    removes itself. *)
Definition call_listeners {L} (off : nat -> M unit) (run : L -> M unit)
    (snapshot : list (entry L)) : M unit :=
  for_each (fun e => (if once e then off (lid e) else ret tt) ;; run (fn e)) snapshot.

Definition is_str (v : value) (s : string) : bool :=
  match v with
  | VStr x => bool_decide (x = s)
  | _ => false
  end.

(** The check at the head of [emit]: the event named error throws when
    nothing listens to it. *)
Definition emit_guard {L} (type : value) (snapshot : list (entry L)) : M unit :=
  if is_str type "error" then
    match snapshot with
    | [] => throw UncaughtErrorEvent
    | _ :: _ => ret tt
    end
  else ret tt.

(** ** Goals and action clients: events *)

Definition get_goal (g : nat) : M Goal.t :=
  fun s =>
    match goals s !! g with
    | Some x => (Normal x, s)
    | None => (Throw TypeError, s)
    end.

Definition update_goal (g : nat) (f : Goal.t -> Goal.t) : M unit :=
  modify (fun s => set_goals (alter f g (goals s)) s).

Definition get_client (c : nat) : M ActionClient.t :=
  fun s =>
    match clients s !! c with
    | Some x => (Normal x, s)
    | None => (Throw TypeError, s)
    end.

Definition update_client (c : nat) (f : ActionClient.t -> ActionClient.t) : M unit :=
  modify (fun s => set_clients (alter f c (clients s)) s).

Definition run_goal_listener (g : nat) (l : goal_listener) (arg : value) : M unit :=
  match l with
  | GStatus => update_goal g (Goal.set_status arg)
  | GResult =>
      update_goal g (Goal.set_isFinished true) ;;
      update_goal g (Goal.set_result arg)
  | GFeedback => update_goal g (Goal.set_feedback arg)
  | GApp k => record (ObsCall k arg)
  end.

Definition goal_off (g : nat) (event : string) (id : nat) : M unit :=
  update_goal g (fun x => Goal.set_events (off event id (Goal.events x)) x).

(** [goal.emit(event, arg)] *)
Definition goal_emit (g : nat) (event : string) (arg : value) : M unit :=
  record (ObsEmit (SrcGoal g) event arg) ;;
  x <- get_goal g ;;
  let snapshot := listeners event (Goal.events x) in
  emit_guard (VStr event) snapshot ;;
  call_listeners (goal_off g event) (fun l => run_goal_listener g l arg) snapshot.

(** [goal.on(event, l)] *)
Definition goal_on (g : nat) (event : string) (l : goal_listener) : M unit :=
  id <- fresh ;;
  update_goal g (fun x => Goal.set_events (on event (Entry id false l) (Goal.events x)) x).

Definition client_off (c : nat) (event : string) (id : nat) : M unit :=
  update_client c
    (fun x => ActionClient.set_events (off event id (ActionClient.events x)) x).

(** [actionClient.emit(event, arg)]; its listeners are functions of the
    application. *)
Definition client_emit (c : nat) (event : string) (arg : value) : M unit :=
  record (ObsEmit (SrcClient c) event arg) ;;
  x <- get_client c ;;
  let snapshot := listeners event (ActionClient.events x) in
  emit_guard (VStr event) snapshot ;;
  call_listeners (client_off c event) (fun k => record (ObsCall k arg)) snapshot.

(** ** Callbacks *)

(** The names that every object inherits from [Object.prototype]: the
    methods of the standard and the accessors that browsers and Node add.
    Each reads as a function, [__proto__] as the prototype object: all are
    truthy and none has a method [emit]. *)
Definition Object_prototype_names : list string :=
  ["constructor"; "toString"; "toLocaleString"; "valueOf"; "hasOwnProperty";
   "isPrototypeOf"; "propertyIsEnumerable"; "__proto__"; "__defineGetter__";
   "__defineSetter__"; "__lookupGetter__"; "__lookupSetter__"].

(** [var goal = actionClient.goals[id]; if (goal) { body(goal) }], where
    the body starts with [goal.emit(...)].  The table is a plain object:
    under a name of [Object.prototype] that is no key of the table the
    read finds the inherited member, and the call of its [emit] is a
    TypeError. *)
Definition with_goal (c : nat) (id : value) (body : nat -> M unit) : M unit :=
  x <- get_client c ;;
  match ActionClient.goals x !! JS.to_string id with
  | Some g => body g
  | None =>
      if bool_decide (JS.to_string id ∈ Object_prototype_names) then throw TypeError
      else ret tt
  end.

Fixpoint run_callback (cb : callback) (arg : value) : M unit :=
  match cb with
  | CbUser k => record (ObsCall k arg)
  | CbField field k =>
      v <- prop arg field ;;
      run_callback k v
  | CbParamGet k =>
      text <- prop arg "value" ;;
      match JSON.parse (JS.to_string text) with
      | Some v => run_callback k v
      | None => throw SyntaxError
      end
  | CbNoop => ret tt
  | CbStatus c =>
      (* receivedStatus = true;
         statusMessage.status_list.forEach(function(status) {
           var goal = actionClient.goals[status.goal_id.id];
           if (goal) { goal.emit('status', status); } }); *)
      update_client c (ActionClient.set_receivedStatus true) ;;
      status_list <- prop arg "status_list" ;;
      match status_list with
      | VArr l =>
          for_each
            (fun status =>
               goal_id <- prop status "goal_id" ;;
               id <- prop goal_id "id" ;;
               with_goal c id (fun g => goal_emit g "status" status))
            l
      | _ => throw TypeError
      end
  | CbFeedback c =>
      (* var goal = actionClient.goals[feedbackMessage.status.goal_id.id];
         if (goal) { goal.emit('status', feedbackMessage.status);
                     goal.emit('feedback', feedbackMessage.feedback); } *)
      status <- prop arg "status" ;;
      goal_id <- prop status "goal_id" ;;
      id <- prop goal_id "id" ;;
      with_goal c id
        (fun g =>
           goal_emit g "status" status ;;
           feedback <- prop arg "feedback" ;;
           goal_emit g "feedback" feedback)
  | CbResult c =>
      (* var goal = actionClient.goals[resultMessage.status.goal_id.id];
         if (goal) { goal.emit('status', resultMessage.status);
                     goal.emit('result', resultMessage.result); } *)
      status <- prop arg "status" ;;
      goal_id <- prop status "goal_id" ;;
      id <- prop goal_id "id" ;;
      with_goal c id
        (fun g =>
           goal_emit g "status" status ;;
           result <- prop arg "result" ;;
           goal_emit g "result" result)
  end.

(** ** Topics: events *)

Definition get_topic (t : nat) : M Topic.t :=
  fun s =>
    match topics s !! t with
    | Some x => (Normal x, s)
    | None => (Throw TypeError, s)
    end.

Definition update_topic (t : nat) (f : Topic.t -> Topic.t) : M unit :=
  modify (fun s => set_topics (alter f t (topics s)) s).

Definition run_topic_listener (l : topic_listener) (arg : value) : M unit :=
  match l with
  | TCall cb => run_callback cb arg
  | TApp k => record (ObsCall k arg)
  end.

Definition topic_off (t : nat) (event : string) (id : nat) : M unit :=
  update_topic t (fun x => Topic.set_events (off event id (Topic.events x)) x).

(** [topic.emit(event, arg)] *)
Definition topic_emit (t : nat) (event : string) (arg : value) : M unit :=
  record (ObsEmit (SrcTopic t) event arg) ;;
  x <- get_topic t ;;
  let snapshot := listeners event (Topic.events x) in
  emit_guard (VStr event) snapshot ;;
  call_listeners (topic_off t event) (fun l => run_topic_listener l arg) snapshot.

(** [topic.on(event, l)] *)
Definition topic_on (t : nat) (event : string) (l : topic_listener) : M unit :=
  id <- fresh ;;
  update_topic t (fun x => Topic.set_events (on event (Entry id false l) (Topic.events x)) x).

(** ** The ROS connection *)

(** [ros.socket.send(data)]: the host's WebSocket throws while
    CONNECTING, transmits while OPEN and discards the data afterwards. *)
Definition socket_send (data : value) : M unit :=
  fun s =>
    match socket s with
    | None => (Throw TypeError, s)
    | Some CONNECTING => (Throw InvalidStateError, s)
    | Some OPEN => (Normal tt, set_wire (wire s ++ [JS.to_string data]) s)
    | Some _ => (Normal tt, s)
    end.

Definition run_ros_listener (l : ros_listener) (arg : value) : M unit :=
  match l with
  | LSend messageJson => socket_send messageJson
  | LRoute t =>
      let message := JS.copy_fields arg in
      topic_emit t "message" message
  | LResponse cb =>
      let response := JS.copy_fields arg in
      run_callback cb response
  | LApp k => record (ObsCall k arg)
  end.

(** [ros.off(key, f)] for the function object [id] *)
Definition ros_off (key : string) (id : nat) : M unit :=
  modify (fun s => set_ros_events (off key id (ros_events s)) s).

(** [ros.emit(type, arg)]; the event name is whatever value the caller
    passes, used as a property key. *)
Definition ros_emit (type : value) (arg : value) : M unit :=
  let key := JS.to_string type in
  record (ObsEmit SrcRos key arg) ;;
  snapshot <- gets (fun s => listeners key (ros_events s)) ;;
  emit_guard type snapshot ;;
  call_listeners (ros_off key) (fun l => run_ros_listener l arg) snapshot.

(** [ros.on(key, l)] and [ros.once(key, l)] *)
Definition ros_on (key : string) (l : ros_listener) : M unit :=
  id <- fresh ;;
  modify (fun s => set_ros_events (on key (Entry id false l) (ros_events s)) s).

Definition ros_once (key : string) (l : ros_listener) : M unit :=
  id <- fresh ;;
  modify (fun s => set_ros_events (on key (Entry id true l) (ros_events s)) s).

(** *** Socket handling *)

Definition onOpen (event : value) : M unit := ros_emit (VStr "connection") event.
Definition onClose (event : value) : M unit := ros_emit (VStr "close") event.
Definition onError (event : value) : M unit := ros_emit (VStr "error") event.

(** The RGB bytes of the pixels, as characters:
    [for (i = 0; i < imageData.length; i += 4)
       jsonData += String.fromCharCode(imageData[i], imageData[i+1], imageData[i+2])];
    a read past the end is undefined, which [fromCharCode] turns into
    the character 0.  The bytes of a pixel buffer are below 256. *)
Definition fromCharCode (n : N) : ascii := ascii_of_N (n mod 256).

Fixpoint pixels_text (imageData : list N) : string :=
  match imageData with
  | [] => ""
  | [r] => String (fromCharCode r) (String zero (String zero ""))
  | [r; g] => String (fromCharCode r) (String (fromCharCode g) (String zero ""))
  | r :: g :: b :: [] =>
      String (fromCharCode r) (String (fromCharCode g) (String (fromCharCode b) ""))
  | r :: g :: b :: _ :: rest =>
      String (fromCharCode r) (String (fromCharCode g) (String (fromCharCode b)
        (pixels_text rest)))
  end.

Definition handleMessage (message : value) : M unit :=
  op <- prop message "op" ;;
  if is_str op "publish" then
    ros_emit (JS.get message "topic") (JS.get message "msg")
  else if is_str op "service_response" then
    ros_emit (JS.get message "id") (JS.get message "values")
  else ret tt.

(** [decompressPng(data, callback)] up to the assignment of [image.src]:
    the image is left to the host, which later calls [image.onload]. *)
Definition decompressPng (data : value) : M unit :=
  modify (fun s =>
    set_images (images s ++ ["data:image/png;base64," +:+ JS.to_string (JS.get data "data")]) s).

(** [image.onload] of the [i]-th pending image, when the host has decoded
    it into the pixel buffer [imageData]; the callback given to
    [decompressPng] is [handleMessage]. *)
Definition image_onload (i : nat) (imageData : list N) : M unit :=
  pending <- gets images ;;
  match pending !! i with
  | None => ret tt
  | Some _ =>
      modify (fun s => set_images (delete i (images s)) s) ;;
      let jsonData := pixels_text imageData in
      match JSON.parse jsonData with
      | Some decompressedData => handleMessage decompressedData
      | None => throw SyntaxError
      end
  end.

(** [onMessage(message)], where [frame] is [message.data]. *)
Definition onMessage (frame : string) : M unit :=
  match JSON.parse frame with
  | None => throw SyntaxError
  | Some data =>
      op <- prop data "op" ;;
      if is_str op "png" then decompressPng data else handleMessage data
  end.

(** [callOnConnection(message)] *)
Definition callOnConnection (message : value) : M unit :=
  let messageJson := JSON.stringify_value message in
  modify (fun s => set_calls (calls s ++ [message]) s) ;;
  sock <- gets socket ;;
  match sock with
  | None => throw TypeError
  | Some readyState =>
      if negb (is_open readyState) then ros_once "connection" (LSend messageJson)
      else socket_send messageJson
  end.

(** [ros.connect(url)]: a new socket, not yet open. *)
Definition connect : M unit := modify (set_socket (Some CONNECTING)).

(** [ros.close()] *)
Definition close : M unit :=
  sock <- gets socket ;;
  match sock with
  | Some CONNECTING | Some OPEN => modify (set_socket (Some CLOSING))
  | _ => ret tt
  end.

(** [new ROS(url)] *)
Definition ROS_new_url : State := snd (connect ROS_new).

(** The host's socket events: the ready state changes, then the handler
    installed by [connect] runs. *)
Definition socket_onopen (event : value) : M unit :=
  modify (set_socket (Some OPEN)) ;; onOpen event.
Definition socket_onclose (event : value) : M unit :=
  modify (set_socket (Some CLOSED)) ;; onClose event.
Definition socket_onerror (event : value) : M unit := onError event.
Definition socket_onmessage (frame : string) : M unit := onMessage frame.

(** *** Call IDs *)

(** [ros.idCounter++] on a JavaScript number: exact up to 2^53, where
    adding one no longer changes the value. *)
Definition max_safe : N := 2 ^ 53.
Definition js_succ (n : N) : N := if (n <? max_safe)%N then (n + 1)%N else n.

(** [ros.idCounter++; var id = prefix + name + ':' + ros.idCounter;] *)
Definition next_id (prefix name : string) : M string :=
  fun s =>
    let c := js_succ (idCounter s) in
    let id := prefix +:+ name +:+ ":" +:+ pretty c in
    (Normal id, set_ids (ids s ++ [id]) (set_idCounter c s)).

(** ** Topics *)

(** [new ros.Topic(options)]; the result is the handle of the new object. *)
Definition Topic_new (options : Topic.options) : M nat :=
  topic <- gets (fun s => length (topics s)) ;;
  let compression :=
    match Topic.o_compression options with
    | Some c => if bool_decide (c = "") then "none" else c
    | None => "none"
    end in
  let throttle_rate := default 0%Z (Topic.o_throttle_rate options) in
  modify (fun s =>
    set_topics
      (topics s ++
       [Topic.Make (Topic.o_node options) (Topic.o_name options)
                   (Topic.o_messageType options) false compression throttle_rate ∅])
      s) ;;
  (if negb (bool_decide (compression = ""))
      && negb (bool_decide (compression = "png"))
      && negb (bool_decide (compression = "none"))
   then
     topic_emit topic "warning"
       (VStr (compression +:+ " compression is not supported. No comression will be used."))
   else ret tt) ;;
  (if (throttle_rate <? 0)%Z then
     topic_emit topic "warning" (VStr (pretty throttle_rate +:+ " is not allowed. Set to 0")) ;;
     update_topic topic (Topic.set_throttle_rate 0)
   else ret tt) ;;
  ret topic.

Module TopicOps.

Definition subscribe (topic : nat) (cb : callback) : M unit :=
  topic_on topic "message" (TCall cb) ;;
  x <- get_topic topic ;;
  ros_on (Topic.name x) (LRoute topic) ;;
  subscribeId <- next_id "subscribe:" (Topic.name x) ;;
  x <- get_topic topic ;;
  callOnConnection
    (VObj [("op", VStr "subscribe");
           ("id", VStr subscribeId);
           ("type", Topic.messageType x);
           ("topic", VStr (Topic.name x));
           ("compression", VStr (Topic.compression x));
           ("throttle_rate", VNum (Topic.throttle_rate x))]).

(** [ros.removeAllListeners([topic.name])]: the one-element array is
    used as a property key, which is its element. *)
Definition unsubscribe (topic : nat) : M unit :=
  x <- get_topic topic ;;
  modify (fun s =>
    set_ros_events (removeAllListeners (JS.to_string (VArr [VStr (Topic.name x)]))
                      (ros_events s)) s) ;;
  unsubscribeId <- next_id "unsubscribe:" (Topic.name x) ;;
  callOnConnection
    (VObj [("op", VStr "unsubscribe");
           ("id", VStr unsubscribeId);
           ("topic", VStr (Topic.name x))]).

Definition advertise (topic : nat) : M unit :=
  x <- get_topic topic ;;
  advertiseId <- next_id "advertise:" (Topic.name x) ;;
  callOnConnection
    (VObj [("op", VStr "advertise");
           ("id", VStr advertiseId);
           ("type", Topic.messageType x);
           ("topic", VStr (Topic.name x))]) ;;
  update_topic topic (Topic.set_isAdvertised true).

Definition unadvertise (topic : nat) : M unit :=
  x <- get_topic topic ;;
  unadvertiseId <- next_id "unadvertise:" (Topic.name x) ;;
  callOnConnection
    (VObj [("op", VStr "unadvertise");
           ("id", VStr unadvertiseId);
           ("topic", VStr (Topic.name x))]) ;;
  update_topic topic (Topic.set_isAdvertised false).

Definition publish (topic : nat) (message : value) : M unit :=
  x <- get_topic topic ;;
  (if negb (Topic.isAdvertised x) then advertise topic else ret tt) ;;
  publishId <- next_id "publish:" (Topic.name x) ;;
  callOnConnection
    (VObj [("op", VStr "publish");
           ("id", VStr publishId);
           ("topic", VStr (Topic.name x));
           ("msg", message)]).

End TopicOps.

(** ** Services and params *)

(** [new ros.ServiceRequest(values)], [new ros.ServiceResponse(values)]
    and [new ros.Message(values)] *)
Definition ServiceRequest_new (values : value) : value := JS.copy_fields values.
Definition ServiceResponse_new (values : value) : value := JS.copy_fields values.
Definition Message_new (values : value) : value := JS.copy_fields values.

(** [service.callService(request, callback)].  The source assigns the ID
    to an undeclared variable, hence a global one; it is read back before
    anything else can run. *)
Definition callService (service : Service.t) (request : value) (cb : callback)
  : M unit :=
  serviceCallId <- next_id "call_service:" (Service.name service) ;;
  ros_once serviceCallId (LResponse cb) ;;
  match JS.Object_keys request with
  | inl e => throw e
  | inr names =>
      let requestValues := map (fun name => JS.get request name) names in
      callOnConnection
        (VObj [("op", VStr "call_service");
               ("id", VStr serviceCallId);
               ("service", VStr (Service.name service));
               ("args", VArr requestValues)])
  end.

Definition getTopics (cb : callback) : M unit :=
  callService (Service.Make "/rosapi/topics" (VStr "rosapi/Topics"))
              (ServiceRequest_new VUndef) (CbField "topics" cb).

Definition getServices (cb : callback) : M unit :=
  callService (Service.Make "/rosapi/services" (VStr "rosapi/Services"))
              (ServiceRequest_new VUndef) (CbField "services" cb).

Definition getParams (cb : callback) : M unit :=
  callService (Service.Make "/rosapi/get_param_names" (VStr "rosapi/GetParamNames"))
              (ServiceRequest_new VUndef) (CbField "names" cb).

Module ParamOps.

Definition get (param : Param.t) (cb : callback) : M unit :=
  let paramClient := Service.Make "/rosapi/get_param" (VStr "rosapi/GetParam") in
  let request :=
    ServiceRequest_new
      (VObj [("name", Param.name param);
             ("value", JSON.stringify_value (VStr ""))]) in
  callService paramClient request (CbParamGet cb).

Definition set (param : Param.t) (v : value) : M unit :=
  let paramClient := Service.Make "/rosapi/set_param" (VStr "rosapi/SetParam") in
  let request :=
    ServiceRequest_new
      (VObj [("name", Param.name param);
             ("value", JSON.stringify_value v)]) in
  callService paramClient request CbNoop.

End ParamOps.

(** ** The action client *)

Definition setTimeout (f : timer) : M unit :=
  modify (fun s => set_timers (timers s ++ [f]) s).

(** A timeout argument is used when it is truthy. *)
Definition timeout_given (timeout : option Z) : option Z :=
  match timeout with
  | Some d => if (d =? 0)%Z then None else Some d
  | None => None
  end.

(** [new ActionClient(options)], with [options.ros] the connection of
    the state; the result is the handle of the new object. *)
Definition ActionClient_new (options : ActionClient.options) : M nat :=
  let serverName := ActionClient.o_serverName options in
  let actionName := ActionClient.o_actionName options in
  actionClient <- gets (fun s => length (clients s)) ;;
  modify (fun s =>
    set_clients
      (clients s ++
       [ActionClient.Make serverName actionName (ActionClient.o_timeout options)
                          ∅ None None false ∅]) s) ;;
  goalTopic <- Topic_new (Topic.Options VUndef (serverName +:+ "/goal")
                            (VStr (actionName +:+ "Goal")) None None) ;;
  update_client actionClient (ActionClient.set_goalTopic (Some goalTopic)) ;;
  TopicOps.advertise goalTopic ;;
  cancelTopic <- Topic_new (Topic.Options VUndef (serverName +:+ "/cancel")
                              (VStr "actionlib_msgs/GoalID") None None) ;;
  update_client actionClient (ActionClient.set_cancelTopic (Some cancelTopic)) ;;
  TopicOps.advertise cancelTopic ;;
  statusListener <- Topic_new (Topic.Options VUndef (serverName +:+ "/status")
                                 (VStr "actionlib_msgs/GoalStatusArray") None None) ;;
  TopicOps.subscribe statusListener (CbStatus actionClient) ;;
  match timeout_given (ActionClient.o_timeout options) with
  | Some d => setTimeout (TimerServer actionClient d)
  | None => ret tt
  end ;;
  feedbackListener <- Topic_new (Topic.Options VUndef (serverName +:+ "/feedback")
                                   (VStr (actionName +:+ "Feedback")) None None) ;;
  TopicOps.subscribe feedbackListener (CbFeedback actionClient) ;;
  resultListener <- Topic_new (Topic.Options VUndef (serverName +:+ "/result")
                                 (VStr (actionName +:+ "Result")) None None) ;;
  TopicOps.subscribe resultListener (CbResult actionClient) ;;
  ret actionClient.

Module ClientOps.

(** [actionClient.cancelTopic.publish(message)] and the same for the
    goal topic. *)
Definition publish_on (field : ActionClient.t -> option nat) (c : nat)
    (message : value) : M unit :=
  x <- get_client c ;;
  match field x with
  | Some topic => TopicOps.publish topic message
  | None => throw TypeError
  end.

Definition cancel (c : nat) : M unit :=
  let cancelMessage := Message_new (VObj []) in
  publish_on ActionClient.cancelTopic c cancelMessage.

(** [new actionClient.Goal(goalMsg)]; [random] is the text of the
    number [Math.random()] returns and [time] is [date.getTime()]. *)
Definition Goal_new (c : nat) (goalMsg : value) (random : string) (time : Z)
  : M nat :=
  goal <- gets (fun s => length (goals s)) ;;
  let goalId := "goal_" +:+ random +:+ "_" +:+ pretty time in
  let goalMessage :=
    Message_new
      (VObj [("goal_id",
              VObj [("stamp", VObj [("secs", VNum 0); ("nsecs", VNum 0)]);
                    ("id", VStr goalId)]);
             ("goal", goalMsg)]) in
  modify (fun s =>
    set_goals (goals s ++ [Goal.Make false VUndef VUndef VUndef goalId goalMessage c ∅])
              s) ;;
  goal_on goal "status" GStatus ;;
  goal_on goal "result" GResult ;;
  goal_on goal "feedback" GFeedback ;;
  update_client c (fun x =>
    ActionClient.set_goals (<[goalId := goal]> (ActionClient.goals x)) x) ;;
  ret goal.

Definition send (goal : nat) (timeout : option Z) : M unit :=
  x <- get_goal goal ;;
  publish_on ActionClient.goalTopic (Goal.client x) (Goal.goalMessage x) ;;
  match timeout_given timeout with
  | Some d => setTimeout (TimerGoal goal d)
  | None => ret tt
  end.

Definition goal_cancel (goal : nat) : M unit :=
  x <- get_goal goal ;;
  let cancelMessage := Message_new (VObj [("id", VStr (Goal.goalId x))]) in
  publish_on ActionClient.cancelTopic (Goal.client x) cancelMessage.

End ClientOps.

(** The host runs the [i]-th pending timer, which is then spent. *)
Definition run_timer (f : timer) : M unit :=
  match f with
  | TimerServer c _ =>
      x <- get_client c ;;
      if negb (ActionClient.receivedStatus x) then client_emit c "timeout" VUndef
      else ret tt
  | TimerGoal g _ =>
      x <- get_goal g ;;
      if negb (Goal.isFinished x) then goal_emit g "timeout" VUndef
      else ret tt
  end.

Definition timer_fires (i : nat) : M unit :=
  pending <- gets timers ;;
  match pending !! i with
  | None => ret tt
  | Some f =>
      modify (fun s => set_timers (delete i (timers s)) s) ;;
      run_timer f
  end.

(** ** Vocabulary of the statements *)

(** The state after the observations [l]. *)
Definition log (l : list obs) (s : State) : State := set_trace (trace s ++ l) s.

(** The text [callOnConnection] gives to the socket for a call object. *)
Definition frame_of (message : value) : string :=
  JS.to_string (JSON.stringify_value message).

Definition advertise_call (x : Topic.t) (c : N) : value :=
  VObj [("op", VStr "advertise");
        ("id", VStr ("advertise:" +:+ Topic.name x +:+ ":" +:+ pretty c));
        ("type", Topic.messageType x);
        ("topic", VStr (Topic.name x))].

Definition publish_call (x : Topic.t) (c : N) (message : value) : value :=
  VObj [("op", VStr "publish");
        ("id", VStr ("publish:" +:+ Topic.name x +:+ ":" +:+ pretty c));
        ("topic", VStr (Topic.name x));
        ("msg", message)].

(** The listeners that [callOnConnection] leaves for the call objects
    [l], in order. *)
Definition deferred (first : nat) (l : list value) : list (entry ros_listener) :=
  imap (fun i m => Entry (first + i) true (LSend (JSON.stringify_value m))) l.

(** The text a listener left by [callOnConnection] transmits. *)
Definition payload (e : entry ros_listener) : string :=
  match fn e with
  | LSend messageJson => JS.to_string messageJson
  | _ => ""
  end.

Definition is_deferred_send (e : entry ros_listener) : Prop :=
  once e = true /\ exists messageJson, fn e = LSend messageJson.

Definition subscribe_call (x : Topic.t) (c : N) : value :=
  VObj [("op", VStr "subscribe");
        ("id", VStr ("subscribe:" +:+ Topic.name x +:+ ":" +:+ pretty c));
        ("type", Topic.messageType x);
        ("topic", VStr (Topic.name x));
        ("compression", VStr (Topic.compression x));
        ("throttle_rate", VNum (Topic.throttle_rate x))].

Definition unsubscribe_call (x : Topic.t) (c : N) : value :=
  VObj [("op", VStr "unsubscribe");
        ("id", VStr ("unsubscribe:" +:+ Topic.name x +:+ ":" +:+ pretty c));
        ("topic", VStr (Topic.name x))].

(** An inbound publish envelope. *)
Definition publish_envelope (topic : string) (msg : value) : value :=
  VObj [("op", VStr "publish"); ("topic", VStr topic); ("msg", msg)].

(** The calls of application function [k] in a trace, and all calls. *)
Definition is_call_of (k : nat) (o : obs) : bool :=
  match o with
  | ObsCall k' _ => Nat.eqb k' k
  | ObsEmit _ _ _ => false
  end.

Definition is_call (o : obs) : bool :=
  match o with
  | ObsCall _ _ => true
  | ObsEmit _ _ _ => false
  end.

Definition count_calls (k : nat) (tr : list obs) : nat :=
  length (List.filter (is_call_of k) tr).

Definition total_calls (tr : list obs) : nat := length (List.filter is_call tr).

(** What one delivery of [message] on topic [t] adds to the trace when
    the application functions [ks] are subscribed. *)
Definition delivery (t : nat) (message : value) (ks : list nat) : list obs :=
  ObsEmit (SrcTopic t) "message" message :: map (fun k => ObsCall k message) ks.

(** A listener registered by [on], as opposed to [once]. *)
Definition is_on {L} (f : L) (e : entry L) : Prop := once e = false /\ fn e = f.

(** The call object of a service call. *)
Definition service_call (service id : string) (args : list value) : value :=
  VObj [("op", VStr "call_service");
        ("id", VStr id);
        ("service", VStr service);
        ("args", VArr args)].

(** An inbound service response. *)
Definition response_envelope (id : string) (values : value) : value :=
  VObj [("op", VStr "service_response"); ("id", VStr id); ("values", values)].


(** The effect on a goal of a listener registered by the [Goal]
    constructor. *)
Definition goal_apply (f : goal_listener) (arg : value) (x : Goal.t) : Goal.t :=
  match f with
  | GStatus => Goal.set_status arg x
  | GResult => Goal.set_result arg (Goal.set_isFinished true x)
  | GFeedback => Goal.set_feedback arg x
  | GApp _ => x
  end.

(** The listeners of an event of a goal: the one the constructor
    registered, then listeners the application added with [on]. *)
Definition goal_listens (x : Goal.t) (event : string) (f : goal_listener)
    (ks : list nat) : Prop :=
  exists i apps,
    listeners event (Goal.events x) = Entry i false f :: apps /\
    Forall2 (fun e k => is_on (GApp k) e) apps ks.

(** [status.goal_id.id], when both reads succeed. *)
Definition goal_id_of (status : value) : option value :=
  match status with
  | VUndef | VNull => None
  | _ =>
      match JS.get status "goal_id" with
      | VUndef | VNull => None
      | goal_id => Some (JS.get goal_id "id")
      end
  end.





(** The frames that the waiting sends among the listeners [l] transmit,
    in order. *)
Definition waiting_sends (l : list (entry ros_listener)) : list string :=
  flat_map (fun e => match fn e with LSend m => [JS.to_string m] | _ => [] end) l.

(** The calls of the functions of the application among the listeners
    [l], in order. *)
Definition app_calls (arg : value) (l : list (entry ros_listener)) : list obs :=
  flat_map (fun e => match fn e with LApp k => [ObsCall k arg] | _ => [] end) l.

(** The listeners that stay registered after an event: those not
    registered with [once]. *)
Definition staying (l : list (entry ros_listener)) : list (entry ros_listener) :=
  List.filter (fun e => negb (once e)) l.

(** The listeners of the connection event in the states that the library
    and an application reach: functions of the application, registered
    with [on] or [once], and the sends that [callOnConnection] left
    waiting, each registered with [once].  Each listener is a function
    object of its own, made before the next one that will be made. *)
Definition connection_ready (s : State) : Prop :=
  let l := listeners "connection" (ros_events s) in
  Forall (fun e => match fn e with
                   | LSend _ => once e = true
                   | LApp _ => True
                   | _ => False
                   end) l /\
  NoDup (map lid l) /\
  Forall (fun e => lid e < next_listener s) l.

(** A value without an own field named [__proto__].  Assigning to that
    name, as the copy of [ros.Message] does for each own key, sets the
    prototype of the new object instead of a field; the objects of this
    model have no prototype of their own, so the statements about copies
    are made for values without such a field. *)
Definition proto_free (v : value) : Prop :=
  JS.assoc "__proto__" (JS.own_props v) = None.

(** A text in which every escape [\uXXXX] is at most 00FF, so that the
    strings it denotes are strings of this model, code unit by code unit.
    After a backslash the next character belongs to the escape. *)
Fixpoint narrow (s : string) : bool :=
  match s with
  | EmptyString => true
  | String c r =>
      if bool_decide (c = backslash) then
        match r with
        | String e r1 =>
            if bool_decide (e = "u"%char) then
              match r1 with
              | String a (String b r2) =>
                  bool_decide (a = "0"%char) && bool_decide (b = "0"%char) && narrow r2
              | _ => true
              end
            else narrow r1
        | EmptyString => true
        end
      else narrow r
  end.

(** A connection with one action client and one goal, used to show that
    the hypotheses of the statements about goals hold after the
    constructors have run. *)
Definition fibonacci_state : State :=
  snd (ClientOps.Goal_new 0 (VObj [("order", VNum 5)]) "0.25" 1234
         (snd (ActionClient_new
                 (ActionClient.Options "/fibonacci" "actionlib_tutorials/FibonacciAction"
                                       None)
                 ROS_new_url))).

Definition fibonacci_status (code : Z) : value :=
  VObj [("goal_id", VObj [("stamp", VObj [("secs", VNum 0); ("nsecs", VNum 0)]);
                          ("id", VStr "goal_0.25_1234")]);
        ("status", VNum code)].

(** ** Operations on one connection *)

(** What the application and the host can do to a connection: the
    methods of the library and the events of the socket, the images and
    the timers. *)
Inductive op : Type :=
| OpConnect
| OpClose
| OpSocketOpen (event : value)
| OpSocketClose (event : value)
| OpSocketError (event : value)
| OpSocketMessage (frame : string)
| OpImageLoad (i : nat) (imageData : list N)
| OpTimer (i : nat)
| OpTopic (options : Topic.options)
| OpSubscribe (topic : nat) (cb : callback)
| OpUnsubscribe (topic : nat)
| OpAdvertise (topic : nat)
| OpUnadvertise (topic : nat)
| OpPublish (topic : nat) (message : value)
| OpCallService (service : Service.t) (request : value) (cb : callback)
| OpGetTopics (cb : callback)
| OpGetServices (cb : callback)
| OpGetParams (cb : callback)
| OpParamGet (param : Param.t) (cb : callback)
| OpParamSet (param : Param.t) (v : value)
| OpActionClient (options : ActionClient.options)
| OpClientCancel (client : nat)
| OpGoal (client : nat) (goalMsg : value) (random : string) (time : Z)
| OpGoalSend (goal : nat) (timeout : option Z)
| OpGoalCancel (goal : nat).

Definition run_op (o : op) : M unit :=
  match o with
  | OpConnect => connect
  | OpClose => close
  | OpSocketOpen event => socket_onopen event
  | OpSocketClose event => socket_onclose event
  | OpSocketError event => socket_onerror event
  | OpSocketMessage frame => socket_onmessage frame
  | OpImageLoad i imageData => image_onload i imageData
  | OpTimer i => timer_fires i
  | OpTopic options => Topic_new options ;; ret tt
  | OpSubscribe topic cb => TopicOps.subscribe topic cb
  | OpUnsubscribe topic => TopicOps.unsubscribe topic
  | OpAdvertise topic => TopicOps.advertise topic
  | OpUnadvertise topic => TopicOps.unadvertise topic
  | OpPublish topic message => TopicOps.publish topic message
  | OpCallService service request cb => callService service request cb
  | OpGetTopics cb => getTopics cb
  | OpGetServices cb => getServices cb
  | OpGetParams cb => getParams cb
  | OpParamGet param cb => ParamOps.get param cb
  | OpParamSet param v => ParamOps.set param v
  | OpActionClient options => ActionClient_new options ;; ret tt
  | OpClientCancel client => ClientOps.cancel client
  | OpGoal client goalMsg random time =>
      ClientOps.Goal_new client goalMsg random time ;; ret tt
  | OpGoalSend goal timeout => ClientOps.send goal timeout
  | OpGoalCancel goal => ClientOps.goal_cancel goal
  end.

(** The state after a sequence of operations.  An exception of an
    operation goes to its caller (the application, or the host for an
    event); the objects keep what was done before it. *)
Fixpoint run_ops (l : list op) (s : State) : State :=
  match l with
  | [] => s
  | o :: r => run_ops r (snd (run_op o s))
  end.

(** The form of a call ID. *)
Definition call_id (parts : string * string * N) : string :=
  let '(prefix, name, c) := parts in
  prefix +:+ name +:+ ":" +:+ pretty c.

(** The IDs formed so far embed strictly increasing values of the
    counter, none above its current value. *)
Definition ids_wf (l : list string) (counter : N) : Prop :=
  exists parts : list (string * string * N),
    l = map call_id parts /\
    StronglySorted N.lt (map snd parts) /\
    Forall (fun c => (c <= counter)%N) (map snd parts).

(** A computation that keeps the IDs well formed, as long as the counter
    stays below 2^53. *)
Definition keeps_ids {A} (m : M A) : Prop :=
  forall s,
    (idCounter s <= idCounter (snd (m s)))%N /\
    ((idCounter (snd (m s)) < max_safe)%N ->
     ids_wf (ids s) (idCounter s) ->
     ids_wf (ids (snd (m s))) (idCounter (snd (m s)))).

(** The part of a string after its last colon. *)
Fixpoint has_colon (s : string) : bool :=
  match s with
  | EmptyString => false
  | String c r => bool_decide (c = ":"%char) || has_colon r
  end.

Fixpoint last_segment (s : string) : string :=
  match s with
  | EmptyString => ""
  | String c r =>
      if bool_decide (c = ":"%char) && negb (has_colon r) then r
      else last_segment r
  end.

(** 2^53 as a number of operations.  The definition is sealed: a unary
    number of this size can be reasoned about, not computed. *)
Definition many_aux : seal (N.to_nat max_safe).
Proof. by eexists. Qed.
Definition many : nat := many_aux.(unseal).
Definition many_unseal : many = N.to_nat max_safe := many_aux.(seal_eq).

(** ** Vocabulary of the further properties *)

(** A computation that leaves a part [f] of the state as it was. *)
Definition keeps {A B} (f : State -> B) (m : M A) : Prop :=
  forall s, f (snd (m s)) = f s.

(** A call of one of the listing services of rosapi, answered: [get] is
    [ros.getTopics], [ros.getServices] or [ros.getParams], and the
    application function [k] receives the field [field] of the response. *)
Definition list_round_trip (get : callback -> M unit) (service field : string)
    (k : nat) (values : value) (s : State) : Prop :=
  let id := "call_service:" +:+ service +:+ ":" +:+ pretty (js_succ (idCounter s)) in
  listeners id (ros_events s) = [] ->
  exists s1 s2,
    get (CbUser k) s = (Normal tt, s1) /\
    calls s1 = calls s ++ [service_call service id []] /\
    handleMessage (response_envelope id values) s1 = (Normal tt, s2) /\
    trace s2 = trace s ++ [ObsEmit SrcRos id values; ObsCall k (JS.get values field)].

(** The call object of [unadvertise]. *)
Definition unadvertise_call (x : Topic.t) (c : N) : value :=
  VObj [("op", VStr "unadvertise");
        ("id", VStr ("unadvertise:" +:+ Topic.name x +:+ ":" +:+ pretty c));
        ("topic", VStr (Topic.name x))].

(** The pixel buffer of an image, four bytes per pixel, and the text its
    red, green and blue bytes spell. *)
Definition rgba (px : list (N * N * N * N)) : list N :=
  flat_map (fun '(r, g, b, a) => [r; g; b; a]) px.

Definition rgb_text (px : list (N * N * N * N)) : string :=
  fold_right
    (fun '(r, g, b, _) rest =>
       String (fromCharCode r) (String (fromCharCode g) (String (fromCharCode b) rest)))
    "" px.

(** A key that is no array index.  JavaScript lists the keys of an
    object that are array indices first, in ascending order, whatever the
    order of insertion; the other keys come in insertion order, as in
    [VObj].  The test is on the first character: no index starts with
    anything but a digit. *)
Definition plain_key (k : string) : bool :=
  match k with
  | EmptyString => true
  | String c _ => negb (JS.is_digit c)
  end.

(** The values that [JSON.stringify] writes in full and that the model
    keeps exactly: no undefined and no number with a fraction or an
    exponent anywhere inside, integers up to 2^53 (every one of them is a
    double, written in digits), and objects with distinct keys none of
    which is an array index. *)
Fixpoint plain (v : value) : bool :=
  match v with
  | VUndef | VReal _ => false
  | VNull | VBool _ | VStr _ => true
  | VNum n => (Z.abs n <=? 2 ^ 53)%Z
  | VArr l => forallb plain l
  | VObj fs =>
      forallb (fun kx => plain (snd kx)) fs
      && forallb (fun kx => plain_key (fst kx)) fs
      && bool_decide (NoDup (map fst fs))
  end.

(** Words for the proof that [JSON.parse] reads back what
    [JSON.stringify] writes. *)
Module JSONText.
Import JSON.

(** A string of digits. *)
Fixpoint all_digits (s : string) : bool :=
  match s with
  | EmptyString => true
  | String c r => JS.is_digit c && all_digits r
  end.

(** What may follow a number: not a digit, a point or an exponent. *)
Definition number_end (rest : string) : Prop :=
  match rest with
  | EmptyString => True
  | String c _ =>
      JS.is_digit c = false /\ c <> "."%char /\ c <> "e"%char /\ c <> "E"%char
  end.

(** The first character of the text of a value: neither white space
    nor a closing bracket. *)
Definition starts_value (t : string) : Prop :=
  exists c r, t = String c r /\ is_ws c = false /\ c <> "]"%char /\ c <> "}"%char.

(** [t] is the text of [v], and parsing it gives [v] back, whatever
    follows that cannot go on a number. *)
Definition good (v : value) (t : string) : Prop :=
  stringify v = Some t /\
  starts_value t /\
  forall rest, number_end rest ->
    exists n0, forall n, n0 <= n -> parse_value n (t +:+ rest) = Some (v, rest).

(** The texts of the members of an object. *)
Definition member_texts (fs : list (string * value)) (ts : list string) : list string :=
  zip_with (fun kx t => quote (fst kx) +:+ ":" +:+ t) fs ts.

End JSONText.

(** ** Nav2D: the drawing loop

    The widget draws every 30 ms.  What it needs from the rest of the
    program is read from variables that the subscriptions and the click
    handlers assign; they are fields of [Nav2D.t] here.  The calls on the
    canvas context are recorded as commands. *)

Module Nav2D.

Inductive cmd : Type :=
| ClearRect (width height : value)          (* context.clearRect(0, 0, width, height) *)
| DrawImage (map : string) (width height : value)
                                            (* context.drawImage(map, 0, 0, width, height) *)
| FillStyle (color : string)                (* context.fillStyle = color *)
| BeginPath
| Arc (x y : value) (radius : Z)            (* context.arc(x, y, radius, 0, Math.PI * 2, true) *)
| ClosePath
| Fill
| Background (color : string)               (* canvas.style.background = color *)
| LineWidth (w : Z)
| Font (font : string)
| TextAlign (align : string)
| TextBaseline (baseline : string)
| FillText (text : string) (width height : value).
                                            (* context.fillText(text, width / 2, height / 2) *)

Record t : Type := Make {
  mode : string;                 (* nav2D.mode *)
  clickColor : string;
  robotColor : string;
  clickRadius : Z;
  clickUpdate : bool;
  robotRadius : Z;
  robotRadiusGrow : bool;
  robotX : value;
  robotY : value;
  robotRotZ : value;
  clickX : value;
  clickY : value;
  map : option string;           (* the map image, by its source; null before it is known *)
  mapResolution : value
}.

Definition maxRobotRadius : Z := 10.

Definition set_robot (radius : Z) (grow : bool) (nav : t) : t :=
  Make (mode nav) (clickColor nav) (robotColor nav) (clickRadius nav) (clickUpdate nav)
       radius grow (robotX nav) (robotY nav) (robotRotZ nav) (clickX nav) (clickY nav)
       (map nav) (mapResolution nav).

Definition set_click (radius : Z) (update : bool) (nav : t) : t :=
  Make (mode nav) (clickColor nav) (robotColor nav) radius update
       (robotRadius nav) (robotRadiusGrow nav) (robotX nav) (robotY nav) (robotRotZ nav)
       (clickX nav) (clickY nav) (map nav) (mapResolution nav).


(** The default [nav2D.drawrobot(context, robotX, robotY)]. *)
Definition drawrobot (robotX robotY : value) (nav : t) : list cmd * t :=
  let cmds := [FillStyle (robotColor nav); BeginPath;
               Arc robotX robotY (robotRadius nav); ClosePath; Fill] in
  let radius :=
    if robotRadiusGrow nav then (robotRadius nav + 1)%Z else (robotRadius nav - 1)%Z in
  let grow :=
    if (radius =? maxRobotRadius)%Z || (radius =? 1)%Z then negb (robotRadiusGrow nav)
    else robotRadiusGrow nav in
  (cmds, set_robot radius grow nav).










End Nav2D.

(** * Properties *)

Global Arguments JSON.stringify_value : simpl never.
Global Arguments JSON.stringify : simpl never.
Global Arguments JSON.parse : simpl never.
Global Arguments JS.to_string : simpl never.
Global Arguments JS.copy_fields : simpl never.
Global Arguments JS.get : simpl never.
Global Arguments listeners : simpl never.
Global Arguments on : simpl never.
Global Arguments off : simpl never.
Global Arguments removeAllListeners : simpl never.
Global Arguments js_succ : simpl never.
Global Arguments pretty : simpl never.
Global Arguments String.append : simpl never.
Global Arguments emit_guard : simpl never.
Global Arguments callOnConnection : simpl never.
Global Arguments socket_send : simpl never.
Global Arguments ros_emit : simpl never.
Global Arguments ros_on : simpl never.
Global Arguments ros_once : simpl never.
Global Arguments topic_emit : simpl never.
Global Arguments topic_on : simpl never.
Global Arguments goal_emit : simpl never.
Global Arguments goal_on : simpl never.
Global Arguments client_emit : simpl never.
Global Arguments run_callback : simpl never.
Global Arguments handleMessage : simpl never.
Global Arguments onMessage : simpl never.
Global Arguments Topic_new : simpl never.
Global Arguments TopicOps.subscribe : simpl never.
Global Arguments TopicOps.unsubscribe : simpl never.
Global Arguments TopicOps.advertise : simpl never.
Global Arguments TopicOps.unadvertise : simpl never.
Global Arguments TopicOps.publish : simpl never.
Global Arguments callService : simpl never.
Global Arguments record : simpl never.
Global Arguments log : simpl never.

(** Unfolds the monad and the accessors, then computes. *)
Ltac unf :=
  unfold get_topic, get_goal, get_client, update_topic, update_goal, update_client,
    next_id, setTimeout, prop, record, fresh, bind, ret, throw, gets, modify.
Ltac exec := unf; cbn.

(** ** The trace *)

Lemma log_nil s : log [] s = s.
Proof. destruct s. unfold log. cbn. by rewrite app_nil_r. Qed.

Lemma log_log a b s : log b (log a s) = log (a ++ b) s.
Proof. destruct s. unfold log. cbn. by rewrite app_assoc. Qed.

Lemma record_log o s : record o s = (Normal tt, log [o] s).
Proof. reflexivity. Qed.

Lemma trace_log l s : trace (log l s) = trace s ++ l.
Proof. reflexivity. Qed.
Lemma socket_log l s : socket (log l s) = socket s.
Proof. reflexivity. Qed.
Lemma idCounter_log l s : idCounter (log l s) = idCounter s.
Proof. reflexivity. Qed.
Lemma ros_events_log l s : ros_events (log l s) = ros_events s.
Proof. reflexivity. Qed.
Lemma topics_log l s : topics (log l s) = topics s.
Proof. reflexivity. Qed.
Lemma goals_log l s : goals (log l s) = goals s.
Proof. reflexivity. Qed.
Lemma clients_log l s : clients (log l s) = clients s.
Proof. reflexivity. Qed.
Lemma timers_log l s : timers (log l s) = timers s.
Proof. reflexivity. Qed.
Lemma images_log l s : images (log l s) = images s.
Proof. reflexivity. Qed.
Lemma wire_log l s : wire (log l s) = wire s.
Proof. reflexivity. Qed.
Lemma calls_log l s : calls (log l s) = calls s.
Proof. reflexivity. Qed.
Lemma ids_log l s : ids (log l s) = ids s.
Proof. reflexivity. Qed.
Lemma next_listener_log l s : next_listener (log l s) = next_listener s.
Proof. reflexivity. Qed.

Create Rewrite HintDb log.
Hint Rewrite trace_log socket_log idCounter_log ros_events_log topics_log goals_log
  clients_log timers_log images_log wire_log calls_log ids_log next_listener_log : log.

(** ** Emitters *)

Lemma listeners_empty {L} key : listeners (L:=L) key ∅ = [].
Proof. unfold listeners. by rewrite lookup_empty. Qed.

Lemma listeners_on_eq {L} key (e : entry L) ev :
  listeners key (on key e ev) = listeners key ev ++ [e].
Proof. unfold listeners at 1, on. by rewrite lookup_insert_eq. Qed.

Lemma listeners_on_ne {L} key key' (e : entry L) ev :
  key <> key' -> listeners key' (on key e ev) = listeners key' ev.
Proof. intros. unfold listeners, on. by rewrite lookup_insert_ne. Qed.

Lemma listeners_removeAll_eq {L} key (ev : gmap string (list (entry L))) :
  listeners key (removeAllListeners key ev) = [].
Proof. unfold listeners, removeAllListeners. by rewrite lookup_delete_eq. Qed.

Lemma listeners_removeAll_ne {L} key key' (ev : gmap string (list (entry L))) :
  key <> key' -> listeners key' (removeAllListeners key ev) = listeners key' ev.
Proof. intros. unfold listeners, removeAllListeners. by rewrite lookup_delete_ne. Qed.

(** Removing the listener at the head of its list. *)
Lemma listeners_off_head {L} key (e : entry L) r ev :
  listeners key ev = e :: r -> listeners key (off key (lid e) ev) = r.
Proof.
  unfold listeners, off. destruct (ev !! key) as [l|] eqn:Hl; cbn; [|done].
  intros ->. cbn. rewrite decide_True by done.
  destruct r; by rewrite ?lookup_delete_eq, ?lookup_insert_eq.
Qed.

Lemma listeners_off_ne {L} key key' id (ev : gmap string (list (entry L))) :
  key <> key' -> listeners key' (off key id ev) = listeners key' ev.
Proof.
  intros. unfold listeners, off. destruct (ev !! key) as [l|]; [|done].
  destruct (remove_first id l); by rewrite ?lookup_delete_ne, ?lookup_insert_ne.
Qed.

Lemma is_str_ne s1 s2 : s1 <> s2 -> is_str (VStr s1) s2 = false.
Proof. intros. unfold is_str. by rewrite bool_decide_eq_false. Qed.

Lemma is_str_eq s1 : is_str (VStr s1) s1 = true.
Proof. unfold is_str. by rewrite bool_decide_eq_true. Qed.

Lemma emit_guard_event {L} event (snapshot : list (entry L)) s :
  event <> "error" -> emit_guard (VStr event) snapshot s = (Normal tt, s).
Proof. intros. unfold emit_guard. by rewrite is_str_ne. Qed.

Lemma emit_guard_cons {L} type e (snapshot : list (entry L)) s :
  emit_guard type (e :: snapshot) s = (Normal tt, s).
Proof. unfold emit_guard. by destruct (is_str _ _). Qed.

Lemma alter_lookup {A} (f : A -> A) i x (l : list A) :
  l !! i = Some x -> alter f i l = <[i := f x]> l.
Proof.
  revert i. induction l as [|y l IH]; intros [|i]; cbn; try done.
  - by intros [= ->].
  - intros H. f_equal. by apply IH.
Qed.

Lemma lookup_snoc_length {A} (l : list A) x : (l ++ [x]) !! length l = Some x.
Proof. rewrite lookup_app_r by lia. by rewrite Nat.sub_diag. Qed.

Lemma alter_snoc_length {A} (f : A -> A) (l : list A) x :
  alter f (length l) (l ++ [x]) = l ++ [f x].
Proof.
  rewrite <- (Nat.add_0_r (length l)). by rewrite (alter_app_r f l [x] 0).
Qed.

(** ** Topic construction (claim C9) *)

Lemma topic_emit_silent t x event arg s :
  topics s !! t = Some x ->
  listeners event (Topic.events x) = [] ->
  event <> "error" ->
  topic_emit t event arg s = (Normal tt, log [ObsEmit (SrcTopic t) event arg] s).
Proof.
  intros Ht Hl He. unfold topic_emit. exec. rewrite Ht, Hl.
  by rewrite emit_guard_event.
Qed.

(** What the constructor computes, for every option record and state. *)
Lemma Topic_new_spec o s :
  let t := length (topics s) in
  let c := match Topic.o_compression o with
           | Some c => if bool_decide (c = "") then "none" else c
           | None => "none"
           end in
  let r := default 0%Z (Topic.o_throttle_rate o) in
  let w1 := if bool_decide (c = "png") || bool_decide (c = "none") then []
            else [ObsEmit (SrcTopic t) "warning"
                    (VStr (c +:+ " compression is not supported. No comression will be used."))] in
  let w2 := if (r <? 0)%Z
            then [ObsEmit (SrcTopic t) "warning"
                    (VStr (pretty r +:+ " is not allowed. Set to 0"))]
            else [] in
  Topic_new o s
  = (Normal t,
     log (w1 ++ w2)
       (set_topics
          (topics s ++
           [Topic.Make (Topic.o_node o) (Topic.o_name o) (Topic.o_messageType o)
                       false c (Z.max r 0) ∅]) s)).
Proof.
  intros t c r w1 w2. unfold Topic_new. exec. fold t c r.
  assert (Hc : c <> "").
  { subst c. destruct (Topic.o_compression o) as [c'|]; [|done]. by case_bool_decide. }
  rewrite (bool_decide_eq_false_2 _ Hc). cbn [negb andb].
  destruct s as [sock cnt rev tps gls cls tms ims nl wr cl idl tr].
  cbn in t. unfold log. cbn.
  assert (Hw1 : forall s', topics s' = tps ++ [Topic.Make (Topic.o_node o) (Topic.o_name o)
                 (Topic.o_messageType o) false c r ∅] ->
      (if negb (bool_decide (c = "png")) && negb (bool_decide (c = "none"))
       then topic_emit t "warning"
              (VStr (c +:+ " compression is not supported. No comression will be used."))
       else ret tt) s' = (Normal tt, log w1 s')).
  { intros s' Hs'. subst w1.
    destruct (bool_decide (c = "png")), (bool_decide (c = "none")); cbn;
      rewrite ?log_nil; try done.
    erewrite topic_emit_silent; [done|rewrite Hs'; apply lookup_snoc_length| |done].
    apply listeners_empty. }
  rewrite Hw1 by done. unfold log at 1. cbn.
  subst w2. destruct (r <? 0)%Z eqn:Hr.
  - erewrite topic_emit_silent;
      [|cbn; apply lookup_snoc_length|apply listeners_empty|done].
    unfold log. cbn. subst t. rewrite alter_snoc_length. cbn.
    apply Z.ltb_lt in Hr. rewrite Z.max_r by lia. by rewrite app_assoc.
  - apply Z.ltb_ge in Hr. rewrite Z.max_l by lia. by rewrite app_nil_r.
Qed.

(** C9.  A topic constructed with [throttle_rate = -5] has throttle rate 0
    and one constructed with [compression = 'gzip'] keeps [gzip]; in both
    cases a warning is emitted on the topic and the constructor returns
    the new topic normally, whatever the other options and the state. *)
Theorem C9_topic_validation (o : Topic.options) (s : State) :
  (Topic.o_throttle_rate o = Some (-5)%Z ->
   exists s' x,
     Topic_new o s = (Normal (length (topics s)), s') /\
     topics s' !! length (topics s) = Some x /\
     Topic.throttle_rate x = 0%Z /\
     ObsEmit (SrcTopic (length (topics s))) "warning" (VStr "-5 is not allowed. Set to 0")
       ∈ trace s') /\
  (Topic.o_compression o = Some "gzip" ->
   exists s' x,
     Topic_new o s = (Normal (length (topics s)), s') /\
     topics s' !! length (topics s) = Some x /\
     Topic.compression x = "gzip" /\
     ObsEmit (SrcTopic (length (topics s))) "warning"
       (VStr "gzip compression is not supported. No comression will be used.")
       ∈ trace s').
Proof.
  split; intros Ho; rewrite Topic_new_spec; rewrite Ho; cbn;
    do 2 eexists; (split; [reflexivity|]); unfold log; cbn;
    (split; [apply lookup_snoc_length|]); (split; [reflexivity|]).
  - rewrite !elem_of_app. right. right. by apply list_elem_of_singleton.
  - rewrite !elem_of_app. right. left. by apply list_elem_of_singleton.
Qed.

Lemma C9_topic_validation_witness :
  let o := Topic.Options VUndef "/scan" (VStr "sensor_msgs/LaserScan")
                         (Some "gzip") (Some (-5)%Z) in
  (exists s' x,
     Topic_new o ROS_new_url = (Normal 0, s') /\
     topics s' !! 0 = Some x /\
     Topic.throttle_rate x = 0%Z /\
     ObsEmit (SrcTopic 0) "warning" (VStr "-5 is not allowed. Set to 0") ∈ trace s') /\
  (exists s' x,
     Topic_new o ROS_new_url = (Normal 0, s') /\
     topics s' !! 0 = Some x /\
     Topic.compression x = "gzip" /\
     ObsEmit (SrcTopic 0) "warning"
       (VStr "gzip compression is not supported. No comression will be used.")
       ∈ trace s').
Proof.
  intros o. destruct (C9_topic_validation o ROS_new_url) as [H1 H2].
  split; [apply H1; reflexivity|apply H2; reflexivity].
Defined.

(** ** Sending (claims C4 and C5) *)

(** With a socket, [callOnConnection] transmits at once when the socket is
    open and otherwise registers a one-time listener of the connection
    event that will transmit. *)
Lemma callOnConnection_spec message rs s :
  socket s = Some rs ->
  callOnConnection message s
  = (Normal tt,
     let s1 := set_calls (calls s ++ [message]) s in
     if negb (is_open rs)
     then set_ros_events
            (on "connection"
                (Entry (next_listener s) true (LSend (JSON.stringify_value message)))
                (ros_events s))
            (set_next_listener (S (next_listener s)) s1)
     else set_wire (wire s ++ [frame_of message]) s1).
Proof.
  intros Hs. unfold callOnConnection. exec. rewrite Hs.
  destruct rs; cbn; unfold socket_send, ros_once; exec; rewrite ?Hs; reflexivity.
Qed.

(** Without a socket it throws, having registered nothing. *)
Lemma callOnConnection_no_socket message s :
  socket s = None ->
  callOnConnection message s = (Throw TypeError, set_calls (calls s ++ [message]) s).
Proof. intros Hs. unfold callOnConnection. exec. by rewrite Hs. Qed.

(** What [publish] does on a connection with a socket. *)
Lemma publish_spec t x message rs s :
  topics s !! t = Some x ->
  socket s = Some rs ->
  let c1 := js_succ (idCounter s) in
  let sent :=
    if Topic.isAdvertised x then [publish_call x c1 message]
    else [advertise_call x c1; publish_call x (js_succ c1) message] in
  exists s',
    TopicOps.publish t message s = (Normal tt, s') /\
    topics s' = <[t := Topic.set_isAdvertised true x]> (topics s) /\
    calls s' = calls s ++ sent /\
    (if is_open rs
     then wire s' = wire s ++ map frame_of sent /\
          ros_events s' = ros_events s
     else wire s' = wire s /\
          listeners "connection" (ros_events s')
          = listeners "connection" (ros_events s) ++ deferred (next_listener s) sent) /\
    socket s' = socket s /\
    goals s' = goals s /\
    clients s' = clients s /\
    timers s' = timers s /\
    trace s' = trace s.
Proof.
  intros Ht Hs c1 sent. subst sent c1.
  assert (Hx : Topic.isAdvertised x = true -> Topic.set_isAdvertised true x = x).
  { destruct x; cbn. by intros ->. }
  unfold TopicOps.publish. exec. rewrite Ht.
  destruct (Topic.isAdvertised x) eqn:Hadv; cbn.
  - rewrite (callOnConnection_spec _ rs) by (cbn; exact Hs).
    eexists; split; [reflexivity|].
    rewrite Hx by done. rewrite list_insert_id by done.
    destruct rs; cbn; rewrite ?listeners_on_eq, ?Nat.add_0_r; done.
  - unfold TopicOps.advertise. exec. rewrite Ht.
    rewrite (callOnConnection_spec _ rs) by (cbn; exact Hs). cbn.
    rewrite (callOnConnection_spec _ rs) by (destruct rs; cbn; exact Hs).
    eexists; split; [reflexivity|].
    rewrite <- (alter_lookup _ _ _ _ Ht).
    destruct rs; cbn; rewrite ?listeners_on_eq, ?Nat.add_0_r, <- ?app_assoc;
      cbn; rewrite ?Nat.add_1_r; done.
Qed.

(** With a socket in any ready state, [publish] on a topic that is not
    advertised hands exactly an advertise call and then a publish call to
    [callOnConnection] and leaves the flag [isAdvertised] of the topic
    true, the rest of the topic and the other topics being as they were;
    on an advertised topic it hands over the publish call alone.  The
    calls are transmitted in that order when the socket is open, and
    otherwise wait in that order behind the listeners of the connection
    event. *)
Lemma publish_advertises_first
    (t : nat) (x : Topic.t) (message : value) (rs : ReadyState) (s : State) :
  topics s !! t = Some x ->
  socket s = Some rs ->
  let c1 := js_succ (idCounter s) in
  let sent :=
    if Topic.isAdvertised x then [publish_call x c1 message]
    else [advertise_call x c1; publish_call x (js_succ c1) message] in
  exists s' x',
    TopicOps.publish t message s = (Normal tt, s') /\
    topics s' !! t = Some x' /\
    Topic.isAdvertised x' = true /\
    (Topic.node x' = Topic.node x /\
     Topic.name x' = Topic.name x /\
     Topic.messageType x' = Topic.messageType x /\
     Topic.compression x' = Topic.compression x /\
     Topic.throttle_rate x' = Topic.throttle_rate x /\
     Topic.events x' = Topic.events x) /\
    (forall t', t' <> t -> topics s' !! t' = topics s !! t') /\
    calls s' = calls s ++ sent /\
    (if is_open rs
     then wire s' = wire s ++ map frame_of sent /\
          ros_events s' = ros_events s
     else wire s' = wire s /\
          listeners "connection" (ros_events s')
          = listeners "connection" (ros_events s) ++ deferred (next_listener s) sent).
Proof.
  intros Ht Hs c1 sent.
  destruct (publish_spec t x message rs s Ht Hs) as (s' & Hrun & Htopics & Hcalls & Hw & _).
  exists s', (Topic.set_isAdvertised true x). split; [exact Hrun|]. split.
  { rewrite Htopics. apply list_lookup_insert_eq. by eapply lookup_lt_Some. }
  split; [reflexivity|]. split; [by repeat split|]. split.
  { intros t' Hne. rewrite Htopics. by apply list_lookup_insert_ne. }
  split; [exact Hcalls|exact Hw].
Qed.

(** C5 at the input where the code fails: on a connection created without
    a url, which has no socket, [publish] on a topic that is not
    advertised throws the TypeError of [callOnConnection] while it
    advertises.  No envelope is transmitted or left waiting, the flag
    [isAdvertised] is still false, and nothing is transmitted when the
    connection is later made and opens. *)
Theorem C5_publish_without_socket :
  let s0 := snd (Topic_new (Topic.Options VUndef "/cmd_vel" (VStr "geometry_msgs/Twist")
                              None None) ROS_new) in
  let r := TopicOps.publish 0 (VObj [("linear", VNum 1)]) s0 in
  let later := snd (socket_onopen VNull (snd (connect (snd r)))) in
  socket s0 = None /\
  (Topic.isAdvertised <$> topics s0 !! 0) = Some false /\
  fst r = Throw TypeError /\
  wire (snd r) = [] /\
  listeners "connection" (ros_events (snd r)) = [] /\
  (Topic.isAdvertised <$> topics (snd r) !! 0) = Some false /\
  wire later = [].
Proof. repeat split. Qed.

(** Calling the waiting sends of an event on an open socket transmits
    them in registration order and leaves none registered. *)
Lemma call_deferred_sends key arg l : forall s,
  listeners key (ros_events s) = l ->
  Forall is_deferred_send l ->
  socket s = Some OPEN ->
  exists s',
    call_listeners (ros_off key) (fun f => run_ros_listener f arg) l s
    = (Normal tt, s') /\
    wire s' = wire s ++ map payload l /\
    listeners key (ros_events s') = [] /\
    socket s' = Some OPEN /\
    trace s' = trace s /\
    calls s' = calls s.
Proof.
  induction l as [|e l IH]; intros s Hl Hall Hs.
  - exists s. cbn. by rewrite app_nil_r.
  - apply Forall_cons in Hall as [[Honce [m Hm]] Hall].
    unfold call_listeners in *. cbn [for_each].
    unfold bind at 1. unfold bind at 1. rewrite Honce, Hm. cbn.
    unfold ros_off at 1, modify at 1. unfold socket_send at 1.
    cbn [socket set_ros_events]. rewrite Hs.
    set (s1 := set_wire _ _).
    destruct (IH s1) as (s' & Hrun & Hw & Hl' & Hs' & Ht & Hc).
    { subst s1. cbn. by apply listeners_off_head. }
    { done. }
    { done. }
    exists s'. split; [exact Hrun|].
    repeat split; try done.
    rewrite Hw. subst s1. cbn. unfold payload at 2. rewrite Hm.
    by rewrite <- app_assoc.
Qed.

Lemma ros_emit_unfold type arg s :
  ros_emit type arg s
  = bind (emit_guard type (listeners (JS.to_string type) (ros_events s)))
         (fun _ =>
            call_listeners (ros_off (JS.to_string type))
                           (fun l => run_ros_listener l arg)
                           (listeners (JS.to_string type) (ros_events s)))
         (log [ObsEmit SrcRos (JS.to_string type) arg] s).
Proof. reflexivity. Qed.

(** The socket opens while the calls [l] wait: they are transmitted in
    the order in which they were handed over. *)
Lemma open_flushes_deferred first l event s :
  listeners "connection" (ros_events s) = deferred first l ->
  exists s',
    socket_onopen event s = (Normal tt, s') /\
    wire s' = wire s ++ map frame_of l /\
    listeners "connection" (ros_events s') = [] /\
    socket s' = Some OPEN.
Proof.
  intros Hl. unfold socket_onopen, onOpen.
  unfold bind at 1. unfold modify at 1. rewrite ros_emit_unfold.
  change (JS.to_string (VStr "connection")) with "connection".
  cbn [ros_events set_socket]. rewrite Hl.
  unfold bind at 1. rewrite emit_guard_event by done.
  set (s1 := log _ _).
  destruct (call_deferred_sends "connection" event (deferred first l) s1)
    as (s' & Hrun & Hw & Hl' & Hs' & _); [done| |done|].
  { unfold deferred. apply Forall_forall. intros e He.
    apply list_elem_of_lookup in He as [i He].
    rewrite list_lookup_imap in He.
    destruct (l !! i); [|done]. injection He as <-. split; [done|by eexists]. }
  exists s'. split; [exact Hrun|]. repeat split; try done.
  rewrite Hw. subst s1. cbn. f_equal.
  unfold deferred. clear. generalize first. induction l as [|m l IH]; intros n; [done|].
  cbn. f_equal. rewrite <- (IH (S n)).
  f_equal. apply imap_ext. intros i y _. cbn. f_equal. lia.
Qed.

(** A socket that opens when no send waits transmits nothing: what was
    flushed by an earlier opening is not replayed. *)
Lemma open_replays_nothing event s :
  listeners "connection" (ros_events s) = [] ->
  exists s',
    socket_onopen event s = (Normal tt, s') /\ wire s' = wire s.
Proof.
  intros Hl. unfold socket_onopen, onOpen.
  unfold bind at 1. unfold modify at 1. rewrite ros_emit_unfold.
  change (JS.to_string (VStr "connection")) with "connection".
  cbn [ros_events set_socket]. rewrite Hl.
  unfold bind at 1. rewrite emit_guard_event by done. cbn. by eexists.
Qed.

(** C4 at the input where the code fails: a connection created without a
    url has no socket, and the first call handed to [callOnConnection]
    (here by [advertise]) throws a TypeError instead of being deferred:
    no listener is registered, and nothing is transmitted when the
    connection is later made and opens. *)
Theorem C4_send_before_connect_throws :
  let s0 := snd (Topic_new (Topic.Options VUndef "/cmd_vel" (VStr "geometry_msgs/Twist")
                              None None) ROS_new) in
  let r := TopicOps.advertise 0 s0 in
  let later := snd (socket_onopen VNull (snd (connect (snd r)))) in
  socket s0 = None /\
  fst r = Throw TypeError /\
  listeners "connection" (ros_events (snd r)) = [] /\
  wire later = [].
Proof. repeat split. Qed.

(** ** Service calls (claim C1) *)

Lemma assoc_set_eq fs k x : JS.assoc k (JS.set fs k x) = Some x.
Proof.
  induction fs as [|[k' y] fs IH]; cbn.
  - by rewrite decide_True.
  - destruct (decide (k' = k)) as [->|Hne]; cbn.
    + by rewrite decide_True.
    + by rewrite decide_False.
Qed.

Lemma assoc_set_ne fs k k' x : k <> k' -> JS.assoc k' (JS.set fs k x) = JS.assoc k' fs.
Proof.
  intros Hne. induction fs as [|[k'' y] fs IH]; cbn.
  - by rewrite decide_False.
  - destruct (decide (k'' = k)) as [->|Hne']; cbn.
    + by rewrite !decide_False.
    + destruct (decide (k'' = k')); [done|exact IH].
Qed.

Lemma assoc_copy (g : string -> value) names : forall acc k,
  JS.assoc k (fold_left (fun fs name => JS.set fs name (g name)) names acc)
  = if decide (k ∈ names) then Some (g k) else JS.assoc k acc.
Proof.
  induction names as [|n names IH]; intros acc k; cbn.
  - rewrite decide_False; [done|]. by intros ?%elem_of_nil.
  - rewrite IH. destruct (decide (k ∈ names)) as [Hin|Hnin].
    + rewrite decide_True; [done|]. by right.
    + destruct (decide (n = k)) as [->|Hne].
      * rewrite decide_True by left. apply assoc_set_eq.
      * rewrite decide_False.
        -- by apply assoc_set_ne.
        -- intros [->|?]%elem_of_cons; done.
Qed.

(** The object built by [new ros.ServiceResponse(values)] (and by the
    other two constructors) has exactly the own enumerable keys of
    [values], each with the value it has in [values]. *)
Lemma copy_fields_spec values :
  exists fs,
    JS.copy_fields values = VObj fs /\
    forall name,
      JS.assoc name fs
      = if decide (name ∈ (JS.own_props values).*1) then Some (JS.get values name)
        else None.
Proof.
  unfold JS.copy_fields. destruct (JS.truthy values) eqn:Htruthy.
  - eexists; split; [reflexivity|]. intros name. by rewrite assoc_copy.
  - exists []. split; [done|]. intros name.
    assert (JS.own_props values = []) as ->.
    { destruct values as [| |b|n|lit|str|l|fs]; try done.
      cbn in Htruthy. apply negb_false_iff, bool_decide_eq_true in Htruthy.
      by subst str. }
    cbn. rewrite decide_False; [done|]. by intros ?%elem_of_nil.
Qed.

Lemma call_service_id_ne name (c : N) :
  "call_service:" +:+ name +:+ ":" +:+ pretty c <> "error" /\
  "call_service:" +:+ name +:+ ":" +:+ pretty c <> "connection".
Proof. split; intros H; vm_compute in H; congruence. Qed.

Lemma prop_defined v k x : JS.get v k = x -> x <> VUndef -> prop v k = ret x.
Proof. intros Hg Hx. destruct v; cbn; by rewrite <- ?Hg. Qed.

Lemma handleMessage_service_response message id values s :
  JS.get message "op" = VStr "service_response" ->
  JS.get message "id" = id ->
  JS.get message "values" = values ->
  handleMessage message s = ros_emit id values s.
Proof.
  intros Hop Hid Hv. unfold handleMessage.
  rewrite (prop_defined _ _ _ Hop) by done.
  unfold bind, ret. cbn. by rewrite Hid, Hv.
Qed.

Lemma handleMessage_publish message topic msg s :
  JS.get message "op" = VStr "publish" ->
  JS.get message "topic" = topic ->
  JS.get message "msg" = msg ->
  handleMessage message s = ros_emit topic msg s.
Proof.
  intros Hop Ht Hm. unfold handleMessage.
  rewrite (prop_defined _ _ _ Hop) by done.
  unfold bind, ret. cbn. by rewrite Ht, Hm.
Qed.

(** An event with a single one-time listener: the listener is removed,
    then called. *)
Lemma ros_emit_once key id f arg s :
  listeners key (ros_events s) = [Entry id true f] ->
  ros_emit (VStr key) arg s
  = run_ros_listener f arg
      (set_ros_events (off key id (ros_events s)) (log [ObsEmit SrcRos key arg] s)).
Proof.
  intros Hl. rewrite ros_emit_unfold.
  change (JS.to_string (VStr key)) with key. rewrite Hl.
  unfold bind at 1. rewrite emit_guard_cons.
  unfold call_listeners. cbn [for_each once lid fn].
  unfold bind at 1. unfold bind at 1. unfold ros_off at 1, modify at 1.
  unfold bind. cbn [ros_events log set_trace].
  by destruct (run_ros_listener f arg _) as [[[]|e] s'].
Qed.

(** An event nobody listens to. *)
Lemma ros_emit_nobody key arg s :
  listeners key (ros_events s) = [] ->
  key <> "error" ->
  ros_emit (VStr key) arg s = (Normal tt, log [ObsEmit SrcRos key arg] s).
Proof.
  intros Hl He. rewrite ros_emit_unfold.
  change (JS.to_string (VStr key)) with key. rewrite Hl.
  unfold bind at 1. by rewrite emit_guard_event.
Qed.

Lemma callService_spec service request names cb rs s :
  socket s = Some rs ->
  JS.Object_keys request = inr names ->
  let id := "call_service:" +:+ Service.name service +:+ ":" +:+
            pretty (js_succ (idCounter s)) in
  let call := VObj [("op", VStr "call_service");
                    ("id", VStr id);
                    ("service", VStr (Service.name service));
                    ("args", VArr (map (JS.get request) names))] in
  exists s',
    callService service request cb s = (Normal tt, s') /\
    calls s' = calls s ++ [call] /\
    listeners id (ros_events s')
    = listeners id (ros_events s) ++ [Entry (next_listener s) true (LResponse cb)] /\
    trace s' = trace s /\
    ids s' = ids s ++ [id] /\
    (if is_open rs then wire s' = wire s ++ [frame_of call]
     else wire s' = wire s /\
          listeners "connection" (ros_events s')
          = listeners "connection" (ros_events s) ++ deferred (S (next_listener s)) [call]).
Proof.
  intros Hs Hk id call. unfold callService, ros_once. exec. rewrite Hk.
  rewrite (callOnConnection_spec _ rs) by (cbn; exact Hs).
  eexists; split; [reflexivity|].
  destruct (call_service_id_ne (Service.name service) (js_succ (idCounter s)))
    as [_ Hne].
  destruct rs; cbn;
    rewrite ?(listeners_on_ne "connection") by (intros H; by apply Hne);
    rewrite ?listeners_on_eq, ?(listeners_on_ne _ "connection") by exact Hne;
    rewrite ?Nat.add_0_r; done.
Qed.



(** ** Subscriptions (claims C6 and C10) *)

Lemma for_each_app {A} (body : A -> M unit) l1 l2 s s1 :
  for_each body l1 s = (Normal tt, s1) ->
  for_each body (l1 ++ l2) s = for_each body l2 s1.
Proof.
  revert s. induction l1 as [|a l1 IH]; intros s; cbn.
  - by intros [= ->].
  - unfold bind. destruct (body a s) as [[[]|e] s']; [|done]. apply IH.
Qed.

Lemma subscribe_spec t x cb rs s :
  topics s !! t = Some x ->
  socket s = Some rs ->
  Topic.name x <> "connection" ->
  exists s',
    TopicOps.subscribe t cb s = (Normal tt, s') /\
    topics s'
    = <[t := Topic.set_events
               (on "message" (Entry (next_listener s) false (TCall cb)) (Topic.events x)) x]>
        (topics s) /\
    listeners (Topic.name x) (ros_events s')
    = listeners (Topic.name x) (ros_events s)
      ++ [Entry (S (next_listener s)) false (LRoute t)] /\
    socket s' = socket s /\
    trace s' = trace s /\
    calls s' = calls s ++ [subscribe_call x (js_succ (idCounter s))].
Proof.
  intros Ht Hs Hne. unfold TopicOps.subscribe, topic_on, ros_on. exec.
  rewrite list_lookup_alter_eq, Ht. cbn.
  rewrite list_lookup_alter_eq, Ht. cbn.
  rewrite (callOnConnection_spec _ rs) by (cbn; exact Hs).
  eexists; split; [reflexivity|].
  rewrite (alter_lookup _ _ _ _ Ht).
  destruct rs; cbn;
    rewrite ?(listeners_on_ne "connection") by (intros H; by apply Hne);
    rewrite ?listeners_on_eq; done.
Qed.

Lemma to_string_key name : JS.to_string (VArr [VStr name]) = name.
Proof. reflexivity. Qed.

(** [unsubscribe] forgets the listeners of the topic name on [ros] and
    hands over one unsubscribe call.  The topic object, with the handlers
    [subscribe] registered on it, is not touched. *)
Lemma unsubscribe_spec t x rs s :
  topics s !! t = Some x ->
  socket s = Some rs ->
  Topic.name x <> "connection" ->
  exists s',
    TopicOps.unsubscribe t s = (Normal tt, s') /\
    listeners (Topic.name x) (ros_events s') = [] /\
    topics s' = topics s /\
    socket s' = socket s /\
    trace s' = trace s /\
    calls s' = calls s ++ [unsubscribe_call x (js_succ (idCounter s))].
Proof.
  intros Ht Hs Hne. unfold TopicOps.unsubscribe. exec. rewrite Ht. cbn.
  rewrite (callOnConnection_spec _ rs) by (cbn; exact Hs).
  eexists; split; [reflexivity|]. rewrite to_string_key.
  destruct rs; cbn;
    rewrite ?(listeners_on_ne "connection") by (intros H; by apply Hne);
    rewrite ?listeners_removeAll_eq; done.
Qed.

(** The handlers of application functions on a topic: each is called
    once per emitted message, in registration order. *)
Lemma call_topic_handlers t event message l ks : forall s,
  Forall2 (fun e k => is_on (TCall (CbUser k)) e) l ks ->
  call_listeners (topic_off t event) (fun f => run_topic_listener f message) l s
  = (Normal tt, log (map (fun k => ObsCall k message) ks) s).
Proof.
  intros s H. revert s. induction H as [|e k l ks [Honce Hfn] _ IH]; intros s.
  - cbn. by rewrite log_nil.
  - unfold call_listeners in *. cbn [for_each]. unfold bind at 1. unfold bind at 1.
    rewrite Honce, Hfn. cbn. unfold run_callback. cbn. rewrite record_log, IH.
    by rewrite log_log.
Qed.

Lemma topic_emit_message t x message l ks s :
  topics s !! t = Some x ->
  listeners "message" (Topic.events x) = l ->
  Forall2 (fun e k => is_on (TCall (CbUser k)) e) l ks ->
  topic_emit t "message" message s = (Normal tt, log (delivery t message ks) s).
Proof.
  intros Ht Hl Hall. unfold topic_emit.
  unfold bind at 1. rewrite record_log.
  unfold bind at 1. unfold get_topic. rewrite topics_log, Ht, Hl.
  unfold bind at 1. rewrite emit_guard_event by done.
  rewrite (call_topic_handlers _ _ _ _ ks) by done.
  by rewrite log_log.
Qed.

(** The listeners [subscribe] leaves on [ros]: each emits the message on
    the topic again. *)
Lemma call_routes key t x message msg l ks routes : forall s,
  topics s !! t = Some x ->
  listeners "message" (Topic.events x) = l ->
  Forall2 (fun e k => is_on (TCall (CbUser k)) e) l ks ->
  Forall (is_on (LRoute t)) routes ->
  message = Message_new msg ->
  call_listeners (ros_off key) (fun f => run_ros_listener f msg) routes s
  = (Normal tt,
     log (concat (replicate (length routes) (delivery t message ks))) s).
Proof.
  intros s Ht Hl Hks Hroutes ->. revert s Ht.
  induction Hroutes as [|e routes [Honce Hfn] _ IH]; intros s Ht.
  - cbn. by rewrite log_nil.
  - unfold call_listeners in *. cbn [for_each]. unfold bind at 1. unfold bind at 1.
    rewrite Honce, Hfn. cbn.
    rewrite (topic_emit_message t x _ l ks) by done.
    rewrite IH by done. by rewrite log_log.
Qed.

(** After the subscriptions of [ks], in order, on a topic that had none. *)
Lemma subscribe_all t rs ks : forall x l routes s,
  topics s !! t = Some x ->
  socket s = Some rs ->
  Topic.name x <> "connection" ->
  listeners "message" (Topic.events x) = l ->
  listeners (Topic.name x) (ros_events s) = routes ->
  exists s' x' l' routes',
    for_each (fun k => TopicOps.subscribe t (CbUser k)) ks s = (Normal tt, s') /\
    topics s' !! t = Some x' /\
    Topic.name x' = Topic.name x /\
    listeners "message" (Topic.events x') = l ++ l' /\
    Forall2 (fun e k => is_on (TCall (CbUser k)) e) l' ks /\
    listeners (Topic.name x) (ros_events s') = routes ++ routes' /\
    Forall (is_on (LRoute t)) routes' /\
    length routes' = length ks /\
    trace s' = trace s.
Proof.
  induction ks as [|k ks IH]; intros x l routes s Ht Hs Hne Hl Hr.
  - exists s, x, [], []. cbn. rewrite !app_nil_r. repeat split; try done; constructor.
  - destruct (subscribe_spec t x (CbUser k) rs s Ht Hs Hne)
      as (s1 & Hrun & Htopics & Hroutes & Hsock & Htrace & _).
    set (x1 := Topic.set_events _ x) in Htopics.
    assert (Ht1 : topics s1 !! t = Some x1).
    { rewrite Htopics. apply list_lookup_insert_eq. by eapply lookup_lt_Some. }
    destruct (IH x1 (l ++ [Entry (next_listener s) false (TCall (CbUser k))])
                 (routes ++ [Entry (S (next_listener s)) false (LRoute t)]) s1)
      as (s' & x' & l' & routes' & Hrun' & Ht' & Hname & Hl' & Hall & Hr' & Hall' & Hlen & Htr');
      try done.
    { by rewrite Hsock. }
    { subst x1. cbn. by rewrite listeners_on_eq, Hl. }
    { change (Topic.name x1) with (Topic.name x). by rewrite Hroutes, Hr. }
    change (Topic.name x1) with (Topic.name x) in *.
    exists s', x', (Entry (next_listener s) false (TCall (CbUser k)) :: l'),
      (Entry (S (next_listener s)) false (LRoute t) :: routes').
    cbn [for_each]. unfold bind at 1. rewrite Hrun.
    rewrite <- app_assoc in Hl', Hr'.
    repeat split; try done.
    + by constructor.
    + by constructor.
    + cbn. by rewrite Hlen.
    + by rewrite Htr'.
Qed.

Lemma count_calls_app k a b : count_calls k (a ++ b) = count_calls k a + count_calls k b.
Proof. unfold count_calls. by rewrite List.filter_app, length_app. Qed.

Lemma total_calls_app a b : total_calls (a ++ b) = total_calls a + total_calls b.
Proof. unfold total_calls. by rewrite List.filter_app, length_app. Qed.

Lemma count_calls_delivery k t message ks :
  count_calls k (delivery t message ks) = count_occ Nat.eq_dec ks k.
Proof.
  unfold delivery, count_calls. cbn. induction ks as [|k' ks IH]; [done|]. cbn.
  destruct (Nat.eq_dec k' k) as [->|Hne].
  - rewrite Nat.eqb_refl. cbn. by rewrite IH.
  - apply Nat.eqb_neq in Hne. by rewrite Hne.
Qed.

Lemma total_calls_delivery t message ks :
  total_calls (delivery t message ks) = length ks.
Proof.
  unfold delivery, total_calls. cbn. induction ks as [|k' ks IH]; [done|]. cbn.
  by rewrite IH.
Qed.

Lemma count_calls_deliveries k t message ks n :
  count_calls k (concat (replicate n (delivery t message ks)))
  = n * count_occ Nat.eq_dec ks k.
Proof.
  induction n as [|n IH]; [done|]. cbn [replicate concat].
  by rewrite count_calls_app, count_calls_delivery, IH.
Qed.

Lemma total_calls_deliveries t message ks n :
  total_calls (concat (replicate n (delivery t message ks))) = n * length ks.
Proof.
  induction n as [|n IH]; [done|]. cbn [replicate concat].
  by rewrite total_calls_app, total_calls_delivery, IH.
Qed.

(** C10.  On a connection with a socket, take a topic nobody is
    subscribed to and subscribe the application functions [ks] to it, one
    call of [subscribe] each, [n] in all.  One inbound publish for the
    topic name is then delivered [n] times over: the trace grows by the
    emission on [ros] followed by [n] deliveries, each of which calls
    every function of [ks] in order.  So function [k] is called [n] times
    for each of its subscriptions, and there are [n * n] calls in all. *)
Theorem C10_deliveries_multiply
    (t : nat) (x : Topic.t) (ks : list nat) (msg : value) (rs : ReadyState)
    (s : State) :
  topics s !! t = Some x ->
  socket s = Some rs ->
  Topic.name x <> "connection" ->
  listeners "message" (Topic.events x) = [] ->
  listeners (Topic.name x) (ros_events s) = [] ->
  ks <> [] ->
  let n := length ks in
  let new :=
    ObsEmit SrcRos (Topic.name x) msg
    :: concat (replicate n (delivery t (Message_new msg) ks)) in
  exists s1 s2,
    for_each (fun k => TopicOps.subscribe t (CbUser k)) ks s = (Normal tt, s1) /\
    handleMessage (publish_envelope (Topic.name x) msg) s1 = (Normal tt, s2) /\
    trace s2 = trace s1 ++ new /\
    (forall k, count_calls k new = n * count_occ Nat.eq_dec ks k) /\
    total_calls new = n * n.
Proof.
  intros Ht Hs Hne Hl Hr Hks n new.
  destruct (subscribe_all t rs ks x [] [] s Ht Hs Hne Hl Hr)
    as (s1 & x1 & l1 & routes & Hrun & Ht1 & Hname & Hl1 & Hall & Hr1 & Hroutes & Hlen & _).
  cbn in Hl1, Hr1.
  exists s1, (log new s1). split; [exact Hrun|]. split; [|split; [done|]].
  - rewrite (handleMessage_publish _ (VStr (Topic.name x)) msg) by done.
    rewrite ros_emit_unfold. change (JS.to_string (VStr ?a)) with a.
    rewrite Hr1. unfold bind at 1.
    destruct routes as [|e routes]; [by destruct ks|].
    rewrite emit_guard_cons.
    rewrite (call_routes _ t x1 (Message_new msg) msg l1 ks) by done.
    rewrite log_log. subst new n. by rewrite Hlen.
  - subst new. split.
    + intros k. change (count_calls k (?a :: ?b)) with (count_calls k b).
      apply count_calls_deliveries.
    + change (total_calls (?a :: ?b)) with (total_calls b).
      apply total_calls_deliveries.
Qed.

Lemma C10_deliveries_multiply_witness :
  let s := snd (Topic_new (Topic.Options VUndef "/chatter" (VStr "std_msgs/String")
                             None None) ROS_new_url) in
  let msg := VObj [("data", VStr "hello")] in
  exists s1 s2 new,
    for_each (fun k => TopicOps.subscribe 0 (CbUser k)) [1; 2; 3] s = (Normal tt, s1) /\
    handleMessage (publish_envelope "/chatter" msg) s1 = (Normal tt, s2) /\
    trace s2 = trace s1 ++ new /\
    count_calls 1 new = 3 /\ count_calls 2 new = 3 /\ count_calls 3 new = 3 /\
    total_calls new = 9.
Proof.
  intros s msg.
  set (x := Topic.Make VUndef "/chatter" (VStr "std_msgs/String") false "none" 0 ∅).
  assert (Hne : Topic.name x <> "connection") by (intros H; discriminate H).
  assert (Hks : [1; 2; 3] <> @nil nat) by (intros H; discriminate H).
  destruct (C10_deliveries_multiply 0 x [1; 2; 3] msg CONNECTING s
              eq_refl eq_refl Hne eq_refl eq_refl Hks)
    as (s1 & s2 & Hrun & Hmsg & Htrace & Hcount & Htotal).
  exists s1, s2. eexists. split; [exact Hrun|]. split; [exact Hmsg|].
  split; [exact Htrace|].
  rewrite !Hcount, Htotal. repeat split.
Defined.

(** After [unsubscribe], and until somebody subscribes again, an inbound
    publish for the topic name calls nothing, and exactly one unsubscribe
    call has been handed over. *)
Lemma unsubscribe_silences t x msg rs s :
  topics s !! t = Some x ->
  socket s = Some rs ->
  Topic.name x <> "connection" ->
  Topic.name x <> "error" ->
  exists s1 s2,
    TopicOps.unsubscribe t s = (Normal tt, s1) /\
    calls s1 = calls s ++ [unsubscribe_call x (js_succ (idCounter s))] /\
    handleMessage (publish_envelope (Topic.name x) msg) s1 = (Normal tt, s2) /\
    trace s2 = trace s ++ [ObsEmit SrcRos (Topic.name x) msg].
Proof.
  intros Ht Hs Hne Hne'.
  destruct (unsubscribe_spec t x rs s Ht Hs Hne) as (s1 & Hrun & Hl & _ & _ & Htr & Hc).
  exists s1, (log [ObsEmit SrcRos (Topic.name x) msg] s1).
  repeat split; try done.
  - rewrite (handleMessage_publish _ (VStr (Topic.name x)) msg) by done.
    by apply ros_emit_nobody.
  - by rewrite trace_log, Htr.
Qed.

(** C6 at the input where the code fails: [subscribe(f1)], [unsubscribe()],
    [subscribe(f2)] on one topic, then one inbound publish.  The handler
    of [f1] is still registered on the topic after [unsubscribe] (only the
    listeners on [ros] were removed), so the publish calls [f1] as well as
    [f2]. *)
Theorem C6_unsubscribe_keeps_local_handlers :
  let s0 := snd (Topic_new (Topic.Options VUndef "/chatter" (VStr "std_msgs/String")
                              None None) ROS_new_url) in
  let s1 := snd (TopicOps.subscribe 0 (CbUser 1) s0) in
  let s2 := snd (TopicOps.unsubscribe 0 s1) in
  let s3 := snd (TopicOps.subscribe 0 (CbUser 2) s2) in
  let msg := VObj [("data", VStr "hello")] in
  let r := handleMessage (publish_envelope "/chatter" msg) s3 in
  (Topic.events <$> topics s2 !! 0) = (Topic.events <$> topics s1 !! 0) /\
  listeners "/chatter" (ros_events s2) = [] /\
  fst r = Normal tt /\
  trace (snd r)
  = [ObsEmit SrcRos "/chatter" msg;
     ObsEmit (SrcTopic 0) "message" msg;
     ObsCall 1 msg;
     ObsCall 2 msg].
Proof. repeat split. Qed.

(** ** The JSON parser

    Every parser returns a rest shorter than its input, so the fuel that
    [JSON.parse] hands to [parse_value] is never used up: a rejected
    text is rejected for its syntax. *)

Module JSONFacts.
Import JSON.

Lemma skip_ws_length s : String.length (skip_ws s) <= String.length s.
Proof. induction s as [|c r IH]; cbn; [lia|]. destruct (is_ws c); cbn; lia. Qed.

Lemma skip_ws_cons s c r :
  skip_ws s = String c r -> String.length r < String.length s.
Proof. intros H. pose proof (skip_ws_length s) as Hl. rewrite H in Hl. cbn in Hl. lia. Qed.

Lemma take_digits_length s d r :
  take_digits s = (d, r) -> String.length d + String.length r = String.length s.
Proof.
  revert d r. induction s as [|c s IH]; intros d r H; cbn in H.
  - injection H as <- <-. reflexivity.
  - destruct (JS.is_digit c).
    + destruct (take_digits s) as [d' r'] eqn:E. injection H as <- <-.
      cbn. specialize (IH _ _ eq_refl). lia.
    + injection H as <- <-. reflexivity.
Qed.

Lemma parse_number_length s v rest :
  parse_number s = Some (v, rest) -> String.length rest < String.length s.
Proof.
  unfold parse_number. intros H.
  set (p := match s with String "-" r => (true, r) | _ => (false, s) end) in H.
  assert (Hp : String.length p.2 <= String.length s).
  { subst p. destruct s as [|c r]; [cbn; lia|].
    destruct (bool_decide (c = "-"%char)) eqn:E.
    - apply bool_decide_eq_true in E. subst c. cbn. lia.
    - destruct c as [[] [] [] [] [] [] [] []]; cbn; try lia. }
  destruct p as [neg s1]. cbn in Hp.
  destruct (take_digits s1) as [int s2] eqn:Ei. apply take_digits_length in Ei.
  destruct int as [|c more]; [discriminate|]. cbn in Ei.
  destruct (_ && _); [discriminate|].
  match type of H with match ?ff with _ => _ end = _ => destruct ff as [[f s3]|] eqn:Ef end;
    [|discriminate].
  assert (Hs3 : String.length s3 <= String.length s2).
  { destruct s2 as [|c2 r2]; [injection Ef as <- <-; lia|].
    destruct (bool_decide (c2 = "."%char)) eqn:E.
    - apply bool_decide_eq_true in E. subst c2.
      destruct (take_digits r2) as [f' r'] eqn:Ef'. apply take_digits_length in Ef'.
      destruct (bool_decide (f' = "")); [discriminate|]. injection Ef as <- <-. cbn. lia.
    - assert (Some (f, s3) = Some ("", String c2 r2)) as Heq.
      { rewrite <- Ef. destruct c2 as [[] [] [] [] [] [] [] []]; try reflexivity.
        by rewrite bool_decide_eq_true_2 in E. }
      injection Heq as -> ->. lia. }
  match type of H with match ?ff with _ => _ end = _ => destruct ff as [[e s4]|] eqn:Ee end;
    [|discriminate].
  assert (Hs4 : String.length s4 <= String.length s3).
  { destruct s3 as [|c3 r3]; [injection Ee as <- <-; lia|].
    destruct (_ || _).
    - match type of Ee with (let '(_, _) := ?q in _) = _ => set (q' := q) in * end.
      assert (Hq : String.length q'.2 <= String.length r3).
      { subst q'. destruct r3 as [|c4 r4]; [cbn; lia|].
        destruct (bool_decide (c4 = "+"%char)) eqn:E1.
        - apply bool_decide_eq_true in E1. subst c4. cbn. lia.
        - destruct (bool_decide (c4 = "-"%char)) eqn:E2.
          + apply bool_decide_eq_true in E2. subst c4. cbn. lia.
          + destruct c4 as [[] [] [] [] [] [] [] []]; cbn; try lia. }
      destruct q' as [sign r1]. cbn in Hq.
      destruct (take_digits r1) as [e' r2] eqn:Ee'. apply take_digits_length in Ee'.
      destruct (bool_decide (e' = "")); [discriminate|]. injection Ee as <- <-. cbn. lia.
    - injection Ee as <- <-. lia. }
  destruct (_ && _); injection H as <- <-; lia.
Qed.

Lemma parse_string_length s t rest :
  parse_string s = Some (t, rest) -> String.length rest < String.length s.
Proof.
  remember (String.length s) as n eqn:Hn. revert s t rest Hn.
  induction n as [n IH] using lt_wf_ind. intros s t rest -> H.
  assert (Hrec : forall r x t' rest',
            String.length r < String.length s ->
            match parse_string r with
            | Some (t, rest) => Some (String x t, rest)
            | None => None
            end = Some (t', rest') ->
            String.length rest' < String.length s).
  { intros r x t' rest' Hr Hp. destruct (parse_string r) as [[t0 r0]|] eqn:E; [|discriminate].
    injection Hp as <- <-. pose proof (IH _ Hr r t0 r0 eq_refl E). lia. }
  destruct s as [|c r]; [discriminate|]. cbn in H. cbn [String.length] in *.
  destruct (bool_decide (c = dq)); [injection H as <- <-; lia|].
  destruct (bool_decide (c = backslash)).
  - destruct r as [|e r1]; [discriminate|]. cbn [String.length] in *.
    repeat match type of H with
           | (if ?b then _ else _) = _ =>
               destruct b; [try (eapply Hrec; [|exact H]; lia)|]
           end; [|discriminate].
    destruct r1 as [|h1 [|h2 [|h3 [|h4 r2]]]]; try discriminate.
    destruct (hex_value h1), (hex_value h2), (hex_value h3), (hex_value h4);
      try discriminate.
    eapply Hrec; [|exact H]. cbn. lia.
  - destruct (_ <=? _)%nat; [discriminate|]. eapply Hrec; [|exact H]. lia.
Qed.

Lemma expect_length lit s rest :
  expect lit s = Some rest -> String.length rest <= String.length s.
Proof.
  revert s. induction lit as [|a l IH]; intros s H; cbn in H.
  - destruct s; injection H as <-; lia.
  - destruct s as [|b r]; [discriminate|]. destruct (bool_decide (a = b)); [|discriminate].
    apply IH in H. cbn. lia.
Qed.

(** The cases of a character, bit by bit. *)
Ltac split_char c := destruct c as [[] [] [] [] [] [] [] []].

Lemma parse_value_length n :
  (forall s v r, parse_value n s = Some (v, r) -> String.length r < String.length s) /\
  (forall acc s v r,
     parse_elements n acc s = Some (v, r) -> String.length r < String.length s) /\
  (forall acc s v r,
     parse_members n acc s = Some (v, r) -> String.length r < String.length s).
Proof.
  induction n as [|n (IHv & IHe & IHm)]; [by repeat split|].
  split; [|split].
  - intros s v r H. cbn [parse_value] in H.
    destruct (skip_ws s) as [|c r0] eqn:Es; [discriminate|]. apply skip_ws_cons in Es.
    destruct (bool_decide (c = "{"%char)).
    { destruct (skip_ws r0) as [|c1 r1] eqn:E1; [apply IHm in H; lia|].
      apply skip_ws_cons in E1.
      split_char c1; first [apply IHm in H; lia | injection H as <- <-; lia]. }
    destruct (bool_decide (c = "["%char)).
    { destruct (skip_ws r0) as [|c1 r1] eqn:E1; [apply IHe in H; lia|].
      apply skip_ws_cons in E1.
      split_char c1; first [apply IHe in H; lia | injection H as <- <-; lia]. }
    destruct (bool_decide (c = dq)).
    { destruct (parse_string r0) as [[t rest]|] eqn:E; [|discriminate].
      apply parse_string_length in E. injection H as <- <-. lia. }
    repeat match type of H with
           | (if ?b then match expect ?l r0 with _ => _ end else _) = _ =>
               destruct b;
               [destruct (expect l r0) as [rest|] eqn:E; [|discriminate];
                apply expect_length in E; injection H as <- <-; lia|]
           end.
    apply parse_number_length in H. cbn in H. lia.
  - intros acc s v r H. cbn [parse_elements] in H.
    destruct (parse_value n s) as [[v0 r0]|] eqn:E; [|discriminate]. apply IHv in E.
    destruct (skip_ws r0) as [|c1 r1] eqn:E1; [discriminate|]. apply skip_ws_cons in E1.
    split_char c1;
      first [discriminate | apply IHe in H; lia | injection H as <- <-; lia].
  - intros acc s v r H. cbn [parse_members] in H.
    destruct (skip_ws s) as [|c r0] eqn:Es; [discriminate|]. apply skip_ws_cons in Es.
    destruct (bool_decide (c = dq)); [|discriminate].
    destruct (parse_string r0) as [[k r1]|] eqn:Ek; [|discriminate].
    apply parse_string_length in Ek.
    destruct (skip_ws r1) as [|c2 r2] eqn:E2; [discriminate|]. apply skip_ws_cons in E2.
    assert (Hv : match parse_value n r2 with
                 | Some (v, r3) =>
                     match skip_ws r3 with
                     | String "," r4 => parse_members n (JS.set acc k v) r4
                     | String "}" r4 => Some (VObj (JS.set acc k v), r4)
                     | _ => None
                     end
                 | None => None
                 end = Some (v, r)).
    { split_char c2; first [discriminate | exact H]. }
    clear H. destruct (parse_value n r2) as [[v0 r3]|] eqn:E; [|discriminate].
    apply IHv in E.
    destruct (skip_ws r3) as [|c4 r4] eqn:E4; [discriminate|]. apply skip_ws_cons in E4.
    split_char c4;
      first [discriminate | apply IHm in Hv; lia | injection Hv as <- <-; lia].
Qed.

(** Fuel above twice the length of the text is never used up: more of
    it changes no result. *)
Lemma parse_value_fuel n :
  (forall m s, n <= m -> 2 * String.length s < n -> parse_value m s = parse_value n s) /\
  (forall m acc s, n <= m -> 2 * String.length s + 1 < n ->
     parse_elements m acc s = parse_elements n acc s) /\
  (forall m acc s, n <= m -> 2 * String.length s + 1 < n ->
     parse_members m acc s = parse_members n acc s).
Proof.
  induction n as [|n (IHv & IHe & IHm)]; [repeat split; intros; lia|].
  split; [|split].
  - intros [|m] s Hm Hs; [lia|]. cbn [parse_value].
    destruct (skip_ws s) as [|c r0] eqn:Es; [reflexivity|]. apply skip_ws_cons in Es.
    destruct (bool_decide (c = "{"%char)).
    { destruct (skip_ws r0) as [|c1 r1] eqn:E1; [apply IHm; lia|].
      split_char c1; first [reflexivity | apply IHm; lia]. }
    destruct (bool_decide (c = "["%char)).
    { destruct (skip_ws r0) as [|c1 r1] eqn:E1; [apply IHe; lia|].
      split_char c1; first [reflexivity | apply IHe; lia]. }
    reflexivity.
  - intros [|m] acc s Hm Hs; [lia|]. cbn [parse_elements].
    rewrite (IHv m s) by lia.
    destruct (parse_value n s) as [[v0 r0]|] eqn:E; [|reflexivity].
    apply parse_value_length in E.
    destruct (skip_ws r0) as [|c1 r1] eqn:E1; [reflexivity|]. apply skip_ws_cons in E1.
    split_char c1; first [reflexivity | apply IHe; lia].
  - intros [|m] acc s Hm Hs; [lia|]. cbn [parse_members].
    destruct (skip_ws s) as [|c r0] eqn:Es; [reflexivity|]. apply skip_ws_cons in Es.
    destruct (bool_decide (c = dq)); [|reflexivity].
    destruct (parse_string r0) as [[k r1]|] eqn:Ek; [|reflexivity].
    apply parse_string_length in Ek.
    destruct (skip_ws r1) as [|c2 r2] eqn:E2; [reflexivity|]. apply skip_ws_cons in E2.
    assert (Hv : match parse_value m r2 with
                 | Some (v, r3) =>
                     match skip_ws r3 with
                     | String "," r4 => parse_members m (JS.set acc k v) r4
                     | String "}" r4 => Some (VObj (JS.set acc k v), r4)
                     | _ => None
                     end
                 | None => None
                 end =
                 match parse_value n r2 with
                 | Some (v, r3) =>
                     match skip_ws r3 with
                     | String "," r4 => parse_members n (JS.set acc k v) r4
                     | String "}" r4 => Some (VObj (JS.set acc k v), r4)
                     | _ => None
                     end
                 | None => None
                 end).
    { rewrite (IHv m r2) by lia.
      destruct (parse_value n r2) as [[v0 r3]|] eqn:E; [|reflexivity].
      apply parse_value_length in E.
      destruct (skip_ws r3) as [|c4 r4] eqn:E4; [reflexivity|]. apply skip_ws_cons in E4.
      split_char c4; first [reflexivity | apply IHm; lia]. }
    split_char c2; first [reflexivity | exact Hv].
Qed.

(** [JSON.parse] gives its text enough fuel: with any larger amount the
    parser returns the same result. *)
Lemma parse_fuel_enough text m :
  2 * String.length text + 2 <= m ->
  parse_value m text = parse_value (2 * String.length text + 2) text.
Proof. intros Hm. apply parse_value_fuel; lia. Qed.

End JSONFacts.

(** ** Malformed frames (claim C3) *)

(** C3, as amended.  A frame whose text [JSON.parse] rejects makes
    [onMessage] throw the parser's SyntaxError to the host that called it:
    the library catches nothing, calls no listener and emits no event, and
    the state of the connection is exactly what it was, the socket
    included, so a later frame is processed as if the malformed one had
    never arrived.  The same holds when the text decoded from a png
    frame's pixels is rejected inside [image.onload]: the only change is
    that the pending image is spent. *)
Theorem C3_malformed_frame_dropped
    (frame : string) (i : nat) (src : string) (imageData : list N) (s : State) :
  (JSON.parse frame = None ->
   onMessage frame s = (Throw SyntaxError, s)) /\
  (images s !! i = Some src ->
   JSON.parse (pixels_text imageData) = None ->
   image_onload i imageData s
   = (Throw SyntaxError, set_images (delete i (images s)) s)).
Proof.
  split.
  - intros Hp. unfold onMessage. by rewrite Hp.
  - intros Hi Hp. unfold image_onload. exec. by rewrite Hi, Hp.
Qed.

Lemma C3_malformed_frame_dropped_witness :
  let s0 := snd (socket_onopen VNull ROS_new_url) in
  let png := frame_of (VObj [("op", VStr "png"); ("data", VStr "iVBORw0KGgo=")]) in
  let s := snd (onMessage png s0) in
  let pixels := [123; 34; 111; 255; 112; 34; 58; 255]%N in
  JSON.parse "{" = None /\
  onMessage "{" s = (Throw SyntaxError, s) /\
  images s !! 0 = Some "data:image/png;base64,iVBORw0KGgo=" /\
  JSON.parse (pixels_text pixels) = None /\
  image_onload 0 pixels s = (Throw SyntaxError, s0) /\
  socket s0 = Some OPEN.
Proof.
  intros s0 png s pixels.
  destruct (C3_malformed_frame_dropped "{" 0 "data:image/png;base64,iVBORw0KGgo="
              pixels s) as [H1 H2].
  split; [reflexivity|]. split; [apply H1; reflexivity|].
  split; [reflexivity|]. split; [reflexivity|].
  split; [|reflexivity]. rewrite H2; reflexivity.
Defined.

(** C3 as stated fails: on an open connection, the handler does not
    complete on the malformed frame made of an opening brace, it throws;
    and it reports the error by no event, the only event of the trace
    being the one of the earlier opening of the socket. *)
Lemma C3_counterexample :
  JSON.parse "{" = None /\
  fst (onMessage "{" (snd (socket_onopen VNull ROS_new_url))) = Throw SyntaxError /\
  trace (snd (onMessage "{" (snd (socket_onopen VNull ROS_new_url)))) =
    [ObsEmit SrcRos "connection" VNull].
Proof. repeat split; vm_compute; reflexivity. Qed.

(** ** Params (claim C8) *)

Lemma assoc_elem_of {A} k (l : list (string * A)) x :
  JS.assoc k l = Some x -> k ∈ l.*1.
Proof.
  induction l as [|[k' y] l IH]; cbn; [done|].
  destruct (decide (k' = k)) as [->|Hne].
  - intros _. by left.
  - intros H. right. by apply IH.
Qed.

Lemma assoc_not_elem_of {A} k (l : list (string * A)) :
  k ∉ l.*1 -> JS.assoc k l = None.
Proof.
  induction l as [|[k' y] l IH]; cbn; [done|].
  intros Hk. rewrite decide_False.
  - apply IH. intros ?. apply Hk. by right.
  - intros ->. apply Hk. by left.
Qed.

(** Reading a field of a constructed object: it is the field of [values]. *)
Lemma get_copy_fields_any values name :
  name <> "length" ->
  JS.get (JS.copy_fields values) name = JS.get values name.
Proof.
  intros Hname.
  destruct (copy_fields_spec values) as (fs & -> & Hfs).
  unfold JS.get at 1. cbn [JS.own_props]. rewrite Hfs.
  destruct (decide (name ∈ (JS.own_props values).*1)) as [Hin|Hnin]; [done|].
  unfold JS.get. rewrite (assoc_not_elem_of _ _ Hnin).
  destruct values; try done; by rewrite decide_False.
Qed.

Lemma get_copy_fields values name x :
  JS.get values name = x ->
  name <> "length" ->
  JS.get (JS.copy_fields values) name = x.
Proof. intros <- Hname. by apply get_copy_fields_any. Qed.




(** ** The action client (claim C7) *)

Lemma set_goals_log gl l s : set_goals gl (log l s) = log l (set_goals gl s).
Proof. by destruct s. Qed.

Lemma set_clients_log cl l s : set_clients cl (log l s) = log l (set_clients cl s).
Proof. by destruct s. Qed.

Lemma bind_ret_unit (m : M unit) s : bind m (fun _ => ret tt) s = m s.
Proof. unfold bind, ret. by destruct (m s) as [[[]|e] s']. Qed.

(** Application listeners registered with [on]: each is called. *)
Lemma call_goal_apps g event arg apps ks : forall s,
  Forall2 (fun e k => is_on (GApp k) e) apps ks ->
  call_listeners (goal_off g event) (fun f => run_goal_listener g f arg) apps s
  = (Normal tt, log (map (fun k => ObsCall k arg) ks) s).
Proof.
  intros s H. revert s. induction H as [|e k apps ks [Honce Hfn] _ IH]; intros s.
  - cbn. by rewrite log_nil.
  - unfold call_listeners in *. cbn [for_each]. unfold bind at 1. unfold bind at 1.
    rewrite Honce, Hfn. cbn. rewrite record_log, IH. by rewrite log_log.
Qed.

Lemma run_goal_listener_builtin g x f arg s :
  goals s !! g = Some x ->
  (forall k, f <> GApp k) ->
  run_goal_listener g f arg s
  = (Normal tt, set_goals (<[g := goal_apply f arg x]> (goals s)) s).
Proof.
  intros Hg Hf. destruct f as [| | |k]; cbn; unf; cbn.
  - by rewrite (alter_lookup _ _ _ _ Hg).
  - rewrite (alter_lookup _ _ _ _ Hg).
    rewrite (alter_lookup _ g (Goal.set_isFinished true x)).
    + by rewrite list_insert_insert_eq.
    + apply list_lookup_insert_eq. by eapply lookup_lt_Some.
  - by rewrite (alter_lookup _ _ _ _ Hg).
  - by destruct (Hf k).
Qed.

(** [goal.emit] of an event with the constructor's listener [f]. *)
Lemma goal_emit_spec g x event f ks arg s :
  goals s !! g = Some x ->
  goal_listens x event f ks ->
  (forall k, f <> GApp k) ->
  goal_emit g event arg s
  = (Normal tt,
     log (ObsEmit (SrcGoal g) event arg :: map (fun k => ObsCall k arg) ks)
       (set_goals (<[g := goal_apply f arg x]> (goals s)) s)).
Proof.
  intros Hg (i & apps & Hl & Happs) Hf. unfold goal_emit.
  unfold bind at 1. rewrite record_log.
  unfold bind at 1. unfold get_goal. rewrite goals_log, Hg, Hl.
  unfold bind at 1. rewrite emit_guard_cons.
  unfold call_listeners. cbn [for_each once fn].
  unfold bind at 1. unfold bind at 1. unfold ret at 1.
  rewrite (run_goal_listener_builtin g x) by (rewrite ?goals_log; done).
  rewrite goals_log, set_goals_log.
  pose proof (call_goal_apps g event arg apps ks) as Hcall.
  unfold call_listeners in Hcall. rewrite Hcall by done.
  by rewrite log_log.
Qed.


Lemma with_goal_found c x id g body s :
  clients s !! c = Some x ->
  ActionClient.goals x !! JS.to_string id = Some g ->
  with_goal c id body s = body g s.
Proof. intros Hc Hg. unfold with_goal. unf. by rewrite Hc, Hg. Qed.

Lemma with_goal_missing c x id body s :
  clients s !! c = Some x ->
  ActionClient.goals x !! JS.to_string id = None ->
  JS.to_string id ∉ Object_prototype_names ->
  with_goal c id body s = (Normal tt, s).
Proof.
  intros Hc Hg Hn. unfold with_goal. unf. rewrite Hc, Hg.
  by rewrite bool_decide_eq_false_2.
Qed.

(** An ID that is a name of [Object.prototype] and no key of the table:
    the inherited member is taken for a goal. *)
Lemma with_goal_inherited c x id body s :
  clients s !! c = Some x ->
  ActionClient.goals x !! JS.to_string id = None ->
  JS.to_string id ∈ Object_prototype_names ->
  with_goal c id body s = (Throw TypeError, s).
Proof.
  intros Hc Hg Hn. unfold with_goal. unf. rewrite Hc, Hg.
  by rewrite bool_decide_eq_true_2.
Qed.

(** The two reads [status.goal_id.id]. *)
Lemma read_goal_id {A} status id (k : value -> M A) s :
  goal_id_of status = Some id ->
  bind (prop status "goal_id") (fun goal_id => bind (prop goal_id "id") k) s = k id s.
Proof.
  unfold goal_id_of. intros H.
  destruct status; try done;
    unfold bind at 1; unfold prop at 1; unfold ret at 1;
    destruct (JS.get _ "goal_id"); try done; injection H as <-; reflexivity.
Qed.










(** The listeners of the feedback and result topics share their shape:
    the enclosing status is emitted on the goal, then the payload. *)
Lemma run_result_callback c x g y ks1 ks2 arg status result id s :
  clients s !! c = Some x ->
  ActionClient.goals x !! JS.to_string id = Some g ->
  goals s !! g = Some y ->
  goal_listens y "status" GStatus ks1 ->
  goal_listens y "result" GResult ks2 ->
  JS.get arg "status" = status ->
  goal_id_of status = Some id ->
  JS.get arg "result" = result ->
  arg <> VUndef -> arg <> VNull ->
  run_callback (CbResult c) arg s
  = (Normal tt,
     log ((ObsEmit (SrcGoal g) "status" status :: map (fun k => ObsCall k status) ks1)
          ++ ObsEmit (SrcGoal g) "result" result :: map (fun k => ObsCall k result) ks2)
       (set_goals
          (<[g := Goal.set_result result (Goal.set_isFinished true
                    (Goal.set_status status y))]> (goals s)) s)).
Proof.
  intros Hc Hg Hy Hl1 Hl2 Hstatus Hid Hresult Hu Hn. unfold run_callback.
  assert (Hp : forall k, prop arg k = ret (JS.get arg k)) by (by destruct arg).
  rewrite !Hp. unfold bind at 1, ret at 1. rewrite Hstatus.
  assert (Hs' : status <> VUndef /\ status <> VNull).
  { unfold goal_id_of in Hid. by destruct status. }
  rewrite (read_goal_id status id) by done.
  rewrite (with_goal_found c x id g) by done.
  unfold bind at 1.
  rewrite (goal_emit_spec g y "status" GStatus ks1) by done.
  unfold bind at 1, ret at 1. rewrite Hresult.
  rewrite (goal_emit_spec g (Goal.set_status status y) "result" GResult ks2).
  - rewrite goals_log. cbn [goals set_goals]. rewrite list_insert_insert_eq.
    rewrite set_goals_log, log_log. by destruct s.
  - rewrite goals_log. cbn. apply list_lookup_insert_eq. by eapply lookup_lt_Some.
  - exact Hl2.
  - done.
Qed.

Lemma topic_emit_single t x j cb message s :
  topics s !! t = Some x ->
  listeners "message" (Topic.events x) = [Entry j false (TCall cb)] ->
  topic_emit t "message" message s
  = run_callback cb message (log [ObsEmit (SrcTopic t) "message" message] s).
Proof.
  intros Ht Hl. unfold topic_emit.
  unfold bind at 1. rewrite record_log.
  unfold bind at 1. unfold get_topic. rewrite topics_log, Ht, Hl.
  unfold bind at 1. rewrite emit_guard_event by done.
  unfold call_listeners. cbn [for_each once fn].
  unfold bind at 1. unfold bind at 1. unfold ret at 1. cbn [run_topic_listener].
  by destruct (run_callback cb message _) as [[[]|e] s'].
Qed.

(** An inbound publish for a topic name with one subscribed topic object
    and one handler on it runs the handler's callback on the message. *)
Lemma publish_routed name t x i j cb msg s :
  listeners name (ros_events s) = [Entry i false (LRoute t)] ->
  topics s !! t = Some x ->
  listeners "message" (Topic.events x) = [Entry j false (TCall cb)] ->
  handleMessage (publish_envelope name msg) s
  = run_callback cb (Message_new msg)
      (log [ObsEmit SrcRos name msg; ObsEmit (SrcTopic t) "message" (Message_new msg)] s).
Proof.
  intros Hr Ht Hl.
  rewrite (handleMessage_publish _ (VStr name) msg) by reflexivity.
  rewrite ros_emit_unfold. change (JS.to_string (VStr name)) with name. rewrite Hr.
  unfold bind at 1. rewrite emit_guard_cons.
  unfold call_listeners. cbn [for_each once fn].
  unfold bind at 1. unfold bind at 1. unfold ret at 1. cbn [run_ros_listener].
  fold (bind (topic_emit t "message" (JS.copy_fields msg)) (fun _ => ret tt)
             (log [ObsEmit SrcRos name msg] s)).
  rewrite bind_ret_unit.
  rewrite (topic_emit_single t x j cb) by (rewrite ?topics_log; done).
  by rewrite log_log.
Qed.


Lemma send_spec g y c x t tx rs timeout s :
  goals s !! g = Some y ->
  Goal.client y = c ->
  clients s !! c = Some x ->
  ActionClient.goalTopic x = Some t ->
  topics s !! t = Some tx ->
  socket s = Some rs ->
  exists s',
    ClientOps.send g timeout s = (Normal tt, s') /\
    timers s'
    = timers s ++ match timeout_given timeout with
                  | Some d => [TimerGoal g d]
                  | None => []
                  end /\
    goals s' = goals s /\
    trace s' = trace s.
Proof.
  intros Hg Hc Hx Ht Htx Hs. unfold ClientOps.send, ClientOps.publish_on.
  destruct (publish_spec t tx (Goal.goalMessage y) rs s Htx Hs)
    as (s1 & Hrun & _ & _ & _ & _ & Hgoals & _ & Htimers & Htrace).
  unf. rewrite Hg, Hc, Hx, Ht, Hrun.
  destruct (timeout_given timeout); cbn.
  - eexists; split; [reflexivity|]. cbn. by rewrite Htimers.
  - eexists; split; [reflexivity|]. by rewrite Htimers, app_nil_r.
Qed.



(** ** Call IDs (claim C2) *)

Lemma pretty_N_go_no_colon (x : N) : forall s,
  has_colon s = false -> has_colon (pretty_N_go x s) = false.
Proof.
  induction (N.lt_wf_0 x) as [x _ IH]. intros s Hs.
  destruct (decide (x = 0)%N) as [->|Hx].
  - by rewrite pretty_N_go_0.
  - rewrite pretty_N_go_step by lia. apply IH.
    + apply N.div_lt; lia.
    + cbn. rewrite Hs, orb_false_r. apply bool_decide_eq_false.
      unfold pretty_N_char. by repeat case_match.
Qed.

Lemma pretty_no_colon (c : N) : has_colon (pretty c) = false.
Proof.
  unfold pretty, pretty_N. case_decide; [done|]. by apply pretty_N_go_no_colon.
Qed.

Lemma has_colon_app a b : has_colon (a +:+ b) = has_colon a || has_colon b.
Proof.
  induction a as [|c a IH]; [done|].
  change (String c a +:+ b) with (String c (a +:+ b)). cbn [has_colon].
  by rewrite IH, orb_assoc.
Qed.

Lemma last_segment_app a d :
  has_colon d = false -> last_segment (a +:+ ":" +:+ d) = d.
Proof.
  intros Hd. induction a as [|c a IH].
  - change ("" +:+ ":" +:+ d) with (String ":" d). cbn [last_segment].
    by rewrite Hd.
  - change (String c a +:+ ":" +:+ d) with (String c (a +:+ ":" +:+ d)).
    cbn [last_segment]. rewrite has_colon_app.
    change (has_colon (":" +:+ d)) with (true || has_colon d).
    rewrite orb_true_r, andb_false_r. exact IH.
Qed.

Lemma string_app_assoc a b c : (a +:+ b) +:+ c = a +:+ b +:+ c.
Proof.
  induction a as [|x a IH]; [done|].
  change ((String x a +:+ b) +:+ c) with (String x ((a +:+ b) +:+ c)).
  by rewrite IH.
Qed.

(** Two IDs that embed different counter values are different. *)
Lemma call_id_inj p1 n1 c1 p2 n2 c2 :
  call_id (p1, n1, c1) = call_id (p2, n2, c2) -> c1 = c2.
Proof.
  unfold call_id. rewrite <- !(string_app_assoc _ _ (":" +:+ _)). intros H.
  apply (f_equal last_segment) in H.
  rewrite !last_segment_app in H by apply pretty_no_colon.
  by apply (inj pretty) in H.
Qed.

Lemma ids_wf_NoDup l counter : ids_wf l counter -> NoDup l.
Proof.
  intros (parts & -> & Hsorted & _). clear counter.
  induction parts as [|[[p n] c] parts IH]; [constructor|].
  cbn [map] in *. apply StronglySorted_inv in Hsorted as [Hsorted Hlt].
  constructor; [|by apply IH].
  intros Hin. apply list_elem_of_fmap in Hin as ([[p' n'] c'] & Heq & Hin).
  apply call_id_inj in Heq. subst c'.
  rewrite Forall_forall in Hlt.
  assert (c < c)%N; [|lia]. apply Hlt.
  apply list_elem_of_In, in_map_iff. exists (p', n', c). split; [done|].
  by apply list_elem_of_In.
Qed.

Lemma ids_wf_nil : ids_wf [] 0.
Proof. exists []. repeat split; constructor. Qed.

(** *** Every computation of the library keeps the IDs well formed *)

Lemma keeps_ids_quiet {A} (m : M A) :
  (forall s, ids (snd (m s)) = ids s /\ idCounter (snd (m s)) = idCounter s) ->
  keeps_ids m.
Proof. intros H s. destruct (H s) as [-> ->]. split; [lia|done]. Qed.

Lemma keeps_ids_ret {A} (a : A) : keeps_ids (ret a).
Proof. by apply keeps_ids_quiet. Qed.

Lemma keeps_ids_throw {A} e : keeps_ids (throw (A:=A) e).
Proof. by apply keeps_ids_quiet. Qed.

Lemma keeps_ids_gets {A} (f : State -> A) : keeps_ids (gets f).
Proof. by apply keeps_ids_quiet. Qed.

Lemma keeps_ids_modify f :
  (forall s, ids (f s) = ids s /\ idCounter (f s) = idCounter s) ->
  keeps_ids (modify f).
Proof. intros H. by apply keeps_ids_quiet. Qed.

Lemma keeps_ids_bind {A B} (m : M A) (k : A -> M B) :
  keeps_ids m -> (forall a, keeps_ids (k a)) -> keeps_ids (bind m k).
Proof.
  intros Hm Hk s. unfold bind. destruct (Hm s) as [Hle Hwf].
  destruct (m s) as [[a|e] s1]; cbn in *; [|done].
  destruct (Hk a s1) as [Hle' Hwf']. split; [lia|].
  intros Hlt Hinv. apply Hwf'; [done|]. apply Hwf; [lia|done].
Qed.

Lemma keeps_ids_for_each {A} (body : A -> M unit) l :
  (forall a, keeps_ids (body a)) -> keeps_ids (for_each body l).
Proof.
  intros Hbody. induction l as [|a l IH]; cbn.
  - apply keeps_ids_ret.
  - apply keeps_ids_bind; [apply Hbody|done].
Qed.

Lemma keeps_ids_next_id prefix name : keeps_ids (next_id prefix name).
Proof.
  intros s. unfold next_id, js_succ. cbn.
  destruct (idCounter s <? max_safe)%N eqn:Hlt; [apply N.ltb_lt in Hlt|apply N.ltb_ge in Hlt].
  - split; [lia|]. intros _ (parts & Hids & Hsorted & Hall).
    exists (parts ++ [(prefix, name, (idCounter s + 1)%N)]).
    rewrite !map_app. cbn [map call_id snd]. split; [by rewrite Hids|]. split.
    + clear Hids. induction parts as [|[[p n] c] parts IH]; cbn.
      * repeat constructor.
      * cbn in Hsorted, Hall. apply StronglySorted_inv in Hsorted as [Hsorted Hc].
        apply Forall_cons in Hall as [Hle Hall].
        constructor; [by apply IH|].
        apply Forall_app. split; [done|]. constructor; [cbn; lia|constructor].
    + apply Forall_app. split.
      * eapply Forall_impl; [exact Hall|]. cbn. intros; lia.
      * constructor; [cbn; lia|constructor].
  - split; [lia|]. intros Hlt'. lia.
Qed.

Create HintDb ids discriminated.

(** A computation that reads the state, or writes fields other than the
    IDs and the counter. *)
Ltac ids_quiet :=
  apply keeps_ids_quiet; intros ?; cbn; repeat case_match; done.

Ltac ids_step :=
  lazy zeta;
  first
    [ apply keeps_ids_ret
    | apply keeps_ids_throw
    | apply keeps_ids_gets
    | apply keeps_ids_next_id
    | apply keeps_ids_modify; intros ?; split; reflexivity
    | solve [auto with ids]
    | apply keeps_ids_bind; [|intros ?]
    | apply keeps_ids_for_each; intros ?
    | match goal with
      | |- keeps_ids (match ?x with _ => _ end) => destruct x
      end ].
Ltac ids := repeat ids_step.

Lemma keeps_ids_record o : keeps_ids (record o).
Proof. unfold record. ids. Qed.
#[local] Hint Resolve keeps_ids_record : ids.

Lemma keeps_ids_prop v k : keeps_ids (prop v k).
Proof. unfold prop. ids. Qed.
#[local] Hint Resolve keeps_ids_prop : ids.

Lemma keeps_ids_fresh : keeps_ids fresh.
Proof. ids_quiet. Qed.
#[local] Hint Resolve keeps_ids_fresh : ids.

Lemma keeps_ids_call_listeners {L} off (run : L -> M unit) snapshot :
  (forall id, keeps_ids (off id)) -> (forall f, keeps_ids (run f)) ->
  keeps_ids (call_listeners off run snapshot).
Proof. intros Hoff Hrun. unfold call_listeners. ids. Qed.

Lemma keeps_ids_emit_guard {L} type (snapshot : list (entry L)) :
  keeps_ids (emit_guard type snapshot).
Proof. unfold emit_guard. ids. Qed.
#[local] Hint Resolve keeps_ids_emit_guard : ids.

Lemma keeps_ids_get_goal g : keeps_ids (get_goal g).
Proof. unfold get_goal. ids_quiet. Qed.
Lemma keeps_ids_update_goal g f : keeps_ids (update_goal g f).
Proof. unfold update_goal. ids. Qed.
Lemma keeps_ids_get_client c : keeps_ids (get_client c).
Proof. unfold get_client. ids_quiet. Qed.
Lemma keeps_ids_update_client c f : keeps_ids (update_client c f).
Proof. unfold update_client. ids. Qed.
Lemma keeps_ids_get_topic t : keeps_ids (get_topic t).
Proof. unfold get_topic. ids_quiet. Qed.
Lemma keeps_ids_update_topic t f : keeps_ids (update_topic t f).
Proof. unfold update_topic. ids. Qed.
#[local] Hint Resolve keeps_ids_get_goal keeps_ids_update_goal keeps_ids_get_client
  keeps_ids_update_client keeps_ids_get_topic keeps_ids_update_topic : ids.

Lemma keeps_ids_run_goal_listener g l arg : keeps_ids (run_goal_listener g l arg).
Proof. unfold run_goal_listener. ids. Qed.
#[local] Hint Resolve keeps_ids_run_goal_listener : ids.

Lemma keeps_ids_goal_off g event id : keeps_ids (goal_off g event id).
Proof. unfold goal_off. ids. Qed.
#[local] Hint Resolve keeps_ids_goal_off : ids.

Lemma keeps_ids_goal_emit g event arg : keeps_ids (goal_emit g event arg).
Proof. unfold goal_emit. ids; try (apply keeps_ids_call_listeners; intros; ids). Qed.
#[local] Hint Resolve keeps_ids_goal_emit : ids.

Lemma keeps_ids_goal_on g event l : keeps_ids (goal_on g event l).
Proof. unfold goal_on. ids. Qed.
#[local] Hint Resolve keeps_ids_goal_on : ids.

Lemma keeps_ids_client_off c event id : keeps_ids (client_off c event id).
Proof. unfold client_off. ids. Qed.
#[local] Hint Resolve keeps_ids_client_off : ids.

Lemma keeps_ids_client_emit c event arg : keeps_ids (client_emit c event arg).
Proof. unfold client_emit. ids; try (apply keeps_ids_call_listeners; intros; ids). Qed.
#[local] Hint Resolve keeps_ids_client_emit : ids.

Lemma keeps_ids_with_goal c id body :
  (forall g, keeps_ids (body g)) -> keeps_ids (with_goal c id body).
Proof. intros H. unfold with_goal. ids. Qed.

Lemma keeps_ids_run_callback cb : forall arg, keeps_ids (run_callback cb arg).
Proof.
  induction cb; intros arg; unfold run_callback; fold run_callback; ids;
    try (apply keeps_ids_with_goal; intros; ids).
Qed.
#[local] Hint Resolve keeps_ids_run_callback : ids.

Lemma keeps_ids_run_topic_listener l arg : keeps_ids (run_topic_listener l arg).
Proof. unfold run_topic_listener. ids. Qed.
#[local] Hint Resolve keeps_ids_run_topic_listener : ids.

Lemma keeps_ids_topic_off t event id : keeps_ids (topic_off t event id).
Proof. unfold topic_off. ids. Qed.
#[local] Hint Resolve keeps_ids_topic_off : ids.

Lemma keeps_ids_topic_emit t event arg : keeps_ids (topic_emit t event arg).
Proof. unfold topic_emit. ids; try (apply keeps_ids_call_listeners; intros; ids). Qed.
#[local] Hint Resolve keeps_ids_topic_emit : ids.

Lemma keeps_ids_topic_on t event l : keeps_ids (topic_on t event l).
Proof. unfold topic_on. ids. Qed.
#[local] Hint Resolve keeps_ids_topic_on : ids.

Lemma keeps_ids_socket_send data : keeps_ids (socket_send data).
Proof. unfold socket_send. ids_quiet. Qed.
#[local] Hint Resolve keeps_ids_socket_send : ids.

Lemma keeps_ids_run_ros_listener l arg : keeps_ids (run_ros_listener l arg).
Proof. unfold run_ros_listener. ids. Qed.
#[local] Hint Resolve keeps_ids_run_ros_listener : ids.

Lemma keeps_ids_ros_off key id : keeps_ids (ros_off key id).
Proof. unfold ros_off. ids. Qed.
#[local] Hint Resolve keeps_ids_ros_off : ids.

Lemma keeps_ids_ros_emit type arg : keeps_ids (ros_emit type arg).
Proof. unfold ros_emit. ids; try (apply keeps_ids_call_listeners; intros; ids). Qed.
#[local] Hint Resolve keeps_ids_ros_emit : ids.

Lemma keeps_ids_ros_on key l : keeps_ids (ros_on key l).
Proof. unfold ros_on. ids. Qed.
Lemma keeps_ids_ros_once key l : keeps_ids (ros_once key l).
Proof. unfold ros_once. ids. Qed.
#[local] Hint Resolve keeps_ids_ros_on keeps_ids_ros_once : ids.

Lemma keeps_ids_handleMessage message : keeps_ids (handleMessage message).
Proof. unfold handleMessage. ids. Qed.
#[local] Hint Resolve keeps_ids_handleMessage : ids.

Lemma keeps_ids_image_onload i imageData : keeps_ids (image_onload i imageData).
Proof. unfold image_onload. ids. Qed.

Lemma keeps_ids_onMessage frame : keeps_ids (onMessage frame).
Proof. unfold onMessage, decompressPng. ids. Qed.

Lemma keeps_ids_callOnConnection message : keeps_ids (callOnConnection message).
Proof. unfold callOnConnection. ids. Qed.
#[local] Hint Resolve keeps_ids_image_onload keeps_ids_onMessage
  keeps_ids_callOnConnection : ids.

Lemma keeps_ids_Topic_new options : keeps_ids (Topic_new options).
Proof. unfold Topic_new. ids. Qed.
#[local] Hint Resolve keeps_ids_Topic_new : ids.

Lemma keeps_ids_subscribe t cb : keeps_ids (TopicOps.subscribe t cb).
Proof. unfold TopicOps.subscribe. ids. Qed.
Lemma keeps_ids_unsubscribe t : keeps_ids (TopicOps.unsubscribe t).
Proof. unfold TopicOps.unsubscribe. ids. Qed.
Lemma keeps_ids_advertise t : keeps_ids (TopicOps.advertise t).
Proof. unfold TopicOps.advertise. ids. Qed.
Lemma keeps_ids_unadvertise t : keeps_ids (TopicOps.unadvertise t).
Proof. unfold TopicOps.unadvertise. ids. Qed.
#[local] Hint Resolve keeps_ids_subscribe keeps_ids_unsubscribe keeps_ids_advertise
  keeps_ids_unadvertise : ids.

Lemma keeps_ids_publish t message : keeps_ids (TopicOps.publish t message).
Proof. unfold TopicOps.publish. ids. Qed.
#[local] Hint Resolve keeps_ids_publish : ids.

Lemma keeps_ids_callService service request cb :
  keeps_ids (callService service request cb).
Proof. unfold callService. ids. Qed.
#[local] Hint Resolve keeps_ids_callService : ids.

Lemma keeps_ids_ActionClient_new options : keeps_ids (ActionClient_new options).
Proof. unfold ActionClient_new, setTimeout. ids. Qed.

Lemma keeps_ids_publish_on field c message :
  keeps_ids (ClientOps.publish_on field c message).
Proof. unfold ClientOps.publish_on. ids. Qed.
#[local] Hint Resolve keeps_ids_ActionClient_new keeps_ids_publish_on : ids.

Lemma keeps_ids_timer_fires i : keeps_ids (timer_fires i).
Proof. unfold timer_fires, run_timer. ids. Qed.
#[local] Hint Resolve keeps_ids_timer_fires : ids.

Lemma keeps_ids_run_op o : keeps_ids (run_op o).
Proof.
  destruct o; cbn [run_op];
    unfold connect, close, socket_onopen, socket_onclose, socket_onerror,
      socket_onmessage, onOpen, onClose, onError, getTopics, getServices, getParams,
      ParamOps.get, ParamOps.set, ClientOps.cancel, ClientOps.Goal_new, ClientOps.send,
      ClientOps.goal_cancel, setTimeout;
    ids.
Qed.

Lemma run_ops_app l1 l2 s : run_ops (l1 ++ l2) s = run_ops l2 (run_ops l1 s).
Proof. revert s. induction l1 as [|o l1 IH]; intros s; [done|]. cbn. apply IH. Qed.

Lemma run_ops_counter l : forall s, (idCounter s <= idCounter (run_ops l s))%N.
Proof.
  induction l as [|o l IH]; intros s; cbn; [lia|].
  destruct (keeps_ids_run_op o s) as [Hle _]. specialize (IH (snd (run_op o s))). lia.
Qed.

Lemma run_ops_ids_wf l : forall s,
  (idCounter (run_ops l s) < max_safe)%N ->
  ids_wf (ids s) (idCounter s) ->
  ids_wf (ids (run_ops l s)) (idCounter (run_ops l s)).
Proof.
  induction l as [|o l IH]; intros s Hlt Hwf; cbn in *; [done|].
  apply IH; [done|].
  destruct (keeps_ids_run_op o s) as [_ Hstep]. apply Hstep; [|done].
  pose proof (run_ops_counter l (snd (run_op o s))). lia.
Qed.

(** C2, as amended.  After any finite sequence of operations on a new
    connection (the methods of the library, in any interleaving with the
    events of the host), as long as the counter is below 2^53, the call
    IDs formed are pairwise distinct: each embeds the value the counter
    took when it was incremented for it, these values increase strictly,
    and the set of the IDs has as many elements as IDs were formed. *)
Theorem C2_call_ids_distinct (ops : list op) :
  let s := run_ops ops ROS_new in
  (idCounter s < max_safe)%N ->
  ids_wf (ids s) (idCounter s) /\
  NoDup (ids s) /\
  size (list_to_set (ids s) : gset string) = length (ids s).
Proof.
  intros s Hlt.
  assert (Hwf : ids_wf (ids s) (idCounter s)).
  { apply run_ops_ids_wf; [done|]. apply ids_wf_nil. }
  pose proof (ids_wf_NoDup _ _ Hwf) as Hnodup.
  split; [done|]. split; [done|]. by apply size_list_to_set.
Qed.

Lemma C2_call_ids_distinct_witness :
  let topic := Topic.Options VUndef "/chatter" (VStr "std_msgs/String") None None in
  let add := Service.Make "/add_two_ints" (VStr "rospy_tutorials/AddTwoInts") in
  let ops :=
    [OpConnect; OpTopic topic; OpSubscribe 0 (CbUser 1);
     OpCallService add (VObj [("a", VNum 1); ("b", VNum 2)]) (CbUser 2);
     OpSocketOpen VNull; OpPublish 0 (VObj [("data", VStr "hello")]);
     OpUnsubscribe 0; OpUnadvertise 0] in
  let s := run_ops ops ROS_new in
  ids s = ["subscribe:/chatter:1"; "call_service:/add_two_ints:2"; "advertise:/chatter:3";
           "publish:/chatter:4"; "unsubscribe:/chatter:5"; "unadvertise:/chatter:6"] /\
  NoDup (ids s) /\
  size (list_to_set (ids s) : gset string) = 6.
Proof.
  intros topic add ops s.
  destruct (C2_call_ids_distinct ops) as (_ & Hnodup & Hsize);
    [vm_compute; reflexivity|].
  assert (Hids : ids s
                 = ["subscribe:/chatter:1"; "call_service:/add_two_ints:2";
                    "advertise:/chatter:3"; "publish:/chatter:4";
                    "unsubscribe:/chatter:5"; "unadvertise:/chatter:6"])
    by (vm_compute; reflexivity).
  split; [exact Hids|]. split; [exact Hnodup|].
  fold s in Hsize. rewrite Hsize, Hids. reflexivity.
Defined.

Lemma advertise_spec t x rs s :
  topics s !! t = Some x ->
  socket s = Some rs ->
  exists s',
    TopicOps.advertise t s = (Normal tt, s') /\
    topics s' = <[t := Topic.set_isAdvertised true x]> (topics s) /\
    socket s' = socket s /\
    idCounter s' = js_succ (idCounter s) /\
    ids s' = ids s ++ [call_id ("advertise:", Topic.name x, js_succ (idCounter s))].
Proof.
  intros Ht Hs. unfold TopicOps.advertise. exec. rewrite Ht.
  rewrite (callOnConnection_spec _ rs) by (cbn; exact Hs).
  eexists; split; [reflexivity|].
  rewrite <- (alter_lookup _ _ _ _ Ht). by destruct rs.
Qed.

(** The counter after [k] more IDs: it stops at 2^53. *)
Lemma advertise_many t rs k : forall s x,
  topics s !! t = Some x ->
  socket s = Some rs ->
  (idCounter s <= max_safe)%N ->
  let s' := run_ops (replicate k (OpAdvertise t)) s in
  socket s' = Some rs /\
  (exists x', topics s' !! t = Some x' /\ Topic.name x' = Topic.name x) /\
  idCounter s' = N.min (idCounter s + N.of_nat k) max_safe /\
  length (ids s') = length (ids s) + k.
Proof.
  induction k as [|k IH]; intros s x Ht Hs Hle.
  - cbn. repeat split; [done|by exists x|lia|lia].
  - cbn [replicate run_ops run_op].
    destruct (advertise_spec t x rs s Ht Hs) as (s1 & Hrun & Htopics & Hsock & Hc & Hids).
    rewrite Hrun. cbn [snd].
    assert (Ht1 : topics s1 !! t = Some (Topic.set_isAdvertised true x)).
    { rewrite Htopics. apply list_lookup_insert_eq. by eapply lookup_lt_Some. }
    assert (Hc1 : idCounter s1 = N.min (idCounter s + 1) max_safe).
    { rewrite Hc. unfold js_succ.
      destruct (idCounter s <? max_safe)%N eqn:Hlt;
        [apply N.ltb_lt in Hlt|apply N.ltb_ge in Hlt]; lia. }
    destruct (IH s1 _ Ht1) as (Hs' & (x' & Hx' & Hname) & Hc' & Hlen).
    { by rewrite Hsock. }
    { lia. }
    repeat split.
    + exact Hs'.
    + by exists x'.
    + rewrite Hc', Hc1. lia.
    + rewrite Hlen, Hids, length_app. cbn. lia.
Qed.

Lemma many_spec : N.of_nat many = max_safe.
Proof. rewrite many_unseal. apply N2Nat.id. Qed.

(** C2 as stated fails: on a new connection, after 2^53 calls of
    [advertise] the counter no longer changes, and the next two calls
    form the same ID (at positions 2^53 and 2^53 + 1 of the IDs formed,
    counting from 0). *)
Lemma C2_counterexample :
  let topic := Topic.Options VUndef "/chatter" (VStr "std_msgs/String") None None in
  let ops :=
    [OpConnect; OpTopic topic]
    ++ replicate many (OpAdvertise 0) ++ [OpAdvertise 0; OpAdvertise 0] in
  let s := run_ops ops ROS_new in
  let id := call_id ("advertise:", "/chatter", max_safe) in
  ids s !! many = Some id /\ ids s !! S many = Some id.
Proof.
  intros topic ops s id. subst s ops. rewrite !run_ops_app.
  set (s0 := run_ops [OpConnect; OpTopic topic] ROS_new).
  set (x := Topic.Make VUndef "/chatter" (VStr "std_msgs/String") false "none" 0 ∅).
  assert (Ht0 : topics s0 !! 0 = Some x) by (vm_compute; reflexivity).
  assert (Hs0 : socket s0 = Some CONNECTING) by (vm_compute; reflexivity).
  assert (Hc0 : idCounter s0 = 0%N) by (vm_compute; reflexivity).
  assert (Hi0 : ids s0 = []) by (vm_compute; reflexivity).
  destruct (advertise_many 0 CONNECTING many s0 x Ht0 Hs0)
    as (Hs1 & (x1 & Ht1 & Hname) & Hc1 & Hlen); [rewrite Hc0; lia|].
  set (s1 := run_ops (replicate many (OpAdvertise 0)) s0) in *.
  rewrite Hc0, many_spec in Hc1. rewrite Hi0 in Hlen.
  change (length [] + many) with many in Hlen.
  assert (Hc1' : idCounter s1 = max_safe) by (rewrite Hc1; lia).
  assert (Hsucc : js_succ max_safe = max_safe).
  { unfold js_succ. by rewrite N.ltb_irrefl. }
  cbn [run_ops run_op].
  destruct (advertise_spec 0 x1 CONNECTING s1 Ht1 Hs1)
    as (s2 & Hrun2 & Htopics2 & Hs2 & Hc2 & Hids2).
  rewrite Hrun2. cbn [snd].
  assert (Ht2 : topics s2 !! 0 = Some (Topic.set_isAdvertised true x1)).
  { rewrite Htopics2. apply list_lookup_insert_eq. by eapply lookup_lt_Some. }
  rewrite Hs1 in Hs2.
  destruct (advertise_spec 0 _ CONNECTING s2 Ht2 Hs2)
    as (s3 & Hrun3 & _ & _ & _ & Hids3).
  rewrite Hrun3. cbn [snd].
  rewrite Hids3, Hids2, Hc2, Hc1', !Hsucc. cbn [Topic.name Topic.set_isAdvertised].
  rewrite Hname. change (Topic.name x) with "/chatter". fold id.
  rewrite <- app_assoc. cbn [app]. split.
  - rewrite <- Hlen. apply list_lookup_middle. lia.
  - rewrite <- Hlen.
    change (ids s1 ++ [id; id]) with (ids s1 ++ [id] ++ [id]).
    rewrite (app_assoc (ids s1) [id] [id]).
    replace (S (length (ids s1))) with (length (ids s1 ++ [id]))
      by (rewrite length_app; cbn; lia).
    apply lookup_snoc_length.
Qed.
(** * Further properties

    Properties of the code beyond the specification's: what the
    connection does with calls and frames, the service helpers, the
    action client and the drawing loop of the navigation widget. *)

(** ** Calls and the state of the socket *)

Lemma remove_first_middle {L} (e : entry L) kept rest :
  lid e ∉ map lid kept ->
  remove_first (lid e) (kept ++ e :: rest) = kept ++ rest.
Proof.
  induction kept as [|a kept IH]; intros Hn; cbn.
  - by rewrite decide_True.
  - apply not_elem_of_cons in Hn as [Hne Hn].
    rewrite decide_False by done. by rewrite IH.
Qed.

(** Removing a listener that is somewhere in its list. *)
Lemma listeners_off_middle {L} key (e : entry L) kept rest ev :
  listeners key ev = kept ++ e :: rest ->
  lid e ∉ map lid kept ->
  listeners key (off key (lid e) ev) = kept ++ rest.
Proof.
  unfold listeners, off. destruct (ev !! key) as [l|] eqn:Hl; cbn.
  - intros -> Hn. rewrite remove_first_middle by done.
    destruct (kept ++ rest); by rewrite ?lookup_delete_eq, ?lookup_insert_eq.
  - intros H. by destruct kept.
Qed.

Lemma NoDup_middle {A} (a b : list A) x :
  NoDup (a ++ x :: b) -> (x ∉ a) /\ NoDup (a ++ b).
Proof.
  intros H. rewrite <- Permutation_middle in H.
  apply NoDup_cons in H as [Hx H]. split; [|exact H].
  intros Hin. apply Hx. apply elem_of_app. by left.
Qed.

(** The listeners of the connection event, called on an open socket:
    the waiting sends are transmitted and leave, the functions of the
    application are called, and those registered with [on] stay. *)
Lemma call_connection_listeners arg snapshot : forall kept s,
  listeners "connection" (ros_events s) = kept ++ snapshot ->
  Forall (fun e => match fn e with
                   | LSend _ => once e = true
                   | LApp _ => True
                   | _ => False
                   end) snapshot ->
  NoDup (map lid (kept ++ snapshot)) ->
  socket s = Some OPEN ->
  exists s',
    call_listeners (ros_off "connection") (fun f => run_ros_listener f arg) snapshot s
    = (Normal tt, s') /\
    wire s' = wire s ++ waiting_sends snapshot /\
    trace s' = trace s ++ app_calls arg snapshot /\
    listeners "connection" (ros_events s') = kept ++ staying snapshot /\
    socket s' = Some OPEN /\
    next_listener s' = next_listener s.
Proof.
  induction snapshot as [|e snapshot IH]; intros kept s Hl Hall Hnd Hs.
  - exists s. cbn. rewrite !app_nil_r in *. by repeat split.
  - apply Forall_cons in Hall as [He Hall].
    unfold call_listeners in *. cbn [for_each]. unfold bind at 1. unfold bind at 1.
    pose proof Hnd as Hnd0.
    rewrite map_app in Hnd. cbn [map] in Hnd.
    apply NoDup_middle in Hnd as [Hfresh Hnd]. rewrite <- map_app in Hnd.
    destruct e as [id o f]. cbn [once fn lid] in *. destruct o.
    + unfold ros_off at 1, modify at 1.
      set (s0 := set_ros_events _ s).
      assert (Hl0 : listeners "connection" (ros_events s0) = kept ++ snapshot).
      { subst s0. cbn.
        by apply (listeners_off_middle "connection" (Entry id true f) kept snapshot). }
      destruct f as [m| | |k]; try done; cbn [run_ros_listener].
      * unfold socket_send at 1. replace (socket s0) with (Some OPEN) by (by rewrite <- Hs).
        set (s1 := set_wire _ s0).
        destruct (IH kept s1) as (s' & Hrun & Hw & Ht & Hl' & Hs' & Hn); try done.
        exists s'. split; [exact Hrun|]. rewrite Hw, Ht.
        repeat split; try done. subst s1 s0. cbn. by rewrite <- app_assoc.
      * rewrite record_log.
        destruct (IH kept (log [ObsCall k arg] s0)) as (s' & Hrun & Hw & Ht & Hl' & Hs' & Hn);
          rewrite ?ros_events_log, ?socket_log; try done.
        exists s'. split; [exact Hrun|]. rewrite Hw, Ht.
        repeat split; try done. rewrite trace_log. subst s0. cbn. by rewrite <- app_assoc.
    + destruct f as [m| | |k]; try done. cbn [run_ros_listener]. unfold ret at 1.
      rewrite record_log.
      assert (Heq : forall rest : list (entry ros_listener),
                 (kept ++ [Entry id false (LApp k)]) ++ rest
                 = kept ++ Entry id false (LApp k) :: rest).
      { intros rest. by rewrite <- app_assoc. }
      destruct (IH (kept ++ [Entry id false (LApp k)]) (log [ObsCall k arg] s))
        as (s' & Hrun & Hw & Ht & Hl' & Hs' & Hn);
        rewrite ?ros_events_log, ?socket_log, ?Heq; try done.
      exists s'. split; [exact Hrun|]. rewrite Hw, Ht, Hl', Heq.
      repeat split; try done. rewrite trace_log. cbn. by rewrite <- app_assoc.
Qed.

Lemma deferred_cons first m l :
  deferred first (m :: l)
  = Entry first true (LSend (JSON.stringify_value m)) :: deferred (S first) l.
Proof.
  unfold deferred. cbn. rewrite Nat.add_0_r. f_equal.
  apply imap_ext. intros i y _. cbn. f_equal. lia.
Qed.

Lemma deferred_sends first l :
  waiting_sends (deferred first l) = map frame_of l /\
  (forall arg, app_calls arg (deferred first l) = []) /\
  staying (deferred first l) = [] /\
  map lid (deferred first l) = seq first (length l).
Proof.
  revert first. induction l as [|m l IH]; intros first; [done|].
  rewrite deferred_cons. destruct (IH (S first)) as (H1 & H2 & H3 & H4).
  unfold waiting_sends, app_calls, staying in *. cbn. rewrite H1, H3, H4.
  repeat split. exact H2.
Qed.

(** Calls handed over while the socket is not open join the listeners of
    the connection event, in order, behind those that are there. *)
Lemma defer_more msgs rs : forall s,
  socket s = Some rs ->
  is_open rs = false ->
  exists s1,
    for_each callOnConnection msgs s = (Normal tt, s1) /\
    wire s1 = wire s /\
    socket s1 = Some rs /\
    calls s1 = calls s ++ msgs /\
    trace s1 = trace s /\
    next_listener s1 = next_listener s + length msgs /\
    listeners "connection" (ros_events s1)
    = listeners "connection" (ros_events s) ++ deferred (next_listener s) msgs /\
    (forall key, key <> "connection" ->
                 listeners key (ros_events s1) = listeners key (ros_events s)).
Proof.
  induction msgs as [|m msgs IH]; intros s Hs Hrs.
  - exists s. cbn. rewrite !app_nil_r, Nat.add_0_r. by repeat split.
  - cbn [for_each]. unfold bind at 1. rewrite (callOnConnection_spec m rs s Hs).
    rewrite Hrs. cbn [negb].
    set (s' := set_ros_events _ _).
    destruct (IH s' Hs Hrs) as (s1 & Hrun & Hw & Hs1 & Hc & Ht & Hn & Hl & Ho).
    exists s1. split; [exact Hrun|]. split; [exact Hw|]. split; [exact Hs1|].
    split; [rewrite Hc; subst s'; cbn; by rewrite <- app_assoc|].
    split; [exact Ht|]. split; [rewrite Hn; subst s'; cbn; lia|]. split.
    + rewrite deferred_cons, Hl.
      assert (Hl' : listeners "connection" (ros_events s')
                    = listeners "connection" (ros_events s)
                      ++ [Entry (next_listener s) true (LSend (JSON.stringify_value m))]).
      { subst s'. cbn. by rewrite listeners_on_eq. }
      assert (Hn' : next_listener s' = S (next_listener s)) by reflexivity.
      by rewrite Hl', Hn', <- app_assoc.
    + intros key Hk. rewrite Ho by done. subst s'. cbn.
      apply listeners_on_ne. congruence.
Qed.

Lemma staying_sends l :
  Forall (fun e => match fn e with
                   | LSend _ => once e = true
                   | LApp _ => True
                   | _ => False
                   end) l ->
  waiting_sends (staying l) = [].
Proof.
  induction 1 as [|[id o f] l He _ IH]; [done|].
  unfold staying, waiting_sends in *. cbn in *.
  destruct o; cbn; [exact IH|]. by destruct f.
Qed.

(** The socket opens in a state whose listeners of the connection event
    are as the library and the application leave them. *)
Lemma open_connection event s :
  connection_ready s ->
  let l := listeners "connection" (ros_events s) in
  exists s',
    socket_onopen event s = (Normal tt, s') /\
    wire s' = wire s ++ waiting_sends l /\
    trace s' = trace s ++ ObsEmit SrcRos "connection" event :: app_calls event l /\
    listeners "connection" (ros_events s') = staying l /\
    socket s' = Some OPEN /\
    connection_ready s'.
Proof.
  intros (Hall & Hnd & Hlt) l. unfold socket_onopen, onOpen.
  unfold bind at 1. unfold modify at 1. rewrite ros_emit_unfold.
  change (JS.to_string (VStr "connection")) with "connection".
  cbn [ros_events set_socket]. fold l.
  unfold bind at 1. rewrite emit_guard_event by done.
  set (s1 := log _ _).
  destruct (call_connection_listeners event l [] s1)
    as (s' & Hrun & Hw & Ht & Hl & Hs & Hn); try done.
  exists s'. split; [exact Hrun|]. split; [exact Hw|]. split.
  { rewrite Ht. subst s1. rewrite trace_log. cbn. by rewrite <- app_assoc. }
  split; [exact Hl|]. split; [exact Hs|].
  unfold connection_ready. rewrite Hl, Hn. cbn [app]. subst s1. cbn.
  unfold staying. split; [|split].
  - apply Forall_forall. intros e He. apply list_elem_of_In, filter_In in He as [He _].
    rewrite Forall_forall in Hall. apply Hall. by apply list_elem_of_In.
  - apply (sublist_NoDup _ (map lid l)); [exact Hnd|].
    clear. induction l as [|e l IH]; [constructor|]. cbn.
    destruct (negb (once e)); cbn; by constructor.
  - apply Forall_forall. intros e He. apply list_elem_of_In, filter_In in He as [He _].
    rewrite Forall_forall in Hlt. apply Hlt. by apply list_elem_of_In.
Qed.

(** After calls have been handed over, the listeners are still as the
    library and the application leave them. *)
Lemma defer_ready msgs s s1 :
  connection_ready s ->
  next_listener s1 = next_listener s + length msgs ->
  listeners "connection" (ros_events s1)
  = listeners "connection" (ros_events s) ++ deferred (next_listener s) msgs ->
  connection_ready s1.
Proof.
  intros (Hall & Hnd & Hlt) Hn Hl. unfold connection_ready. rewrite Hl, Hn.
  destruct (deferred_sends (next_listener s) msgs) as (_ & _ & _ & Hids).
  split; [|split].
  - apply Forall_app. split; [exact Hall|].
    unfold deferred. apply Forall_forall. intros e He.
    apply list_elem_of_lookup in He as [i He]. rewrite list_lookup_imap in He.
    destruct (msgs !! i); [|done]. by injection He as <-.
  - rewrite map_app, Hids. apply NoDup_app. split; [exact Hnd|]. split; [|apply NoDup_seq].
    intros id Hin Hseq. apply elem_of_seq in Hseq.
    apply list_elem_of_fmap in Hin as (e & -> & He).
    rewrite Forall_forall in Hlt. specialize (Hlt e He). lia.
  - apply Forall_app. split.
    + eapply Forall_impl; [exact Hlt|]. cbn. intros e He. lia.
    + apply Forall_forall. intros e He.
      assert (Hin : lid e ∈ map lid (deferred (next_listener s) msgs)).
      { apply list_elem_of_fmap. by exists e. }
      rewrite Hids in Hin. apply elem_of_seq in Hin. lia.
Qed.

(** X1.  Calls handed to [callOnConnection] while the socket is not open
    are not transmitted then.  When the socket opens, the event is passed
    to the listeners of the application and the waiting calls are
    transmitted, each once, those that waited already first and then the
    new ones in the order in which they were handed over.  Afterwards
    nothing waits any more: only the listeners that the application
    registered with [on] stay, and a second connection event transmits
    nothing. *)
Theorem X1_deferred_calls_flush_in_order
    (msgs : list value) (rs : ReadyState) (event : value) (s : State) :
  socket s = Some rs ->
  is_open rs = false ->
  connection_ready s ->
  let l := listeners "connection" (ros_events s) in
  exists s1 s2 s3,
    for_each callOnConnection msgs s = (Normal tt, s1) /\
    wire s1 = wire s /\
    socket_onopen event s1 = (Normal tt, s2) /\
    wire s2 = wire s ++ waiting_sends l ++ map frame_of msgs /\
    trace s2 = trace s ++ ObsEmit SrcRos "connection" event :: app_calls event l /\
    listeners "connection" (ros_events s2) = staying l /\
    waiting_sends (staying l) = [] /\
    socket_onopen event s2 = (Normal tt, s3) /\
    wire s3 = wire s2.
Proof.
  intros Hs Hrs Hready l.
  destruct (defer_more msgs rs s Hs Hrs) as (s1 & Hrun & Hw & _ & _ & Ht & Hn & Hl & _).
  pose proof (defer_ready msgs s s1 Hready Hn Hl) as Hready1.
  destruct (open_connection event s1 Hready1) as (s2 & Ho & Hw2 & Ht2 & Hl2 & _ & Hready2).
  destruct (open_connection event s2 Hready2) as (s3 & Ho3 & Hw3 & _).
  destruct (deferred_sends (next_listener s) msgs) as (Hsends & Hcalls & Hstay & _).
  assert (Hkeep : waiting_sends (staying l) = []).
  { apply staying_sends. by destruct Hready. }
  fold l in Hl. rewrite Hl in Hw2, Ht2, Hl2.
  unfold waiting_sends, app_calls, staying in *.
  rewrite flat_map_app in Hw2, Ht2. rewrite List.filter_app in Hl2.
  rewrite Hsends in Hw2. rewrite Hcalls in Ht2. rewrite Hstay in Hl2.
  rewrite app_nil_r in Ht2, Hl2.
  exists s1, s2, s3. split; [exact Hrun|]. split; [exact Hw|]. split; [exact Ho|].
  split; [by rewrite Hw2, Hw|]. split; [by rewrite Ht2, Ht|]. split; [exact Hl2|].
  split; [exact Hkeep|]. split; [exact Ho3|].
  rewrite Hw3, Hl2, Hkeep. apply app_nil_r.
Qed.

Lemma X1_deferred_calls_flush_in_order_witness :
  let s := snd (ros_on "connection" (LApp 3) ROS_new_url) in
  let a := VObj [("op", VStr "advertise"); ("topic", VStr "/a")] in
  let b := VObj [("op", VStr "publish"); ("topic", VStr "/a"); ("msg", VNum 1)] in
  exists s1 s2 s3,
    for_each callOnConnection [a; b] s = (Normal tt, s1) /\
    wire s1 = [] /\
    socket_onopen VNull s1 = (Normal tt, s2) /\
    wire s2 = [frame_of a; frame_of b] /\
    trace s2 = [ObsEmit SrcRos "connection" VNull; ObsCall 3 VNull] /\
    listeners "connection" (ros_events s2) = [Entry 0 false (LApp 3)] /\
    socket_onopen VNull s2 = (Normal tt, s3) /\
    wire s3 = wire s2.
Proof.
  intros s a b.
  assert (Hl : listeners "connection" (ros_events s) = [Entry 0 false (LApp 3)])
    by (vm_compute; reflexivity).
  assert (Hready : connection_ready s).
  { unfold connection_ready. rewrite Hl. split; [|split].
    - by repeat constructor.
    - apply (bool_decide_unpack _). vm_compute. exact I.
    - repeat constructor. }
  destruct (X1_deferred_calls_flush_in_order [a; b] CONNECTING VNull s eq_refl eq_refl Hready)
    as (s1 & s2 & s3 & H1 & H2 & H3 & H4 & H5 & H6 & _ & H7 & H8).
  rewrite Hl in H4, H5, H6.
  exists s1, s2, s3. repeat split; assumption.
Defined.

Lemma ros_emit_error_nobody arg s :
  listeners "error" (ros_events s) = [] ->
  ros_emit (VStr "error") arg s
  = (Throw UncaughtErrorEvent, log [ObsEmit SrcRos "error" arg] s).
Proof.
  intros Hl. rewrite ros_emit_unfold.
  change (JS.to_string (VStr "error")) with "error". rewrite Hl. reflexivity.
Qed.

(** Listeners of the application on [ros], registered with [on]: each
    is called with the argument of the event. *)
Lemma call_ros_apps key arg l ks : forall s,
  Forall2 (fun e k => is_on (LApp k) e) l ks ->
  call_listeners (ros_off key) (fun f => run_ros_listener f arg) l s
  = (Normal tt, log (map (fun k => ObsCall k arg) ks) s).
Proof.
  intros s H. revert s. induction H as [|e k l ks [Ho Hf] _ IH]; intros s.
  - by rewrite log_nil.
  - unfold call_listeners in *. cbn [for_each]. unfold bind at 1. unfold bind at 1.
    rewrite Ho, Hf. cbn. rewrite record_log, IH. by rewrite log_log.
Qed.

Lemma ros_emit_apps key arg l ks s :
  listeners key (ros_events s) = l ->
  key <> "error" \/ l <> [] ->
  Forall2 (fun e k => is_on (LApp k) e) l ks ->
  ros_emit (VStr key) arg s
  = (Normal tt, log (ObsEmit SrcRos key arg :: map (fun k => ObsCall k arg) ks) s).
Proof.
  intros Hl Hne Hall. rewrite ros_emit_unfold.
  change (JS.to_string (VStr key)) with key. rewrite Hl.
  unfold bind at 1.
  assert (Hguard : emit_guard (VStr key) l
                     (log [ObsEmit SrcRos key arg] s)
                   = (Normal tt, log [ObsEmit SrcRos key arg] s)).
  { destruct Hne as [Hk|Hl']; [by apply emit_guard_event|].
    destruct l; [done|apply emit_guard_cons]. }
  rewrite Hguard, (call_ros_apps _ _ _ _ _ Hall), log_log. reflexivity.
Qed.

(** X3.  The emitter throws on the event named error when nothing
    listens to it, and [ros] uses one emitter for its own events, the
    topic names and the call IDs.  So while the application has no
    listener of error on [ros], a socket error, an inbound publish on a
    topic named error and a service response whose ID is error all leave
    the handler by an exception, no function being called; with one
    listener registered by the application, the socket error is passed to
    it. *)
Theorem X3_error_event_needs_a_listener
    (event msg : value) (i k : nat) (s : State) :
  (listeners "error" (ros_events s) = [] ->
   socket_onerror event s
   = (Throw UncaughtErrorEvent, log [ObsEmit SrcRos "error" event] s) /\
   handleMessage (publish_envelope "error" msg) s
   = (Throw UncaughtErrorEvent, log [ObsEmit SrcRos "error" msg] s) /\
   handleMessage (response_envelope "error" msg) s
   = (Throw UncaughtErrorEvent, log [ObsEmit SrcRos "error" msg] s)) /\
  (listeners "error" (ros_events s) = [Entry i false (LApp k)] ->
   socket_onerror event s
   = (Normal tt, log [ObsEmit SrcRos "error" event; ObsCall k event] s)).
Proof.
  split.
  - intros Hl. split; [|split].
    + by apply ros_emit_error_nobody.
    + rewrite (handleMessage_publish _ (VStr "error") msg) by reflexivity.
      by apply ros_emit_error_nobody.
    + rewrite (handleMessage_service_response _ (VStr "error") msg) by reflexivity.
      by apply ros_emit_error_nobody.
  - intros Hl. unfold socket_onerror, onError.
    apply (ros_emit_apps "error" event _ [k] s Hl); [by right|].
    repeat constructor.
Qed.

Lemma X3_error_event_needs_a_listener_witness :
  let s := snd (socket_onopen VNull ROS_new_url) in
  let s' := snd (ros_on "error" (LApp 3) s) in
  fst (socket_onerror (VStr "refused") s) = Throw UncaughtErrorEvent /\
  fst (handleMessage (publish_envelope "error" VNull) s) = Throw UncaughtErrorEvent /\
  socket_onerror (VStr "refused") s'
  = (Normal tt, log [ObsEmit SrcRos "error" (VStr "refused"); ObsCall 3 (VStr "refused")] s').
Proof.
  intros s s'.
  destruct (X3_error_event_needs_a_listener (VStr "refused") VNull 0 3 s) as [H1 _].
  destruct (X3_error_event_needs_a_listener (VStr "refused") VNull 0 3 s') as [_ H2].
  destruct (H1 eq_refl) as (Ha & Hb & _).
  split; [by rewrite Ha|]. split; [by rewrite Hb|].
  apply H2. vm_compute. reflexivity.
Defined.

(** X18.  When the socket closes, the close event is passed to the
    listeners of the application.  Calls made afterwards are not
    transmitted and not lost: after [connect] has made a new socket, the
    opening of that socket is passed to the listeners of the connection
    event and the calls are transmitted, in order, behind any that
    waited already. *)
Theorem X18_calls_while_closed_wait_for_reconnect
    (msgs : list value) (event event' : value) (ks : list nat)
    (lc : list (entry ros_listener)) (s : State) :
  socket s = Some OPEN ->
  connection_ready s ->
  listeners "close" (ros_events s) = lc ->
  Forall2 (fun e k => is_on (LApp k) e) lc ks ->
  let l := listeners "connection" (ros_events s) in
  exists s1 s2 s3 s4,
    socket_onclose event s = (Normal tt, s1) /\
    trace s1 = trace s ++ ObsEmit SrcRos "close" event :: map (fun k => ObsCall k event) ks /\
    for_each callOnConnection msgs s1 = (Normal tt, s2) /\
    wire s2 = wire s /\
    connect s2 = (Normal tt, s3) /\
    socket_onopen event' s3 = (Normal tt, s4) /\
    wire s4 = wire s ++ waiting_sends l ++ map frame_of msgs /\
    trace s4 = trace s1 ++ ObsEmit SrcRos "connection" event' :: app_calls event' l.
Proof.
  intros Hs Hready Hl Hall l.
  set (s0 := set_socket (Some CLOSED) s).
  assert (Hclose : socket_onclose event s
                   = (Normal tt,
                      log (ObsEmit SrcRos "close" event :: map (fun k => ObsCall k event) ks)
                          s0)).
  { unfold socket_onclose, onClose. unfold bind, modify. fold s0.
    apply (ros_emit_apps "close" event lc ks s0); [done|by left|done]. }
  set (s1 := log _ s0) in Hclose.
  assert (Hready1 : connection_ready s1) by exact Hready.
  destruct (defer_more msgs CLOSED s1 eq_refl eq_refl)
    as (s2 & Hrun & Hw & Hs2 & _ & Ht & Hn & Hl2 & _).
  pose proof (defer_ready msgs s1 s2 Hready1 Hn Hl2) as Hready2.
  set (s3 := set_socket (Some CONNECTING) s2).
  assert (Hready3 : connection_ready s3) by exact Hready2.
  destruct (open_connection event' s3 Hready3) as (s4 & Ho & Hw4 & Ht4 & _).
  destruct (deferred_sends (next_listener s1) msgs) as (Hsends & Hcalls & _).
  change (listeners "connection" (ros_events s3))
    with (listeners "connection" (ros_events s2)) in Hw4, Ht4.
  change (listeners "connection" (ros_events s1)) with l in Hl2.
  rewrite Hl2 in Hw4, Ht4. unfold waiting_sends, app_calls in *.
  rewrite flat_map_app in Hw4, Ht4. rewrite Hsends in Hw4. rewrite Hcalls in Ht4.
  rewrite app_nil_r in Ht4.
  exists s1, s2, s3, s4.
  split; [exact Hclose|]. split; [reflexivity|]. split; [exact Hrun|].
  split; [by rewrite Hw|]. split; [reflexivity|]. split; [exact Ho|]. split.
  - rewrite Hw4. change (wire s3) with (wire s2). by rewrite Hw.
  - rewrite Ht4. change (trace s3) with (trace s2). by rewrite Ht.
Qed.

Lemma X18_calls_while_closed_wait_for_reconnect_witness :
  let s := snd (ros_on "close" (LApp 9)
                  (snd (socket_onopen VNull
                          (snd (ros_on "connection" (LApp 3) ROS_new_url))))) in
  let a := VObj [("op", VStr "publish"); ("topic", VStr "/a"); ("msg", VNum 1)] in
  exists s1 s2 s3 s4,
    socket_onclose (VStr "bye") s = (Normal tt, s1) /\
    trace s1 = trace s ++ [ObsEmit SrcRos "close" (VStr "bye"); ObsCall 9 (VStr "bye")] /\
    for_each callOnConnection [a] s1 = (Normal tt, s2) /\
    wire s2 = [] /\
    connect s2 = (Normal tt, s3) /\
    socket_onopen VNull s3 = (Normal tt, s4) /\
    wire s4 = [frame_of a] /\
    trace s4 = trace s1 ++ [ObsEmit SrcRos "connection" VNull; ObsCall 3 VNull].
Proof.
  intros s a.
  assert (Hl : listeners "close" (ros_events s) = [Entry 1 false (LApp 9)])
    by (vm_compute; reflexivity).
  assert (Hc : listeners "connection" (ros_events s) = [Entry 0 false (LApp 3)])
    by (vm_compute; reflexivity).
  assert (Hready : connection_ready s).
  { unfold connection_ready. rewrite Hc. split; [|split].
    - by repeat constructor.
    - apply (bool_decide_unpack _). vm_compute. exact I.
    - repeat constructor. }
  destruct (X18_calls_while_closed_wait_for_reconnect [a] (VStr "bye") VNull [9] _ s
              eq_refl Hready Hl)
    as (s1 & s2 & s3 & s4 & H1 & H2 & H3 & H4 & H5 & H6 & H7 & H8).
  { repeat constructor. }
  rewrite Hc in H7, H8.
  exists s1, s2, s3, s4. repeat split; assumption.
Defined.


(** ** Inbound frames *)

Module JSONDefined.
Import JSONFacts.
Import JSON.

(** The parser never produces [undefined]. *)
Lemma parse_number_defined s v r : parse_number s = Some (v, r) -> v <> VUndef.
Proof.
  unfold parse_number. intros H.
  destruct (match s with String "-" r => (true, r) | _ => (false, s) end) as [neg s1].
  destruct (take_digits s1) as [int s2]. destruct int as [|c more]; [discriminate|].
  destruct (_ && _); [discriminate|].
  match type of H with match ?ff with _ => _ end = _ => destruct ff as [[f s3]|] end;
    [|discriminate].
  match type of H with match ?ff with _ => _ end = _ => destruct ff as [[e s4]|] end;
    [|discriminate].
  destruct (_ && _); injection H as <- <-; discriminate.
Qed.

Lemma parse_value_defined n :
  (forall s v r, parse_value n s = Some (v, r) -> v <> VUndef) /\
  (forall acc s v r, parse_elements n acc s = Some (v, r) -> v <> VUndef) /\
  (forall acc s v r, parse_members n acc s = Some (v, r) -> v <> VUndef).
Proof.
  induction n as [|n (IHv & IHe & IHm)]; [by repeat split|].
  split; [|split].
  - intros s v r H. cbn [parse_value] in H.
    destruct (skip_ws s) as [|c r0]; [discriminate|].
    destruct (bool_decide (c = "{"%char)).
    { destruct (skip_ws r0) as [|c1 r1]; [by apply IHm in H|].
      split_char c1; first [by apply IHm in H | injection H as <- <-; discriminate]. }
    destruct (bool_decide (c = "["%char)).
    { destruct (skip_ws r0) as [|c1 r1]; [by apply IHe in H|].
      split_char c1; first [by apply IHe in H | injection H as <- <-; discriminate]. }
    destruct (bool_decide (c = dq)).
    { destruct (parse_string r0) as [[t rest]|]; [|discriminate].
      injection H as <- <-. discriminate. }
    repeat match type of H with
           | (if ?b then match expect ?l r0 with _ => _ end else _) = _ =>
               destruct b;
               [destruct (expect l r0) as [rest|]; [|discriminate];
                injection H as <- <-; discriminate|]
           end.
    by apply parse_number_defined in H.
  - intros acc s v r H. cbn [parse_elements] in H.
    destruct (parse_value n s) as [[v0 r0]|]; [|discriminate].
    destruct (skip_ws r0) as [|c1 r1]; [discriminate|].
    split_char c1;
      first [discriminate | by apply IHe in H | injection H as <- <-; discriminate].
  - intros acc s v r H. cbn [parse_members] in H.
    destruct (skip_ws s) as [|c r0]; [discriminate|].
    destruct (bool_decide (c = dq)); [|discriminate].
    destruct (parse_string r0) as [[k r1]|]; [|discriminate].
    destruct (skip_ws r1) as [|c2 r2]; [discriminate|].
    assert (Hv : match parse_value n r2 with
                 | Some (v, r3) =>
                     match skip_ws r3 with
                     | String "," r4 => parse_members n (JS.set acc k v) r4
                     | String "}" r4 => Some (VObj (JS.set acc k v), r4)
                     | _ => None
                     end
                 | None => None
                 end = Some (v, r)).
    { split_char c2; first [discriminate | exact H]. }
    clear H. destruct (parse_value n r2) as [[v0 r3]|]; [|discriminate].
    destruct (skip_ws r3) as [|c4 r4]; [discriminate|].
    split_char c4;
      first [discriminate | by apply IHm in Hv | injection Hv as <- <-; discriminate].
Qed.

Lemma parse_defined text v : parse text = Some v -> v <> VUndef.
Proof.
  unfold parse. intros H.
  destruct (parse_value _ text) as [[v0 rest]|] eqn:E; [|discriminate].
  destruct (skip_ws rest); [|discriminate]. injection H as <-.
  by apply parse_value_defined in E.
Qed.

End JSONDefined.

(** X2.  A frame that parses to null makes [onMessage] throw a TypeError
    (the read of [data.op]) and changes nothing.  A frame that parses to
    any other value whose [op] is none of png, publish and
    service_response is ignored: the handler returns and the state is
    what it was.  The frame has no escape above 00FF, so that its keys
    and its [op] are read exactly. *)
Theorem X2_other_frames_are_ignored (frame : string) (data : value) (s : State) :
  narrow frame = true ->
  JSON.parse frame = Some data ->
  (data = VNull -> onMessage frame s = (Throw TypeError, s)) /\
  (data <> VNull ->
   is_str (JS.get data "op") "png" = false ->
   is_str (JS.get data "op") "publish" = false ->
   is_str (JS.get data "op") "service_response" = false ->
   onMessage frame s = (Normal tt, s)).
Proof.
  intros _ Hp. pose proof (JSONDefined.parse_defined _ _ Hp) as Hd.
  unfold onMessage. rewrite Hp. split.
  - intros ->. reflexivity.
  - intros Hn Hpng Hpub Hres.
    assert (Hprop : forall k, prop data k = ret (JS.get data k)) by by destruct data.
    unfold bind. rewrite Hprop. cbn. rewrite Hpng.
    unfold handleMessage, bind. rewrite Hprop. cbn. by rewrite Hpub, Hres.
Qed.

Lemma X2_other_frames_are_ignored_witness :
  let s := snd (socket_onopen VNull ROS_new_url) in
  JSON.parse "null" = Some VNull /\
  onMessage "null" s = (Throw TypeError, s) /\
  JSON.parse "{ }" = Some (VObj []) /\
  onMessage "{ }" s = (Normal tt, s) /\
  onMessage (frame_of (VObj [("op", VStr "status"); ("level", VStr "error")])) s
  = (Normal tt, s).
Proof.
  intros s.
  split; [reflexivity|].
  split; [exact (proj1 (X2_other_frames_are_ignored "null" VNull s eq_refl eq_refl)
                      eq_refl)|].
  split; [reflexivity|].
  split.
  - apply (proj2 (X2_other_frames_are_ignored "{ }" (VObj []) s eq_refl eq_refl)); done.
  - apply (proj2 (X2_other_frames_are_ignored
                    (frame_of (VObj [("op", VStr "status"); ("level", VStr "error")]))
                    (VObj [("op", VStr "status"); ("level", VStr "error")]) s
                    eq_refl eq_refl));
      done.
Defined.

Lemma pixels_text_rgba px : pixels_text (rgba px) = rgb_text px.
Proof.
  induction px as [|[[[r g] b] a] px IH]; [reflexivity|].
  cbn [rgba flat_map app rgb_text fold_right pixels_text].
  fold (rgba px). by rewrite IH.
Qed.

(** X17.  A png frame is not handled when it arrives: [onMessage] only
    leaves an image to load, whose source is the data URL of the frame's
    data.  When the image has loaded, the text is read from the red, green
    and blue bytes of its pixels, three characters per pixel, the alpha
    byte being skipped, and that text is handled as [onMessage] handles
    it when it arrives as a frame of its own; only a png inside a png is
    not unpacked again but ignored.  The frame and the text have no
    escape above 00FF, so that their keys and their [op] are read
    exactly. *)
Theorem X17_png_frames_carry_a_frame
    (frame src b64 : string) (data inner : value) (i : nat)
    (px : list (N * N * N * N)) (s : State) :
  pixels_text (rgba px) = rgb_text px /\
  String.length (rgb_text px) = 3 * length px /\
  (narrow frame = true ->
   JSON.parse frame = Some data ->
   JS.get data "op" = VStr "png" ->
   JS.get data "data" = VStr b64 ->
   onMessage frame s
   = (Normal tt, set_images (images s ++ ["data:image/png;base64," +:+ b64]) s)) /\
  (images s !! i = Some src ->
   narrow (rgb_text px) = true ->
   JSON.parse (rgb_text px) = Some inner ->
   let s' := set_images (delete i (images s)) s in
   (is_str (JS.get inner "op") "png" = false ->
    image_onload i (rgba px) s = onMessage (rgb_text px) s') /\
   (JS.get inner "op" = VStr "png" ->
    image_onload i (rgba px) s = (Normal tt, s'))).
Proof.
  split; [apply pixels_text_rgba|]. split; [|split].
  - induction px as [|[[[r g] b] a] px IH]; [reflexivity|].
    cbn [rgb_text fold_right String.length length]. fold (rgb_text px). rewrite IH. lia.
  - intros _ Hp Hop Hdata. unfold onMessage. rewrite Hp.
    assert (Hprop : prop data "op" = ret (VStr "png")).
    { rewrite <- Hop. destruct data; try reflexivity; discriminate Hop. }
    unfold bind. rewrite Hprop. unfold decompressPng. rewrite Hdata. reflexivity.
  - intros Hi _ Hp s'.
    assert (Hrun : image_onload i (rgba px) s = handleMessage inner s').
    { unfold image_onload. exec. rewrite Hi. exec. by rewrite pixels_text_rgba, Hp. }
    rewrite Hrun. split.
    + intros Hop. unfold onMessage. rewrite Hp.
      pose proof (JSONDefined.parse_defined _ _ Hp) as Hd.
      destruct inner; try done; unfold bind at 1, prop at 1, ret at 1; by rewrite Hop.
    + intros Hop.
      assert (Hprop : forall k, prop inner k = ret (JS.get inner k)).
      { intros k. destruct inner; try reflexivity; discriminate Hop. }
      unfold handleMessage, bind. rewrite Hprop. cbn. by rewrite Hop.
Qed.

Lemma X17_png_frames_carry_a_frame_witness :
  let s0 := snd (socket_onopen VNull ROS_new_url) in
  let png := frame_of (VObj [("op", VStr "png"); ("data", VStr "iVBORw0KGgo=")]) in
  let s := snd (onMessage png s0) in
  let px := [(123, 34, 111, 255); (112, 34, 58, 255); (34, 120, 34, 255);
             (125, 10, 10, 255)]%N in
  let inner := VObj [("op", VStr "x")] in
  images s = ["data:image/png;base64,iVBORw0KGgo="] /\
  JSON.parse (rgb_text px) = Some inner /\
  image_onload 0 (rgba px) s = onMessage (rgb_text px) s0.
Proof.
  intros s0 png s px inner.
  destruct (X17_png_frames_carry_a_frame png "data:image/png;base64,iVBORw0KGgo="
              "iVBORw0KGgo="
              (VObj [("op", VStr "png"); ("data", VStr "iVBORw0KGgo=")]) inner 0 px s0)
    as (_ & _ & H1 & _).
  destruct (X17_png_frames_carry_a_frame png "data:image/png;base64,iVBORw0KGgo="
              "iVBORw0KGgo="
              (VObj [("op", VStr "png"); ("data", VStr "iVBORw0KGgo=")]) inner 0 px s)
    as (_ & _ & _ & H2).
  assert (Hs : s = set_images ["data:image/png;base64,iVBORw0KGgo="] s0).
  { subst s. rewrite H1; reflexivity. }
  split; [rewrite Hs; reflexivity|]. split; [reflexivity|].
  destruct H2 as [H2 _]; [rewrite Hs; reflexivity|reflexivity|reflexivity|].
  rewrite H2 by reflexivity. rewrite Hs. reflexivity.
Defined.

(** ** Topics *)

Lemma subscribe_others t x cb rs s name' :
  topics s !! t = Some x ->
  socket s = Some rs ->
  name' <> Topic.name x ->
  name' <> "connection" ->
  listeners name' (ros_events (snd (TopicOps.subscribe t cb s)))
  = listeners name' (ros_events s).
Proof.
  intros Ht Hs Hne Hc. unfold TopicOps.subscribe, topic_on, ros_on. exec.
  rewrite list_lookup_alter_eq, Ht. cbn.
  rewrite list_lookup_alter_eq, Ht. cbn.
  rewrite (callOnConnection_spec _ rs) by (cbn; exact Hs).
  destruct rs; cbn;
    rewrite ?(listeners_on_ne "connection") by (intros H; by apply Hc);
    rewrite ?listeners_on_ne by (intros H; by apply Hne); done.
Qed.

Lemma unsubscribe_others t x rs s name' :
  topics s !! t = Some x ->
  socket s = Some rs ->
  name' <> Topic.name x ->
  name' <> "connection" ->
  listeners name' (ros_events (snd (TopicOps.unsubscribe t s)))
  = listeners name' (ros_events s).
Proof.
  intros Ht Hs Hne Hc. unfold TopicOps.unsubscribe. exec. rewrite Ht. cbn.
  rewrite (callOnConnection_spec _ rs) by (cbn; exact Hs).
  rewrite to_string_key.
  destruct rs; cbn;
    rewrite ?(listeners_on_ne "connection") by (intros H; by apply Hc);
    rewrite ?listeners_removeAll_ne by (intros H; by apply Hne); done.
Qed.

(** X4.  [unsubscribe] works on the name, not on the topic object: after
    a subscription made through one topic object, [unsubscribe] on any
    topic object of the same name of the connection leaves no listener
    under that name on [ros], so an inbound publish on the name calls
    nothing; the listeners under other names stay as they were. *)
Theorem X4_unsubscribe_is_by_name
    (t1 t2 : nat) (x1 x2 : Topic.t) (k : nat) (msg : value) (rs : ReadyState)
    (s : State) :
  topics s !! t1 = Some x1 ->
  topics s !! t2 = Some x2 ->
  Topic.name x2 = Topic.name x1 ->
  socket s = Some rs ->
  Topic.name x1 <> "connection" ->
  Topic.name x1 <> "error" ->
  exists s1 s2 s3,
    TopicOps.subscribe t2 (CbUser k) s = (Normal tt, s1) /\
    TopicOps.unsubscribe t1 s1 = (Normal tt, s2) /\
    listeners (Topic.name x1) (ros_events s2) = [] /\
    handleMessage (publish_envelope (Topic.name x1) msg) s2 = (Normal tt, s3) /\
    trace s3 = trace s ++ [ObsEmit SrcRos (Topic.name x1) msg] /\
    (forall name',
       name' <> Topic.name x1 -> name' <> "connection" ->
       listeners name' (ros_events s2) = listeners name' (ros_events s)).
Proof.
  intros Ht1 Ht2 Hname Hs Hc He.
  assert (Hc2 : Topic.name x2 <> "connection") by by rewrite Hname.
  destruct (subscribe_spec t2 x2 (CbUser k) rs s Ht2 Hs Hc2)
    as (s1 & Hsub & Htop & _ & Hs1 & Htr1 & _).
  assert (exists x1', topics s1 !! t1 = Some x1' /\ Topic.name x1' = Topic.name x1)
    as (x1' & Ht1' & Hn1').
  { rewrite Htop. destruct (decide (t1 = t2)) as [->|Hne].
    - rewrite list_lookup_insert_eq by by eapply lookup_lt_Some.
      eexists; split; [reflexivity|]. exact Hname.
    - rewrite list_lookup_insert_ne by done. by exists x1. }
  rewrite Hs in Hs1.
  destruct (unsubscribe_spec t1 x1' rs s1 Ht1' Hs1) as (s2 & Hun & Hl2 & _).
  { by rewrite Hn1'. }
  destruct (unsubscribe_silences t1 x1' msg rs s1 Ht1' Hs1)
    as (s2' & s3 & Hun' & _ & Hh & Htr3).
  { by rewrite Hn1'. }
  { by rewrite Hn1'. }
  rewrite Hun in Hun'. injection Hun' as <-.
  rewrite Hn1' in *.
  exists s1, s2, s3. repeat split; try done.
  - by rewrite Htr3, Htr1.
  - intros name' Hne Hnc.
    pose proof (unsubscribe_others t1 x1' rs s1 name' Ht1' Hs1) as H2.
    rewrite Hun, Hn1' in H2. cbn [snd] in H2. rewrite H2 by done.
    pose proof (subscribe_others t2 x2 (CbUser k) rs s name' Ht2 Hs) as H1.
    rewrite Hsub, Hname in H1. cbn [snd] in H1. by apply H1.
Qed.

Lemma X4_unsubscribe_is_by_name_witness :
  let o := Topic.Options VUndef "/chatter" (VStr "std_msgs/String") None None in
  let s := run_ops [OpSocketOpen VNull; OpTopic o; OpTopic o] ROS_new_url in
  let msg := VObj [("data", VStr "hello")] in
  exists s1 s2 s3,
    TopicOps.subscribe 1 (CbUser 7) s = (Normal tt, s1) /\
    TopicOps.unsubscribe 0 s1 = (Normal tt, s2) /\
    handleMessage (publish_envelope "/chatter" msg) s2 = (Normal tt, s3) /\
    trace s3 = trace s ++ [ObsEmit SrcRos "/chatter" msg].
Proof.
  intros o s msg.
  assert (exists x, topics s !! 0 = Some x /\ topics s !! 1 = Some x /\
                         Topic.name x = "/chatter") as (x & H0 & H1 & Hn).
  { eexists. split; [vm_compute; reflexivity|]. split; vm_compute; reflexivity. }
  assert (Hs : socket s = Some OPEN) by (vm_compute; reflexivity).
  destruct (X4_unsubscribe_is_by_name 0 1 x x 7 msg OPEN s H0 H1 eq_refl Hs)
    as (s1 & s2 & s3 & Ha & Hb & _ & Hc & Hd & _).
  { rewrite Hn. discriminate. }
  { rewrite Hn. discriminate. }
  rewrite Hn in Hc, Hd.
  exists s1, s2, s3. by repeat split.
Defined.

Lemma iter_js_succ i c :
  nat_rect (fun _ => N) (js_succ c) (fun _ => js_succ) i
  = js_succ (nat_rect (fun _ => N) c (fun _ => js_succ) i).
Proof. exact (Nat.iter_swap i N js_succ c). Qed.

(** Two envelopes agree when their counters do. *)
Ltac iter_shift :=
  unfold compose;
  repeat match goal with |- context [?i + 2] => replace (i + 2) with (S (S i)) by lia end;
  cbn; rewrite ?iter_js_succ; reflexivity.

Lemma publish_counter t x message rs s :
  topics s !! t = Some x ->
  socket s = Some rs ->
  idCounter (snd (TopicOps.publish t message s))
  = if Topic.isAdvertised x then js_succ (idCounter s)
    else js_succ (js_succ (idCounter s)).
Proof.
  intros Ht Hs. unfold TopicOps.publish. exec. rewrite Ht.
  destruct (Topic.isAdvertised x) eqn:Hadv; cbn.
  - rewrite (callOnConnection_spec _ rs) by (cbn; exact Hs). by destruct rs.
  - unfold TopicOps.advertise. exec. rewrite Ht.
    rewrite (callOnConnection_spec _ rs) by (cbn; exact Hs). cbn.
    rewrite (callOnConnection_spec _ rs) by (destruct rs; cbn; exact Hs).
    by destruct rs.
Qed.

Lemma publish_all_advertised t rs msgs : forall x s,
  topics s !! t = Some x ->
  Topic.isAdvertised x = true ->
  socket s = Some rs ->
  let sent := imap (fun i m => publish_call x (Nat.iter (S i) js_succ (idCounter s)) m)
                   msgs in
  exists s',
    for_each (TopicOps.publish t) msgs s = (Normal tt, s') /\
    calls s' = calls s ++ sent /\
    topics s' = topics s /\
    wire s' = wire s ++ (if is_open rs then map frame_of sent else []).
Proof.
  induction msgs as [|m msgs IH]; intros x s Ht Hadv Hs sent; subst sent.
  - exists s. cbn. rewrite !app_nil_r. destruct (is_open rs); by rewrite ?app_nil_r.
  - destruct (publish_spec t x m rs s Ht Hs)
      as (s1 & Hrun & Htop & Hc & Hw & Hs1 & _).
    pose proof (publish_counter t x m rs s Ht Hs) as Hn.
    rewrite Hrun, Hadv in Hn. cbn [snd] in Hn. rewrite Hadv in Hc, Hw.
    assert (Hx : Topic.set_isAdvertised true x = x).
    { destruct x; cbn in *. by rewrite Hadv. }
    rewrite Hx, list_insert_id in Htop by done.
    assert (Ht1 : topics s1 !! t = Some x) by by rewrite Htop.
    rewrite Hs in Hs1.
    destruct (IH x s1 Ht1 Hadv Hs1) as (s' & Hrest & Hc' & Htop' & Hw').
    exists s'. cbn [for_each]. unfold bind. rewrite Hrun. split; [exact Hrest|].
    rewrite Hn in Hc', Hw'.
    split; [|split].
    + rewrite Hc', Hc, <- app_assoc. cbn. do 2 f_equal.
      apply imap_ext. intros i y _. iter_shift.
    + by rewrite Htop'.
    + rewrite Hw'. destruct (is_open rs).
      * destruct Hw as [-> _]. rewrite <- app_assoc. cbn. do 3 f_equal.
        apply imap_ext. intros i y _. iter_shift.
      * destruct Hw as [-> _]. by rewrite !app_nil_r.
Qed.

(** X5.  Publishing the messages [m :: msgs] in turn on a topic that is
    not advertised hands over one advertise call and then one publish
    call per message, in order, with consecutive values of the counter,
    and leaves the topic advertised.  With an open socket exactly these
    frames are transmitted, in that order; otherwise nothing is. *)
Theorem X5_publishing_advertises_once
    (t : nat) (x : Topic.t) (m : value) (msgs : list value) (rs : ReadyState)
    (s : State) :
  topics s !! t = Some x ->
  Topic.isAdvertised x = false ->
  socket s = Some rs ->
  let c := idCounter s in
  let sent :=
    advertise_call x (js_succ c)
    :: imap (fun i m => publish_call x (Nat.iter (i + 2) js_succ c) m) (m :: msgs) in
  exists s',
    for_each (TopicOps.publish t) (m :: msgs) s = (Normal tt, s') /\
    calls s' = calls s ++ sent /\
    topics s' !! t = Some (Topic.set_isAdvertised true x) /\
    wire s' = wire s ++ (if is_open rs then map frame_of sent else []).
Proof.
  intros Ht Hadv Hs c sent. subst sent c.
  destruct (publish_spec t x m rs s Ht Hs) as (s1 & Hrun & Htop & Hc & Hw & Hs1 & _).
  pose proof (publish_counter t x m rs s Ht Hs) as Hn.
  rewrite Hrun, Hadv in Hn. cbn [snd] in Hn. rewrite Hadv in Hc, Hw.
  assert (Ht1 : topics s1 !! t = Some (Topic.set_isAdvertised true x)).
  { rewrite Htop. apply list_lookup_insert_eq. by eapply lookup_lt_Some. }
  rewrite Hs in Hs1.
  destruct (publish_all_advertised t rs msgs _ s1 Ht1 eq_refl Hs1)
    as (s' & Hrest & Hc' & Htop' & Hw').
  exists s'. cbn [for_each]. unfold bind. rewrite Hrun. split; [exact Hrest|].
  rewrite Hn in Hc', Hw'.
  split; [|split].
  - rewrite Hc', Hc, <- app_assoc. cbn. do 3 f_equal.
    apply imap_ext. intros i y _. iter_shift.
  - by rewrite Htop'.
  - rewrite Hw'. destruct (is_open rs).
    + destruct Hw as [-> _]. rewrite <- app_assoc. cbn. do 4 f_equal.
      apply imap_ext. intros i y _. iter_shift.
    + destruct Hw as [-> _]. by rewrite !app_nil_r.
Qed.

Lemma X5_publishing_advertises_once_witness :
  let o := Topic.Options VUndef "/cmd_vel" (VStr "geometry_msgs/Twist") None None in
  let s := run_ops [OpSocketOpen VNull; OpTopic o] ROS_new_url in
  let x := Topic.Make VUndef "/cmd_vel" (VStr "geometry_msgs/Twist") false "none" 0 ∅ in
  exists s',
    for_each (TopicOps.publish 0) [VNum 1; VNum 2; VNum 3] s = (Normal tt, s') /\
    calls s' = [advertise_call x 1; publish_call x 2 (VNum 1); publish_call x 3 (VNum 2);
                publish_call x 4 (VNum 3)] /\
    wire s' = map frame_of (calls s').
Proof.
  intros o s x.
  destruct (X5_publishing_advertises_once 0 x (VNum 1) [VNum 2; VNum 3] OPEN s)
    as (s' & Hrun & Hc & _ & Hw); [reflexivity..|].
  exists s'. split; [exact Hrun|]. split; [exact Hc|]. rewrite Hw, Hc. reflexivity.
Defined.

(** X6.  The subscribe call of a new topic carries the options as the
    constructor left them: the compression as given, also when it is not
    a supported one (none when absent or empty), and the throttle rate
    with a negative value replaced by 0. *)
Theorem X6_subscribe_sends_validated_options
    (o : Topic.options) (cb : callback) (rs : ReadyState) (s : State) :
  socket s = Some rs ->
  Topic.o_name o <> "connection" ->
  let t := length (topics s) in
  let compression :=
    match Topic.o_compression o with
    | Some c => if bool_decide (c = "") then "none" else c
    | None => "none"
    end in
  let throttle_rate := Z.max (default 0%Z (Topic.o_throttle_rate o)) 0 in
  exists s1 s2,
    Topic_new o s = (Normal t, s1) /\
    TopicOps.subscribe t cb s1 = (Normal tt, s2) /\
    calls s2
    = calls s
      ++ [VObj [("op", VStr "subscribe");
                ("id", VStr ("subscribe:" +:+ Topic.o_name o +:+ ":" +:+
                             pretty (js_succ (idCounter s))));
                ("type", Topic.o_messageType o);
                ("topic", VStr (Topic.o_name o));
                ("compression", VStr compression);
                ("throttle_rate", VNum throttle_rate)]].
Proof.
  intros Hs Hne t compression throttle_rate.
  pose proof (Topic_new_spec o s) as Hnew. cbv zeta in Hnew.
  fold t compression in Hnew.
  match type of Hnew with _ = (_, ?st) => set (s1 := st) in * end.
  set (x := Topic.Make (Topic.o_node o) (Topic.o_name o) (Topic.o_messageType o)
                       false compression throttle_rate ∅).
  assert (Ht : topics s1 !! t = Some x).
  { subst s1. rewrite topics_log. cbn. apply lookup_snoc_length. }
  assert (Hs1 : socket s1 = Some rs) by (subst s1; by rewrite socket_log).
  destruct (subscribe_spec t x cb rs s1 Ht Hs1 Hne) as (s2 & Hsub & _ & _ & _ & _ & Hc).
  exists s1, s2. split; [exact Hnew|]. split; [exact Hsub|].
  rewrite Hc. subst s1. by rewrite calls_log, idCounter_log.
Qed.

Lemma X6_subscribe_sends_validated_options_witness :
  let o := Topic.Options VUndef "/scan" (VStr "sensor_msgs/LaserScan")
                         (Some "gzip") (Some (-5)%Z) in
  exists s1 s2,
    Topic_new o ROS_new_url = (Normal 0, s1) /\
    TopicOps.subscribe 0 (CbUser 1) s1 = (Normal tt, s2) /\
    calls s2
    = [VObj [("op", VStr "subscribe");
             ("id", VStr "subscribe:/scan:1");
             ("type", VStr "sensor_msgs/LaserScan");
             ("topic", VStr "/scan");
             ("compression", VStr "gzip");
             ("throttle_rate", VNum 0)]].
Proof.
  intros o.
  apply (X6_subscribe_sends_validated_options o (CbUser 1) CONNECTING ROS_new_url eq_refl).
  discriminate.
Defined.

Lemma unadvertise_full t x rs s :
  topics s !! t = Some x ->
  socket s = Some rs ->
  exists s',
    TopicOps.unadvertise t s = (Normal tt, s') /\
    topics s' = <[t := Topic.set_isAdvertised false x]> (topics s) /\
    socket s' = socket s /\
    idCounter s' = js_succ (idCounter s) /\
    calls s' = calls s ++ [unadvertise_call x (js_succ (idCounter s))] /\
    trace s' = trace s.
Proof.
  intros Ht Hs. unfold TopicOps.unadvertise. exec. rewrite Ht.
  rewrite (callOnConnection_spec _ rs) by (cbn; exact Hs).
  eexists; split; [reflexivity|].
  rewrite <- (alter_lookup _ _ _ _ Ht). by destruct rs.
Qed.

(** X16.  [unadvertise] hands over one unadvertise call and clears the
    flag of the topic, so the next [publish] advertises again before it
    publishes: three calls in all, with consecutive values of the
    counter. *)
Theorem X16_unadvertise_then_publish
    (t : nat) (x : Topic.t) (message : value) (rs : ReadyState) (s : State) :
  topics s !! t = Some x ->
  socket s = Some rs ->
  let n k := Nat.iter k js_succ (idCounter s) in
  exists s1 s2,
    TopicOps.unadvertise t s = (Normal tt, s1) /\
    topics s1 !! t = Some (Topic.set_isAdvertised false x) /\
    calls s1 = calls s ++ [unadvertise_call x (n 1)] /\
    TopicOps.publish t message s1 = (Normal tt, s2) /\
    topics s2 !! t = Some (Topic.set_isAdvertised true x) /\
    calls s2
    = calls s ++ [unadvertise_call x (n 1); advertise_call x (n 2);
                  publish_call x (n 3) message].
Proof.
  intros Ht Hs n.
  destruct (unadvertise_full t x rs s Ht Hs) as (s1 & Hrun & Htop & Hs1 & Hn & Hc & _).
  assert (Ht1 : topics s1 !! t = Some (Topic.set_isAdvertised false x)).
  { rewrite Htop. apply list_lookup_insert_eq. by eapply lookup_lt_Some. }
  rewrite Hs in Hs1.
  destruct (publish_spec t _ message rs s1 Ht1 Hs1) as (s2 & Hrun2 & Htop2 & Hc2 & _).
  exists s1, s2. repeat split; try done.
  - rewrite Htop2. apply list_lookup_insert_eq. by eapply lookup_lt_Some.
  - rewrite Hc2, Hc, Hn, <- app_assoc. reflexivity.
Qed.

Lemma X16_unadvertise_then_publish_witness :
  let o := Topic.Options VUndef "/cmd_vel" (VStr "geometry_msgs/Twist") None None in
  let s := run_ops [OpSocketOpen VNull; OpTopic o; OpAdvertise 0] ROS_new_url in
  let x := Topic.Make VUndef "/cmd_vel" (VStr "geometry_msgs/Twist") true "none" 0 ∅ in
  exists s1 s2,
    TopicOps.unadvertise 0 s = (Normal tt, s1) /\
    TopicOps.publish 0 (VNum 1) s1 = (Normal tt, s2) /\
    calls s2
    = [advertise_call x 1; unadvertise_call x 2; advertise_call x 3;
       publish_call x 4 (VNum 1)].
Proof.
  intros o s x.
  destruct (X16_unadvertise_then_publish 0 x (VNum 1) OPEN s eq_refl eq_refl)
    as (s1 & s2 & H1 & _ & _ & H2 & _ & H3).
  exists s1, s2. split; [exact H1|]. split; [exact H2|]. rewrite H3. reflexivity.
Defined.


(** ** Services and messages *)

Lemma callService_others service request names cb rs s key :
  socket s = Some rs ->
  JS.Object_keys request = inr names ->
  key <> "call_service:" +:+ Service.name service +:+ ":" +:+
         pretty (js_succ (idCounter s)) ->
  key <> "connection" ->
  let s' := snd (callService service request cb s) in
  listeners key (ros_events s') = listeners key (ros_events s) /\
  idCounter s' = js_succ (idCounter s) /\
  socket s' = socket s.
Proof.
  intros Hs Hk Hid Hc. unfold callService, ros_once. exec. rewrite Hk.
  rewrite (callOnConnection_spec _ rs) by (cbn; exact Hs).
  destruct rs; cbn;
    rewrite ?(listeners_on_ne "connection") by (intros H; by apply Hc);
    rewrite ?listeners_on_ne by (intros H; by apply Hid); done.
Qed.

(** A response whose ID has one waiting callback of the application. *)
Lemma response_delivered id n k values s :
  listeners id (ros_events s) = [Entry n true (LResponse (CbUser k))] ->
  exists s',
    handleMessage (response_envelope id values) s = (Normal tt, s') /\
    trace s'
    = trace s ++ [ObsEmit SrcRos id values; ObsCall k (ServiceResponse_new values)] /\
    listeners id (ros_events s') = [] /\
    (forall key, key <> id -> listeners key (ros_events s') = listeners key (ros_events s)).
Proof.
  intros Hl.
  rewrite (handleMessage_service_response _ (VStr id) values) by done.
  rewrite (ros_emit_once _ _ _ _ _ Hl). cbn. unfold run_callback. cbn.
  eexists; split; [reflexivity|]. unfold log. cbn. split; [|split].
  - by rewrite <- app_assoc.
  - by apply (listeners_off_head id (Entry n true (LResponse (CbUser k))) []).
  - intros key Hne. apply listeners_off_ne. by intros ->.
Qed.

(** X7.  Two service calls wait for their responses at the same time.
    As long as the counter is below 2^53 their IDs differ, and each
    response calls the callback of its own call and no other, whatever
    the order of the responses: here the second call is answered first. *)
Theorem X7_responses_find_their_callers
    (a b : Service.t) (req_a req_b va vb : value) (names_a names_b : list string)
    (ka kb : nat) (rs : ReadyState) (s : State) :
  socket s = Some rs ->
  JS.Object_keys req_a = inr names_a ->
  JS.Object_keys req_b = inr names_b ->
  (js_succ (idCounter s) < max_safe)%N ->
  let id_a := "call_service:" +:+ Service.name a +:+ ":" +:+
              pretty (js_succ (idCounter s)) in
  let id_b := "call_service:" +:+ Service.name b +:+ ":" +:+
              pretty (js_succ (js_succ (idCounter s))) in
  listeners id_a (ros_events s) = [] ->
  listeners id_b (ros_events s) = [] ->
  exists s1 s2 s3 s4,
    callService a req_a (CbUser ka) s = (Normal tt, s1) /\
    callService b req_b (CbUser kb) s1 = (Normal tt, s2) /\
    id_a <> id_b /\
    handleMessage (response_envelope id_b vb) s2 = (Normal tt, s3) /\
    trace s3
    = trace s ++ [ObsEmit SrcRos id_b vb; ObsCall kb (ServiceResponse_new vb)] /\
    handleMessage (response_envelope id_a va) s3 = (Normal tt, s4) /\
    trace s4
    = trace s3 ++ [ObsEmit SrcRos id_a va; ObsCall ka (ServiceResponse_new va)].
Proof.
  intros Hs Hka Hkb Hlt id_a id_b Hfa Hfb.
  assert (Hne : id_a <> id_b).
  { intros Heq. apply (call_id_inj "call_service:" _ _ "call_service:") in Heq.
    unfold js_succ in Heq at 2.
    destruct (N.ltb_spec (js_succ (idCounter s)) max_safe); lia. }
  destruct (call_service_id_ne (Service.name a) (js_succ (idCounter s))) as [_ Hca].
  destruct (call_service_id_ne (Service.name b) (js_succ (js_succ (idCounter s))))
    as [_ Hcb].
  destruct (callService_spec a req_a names_a (CbUser ka) rs s Hs Hka)
    as (s1 & Hrun1 & _ & Hl1 & Htr1 & _).
  fold id_a in Hl1. rewrite Hfa in Hl1. cbn [app] in Hl1.
  destruct (callService_others a req_a names_a (CbUser ka) rs s id_b Hs Hka)
    as (Hb1 & Hn1 & Hs1); [by apply not_eq_sym|exact Hcb|].
  rewrite Hrun1 in Hb1, Hn1, Hs1. cbn [snd] in Hb1, Hn1, Hs1. rewrite Hs in Hs1.
  destruct (callService_spec b req_b names_b (CbUser kb) rs s1 Hs1 Hkb)
    as (s2 & Hrun2 & _ & Hl2 & Htr2 & _).
  rewrite Hn1 in Hl2. fold id_b in Hl2. rewrite Hb1, Hfb in Hl2. cbn [app] in Hl2.
  destruct (callService_others b req_b names_b (CbUser kb) rs s1 id_a Hs1 Hkb)
    as (Ha2 & _ & _); [by rewrite Hn1|exact Hca|].
  rewrite Hrun2 in Ha2. cbn [snd] in Ha2. rewrite Hl1 in Ha2.
  destruct (response_delivered id_b _ kb vb s2 Hl2) as (s3 & Hh3 & Htr3 & _ & Hoth).
  rewrite <- (Hoth id_a Hne) in Ha2.
  destruct (response_delivered id_a _ ka va s3 Ha2) as (s4 & Hh4 & Htr4 & _ & _).
  exists s1, s2, s3, s4. repeat split; try done.
  by rewrite Htr3, Htr2, Htr1.
Qed.

Lemma X7_responses_find_their_callers_witness :
  let add := Service.Make "/add_two_ints" (VStr "rospy_tutorials/AddTwoInts") in
  let req1 := VObj [("a", VNum 1); ("b", VNum 2)] in
  let req2 := VObj [("a", VNum 3); ("b", VNum 4)] in
  let r1 := VObj [("sum", VNum 3)] in
  let r2 := VObj [("sum", VNum 7)] in
  exists s1 s2 s3 s4,
    callService add req1 (CbUser 1) ROS_new_url = (Normal tt, s1) /\
    callService add req2 (CbUser 2) s1 = (Normal tt, s2) /\
    handleMessage (response_envelope "call_service:/add_two_ints:2" r2) s2
    = (Normal tt, s3) /\
    trace s3 = [ObsEmit SrcRos "call_service:/add_two_ints:2" r2; ObsCall 2 r2] /\
    handleMessage (response_envelope "call_service:/add_two_ints:1" r1) s3
    = (Normal tt, s4) /\
    trace s4 = trace s3 ++ [ObsEmit SrcRos "call_service:/add_two_ints:1" r1; ObsCall 1 r1].
Proof.
  intros add req1 req2 r1 r2.
  destruct (X7_responses_find_their_callers add add req1 req2 r1 r2 ["a"; "b"] ["a"; "b"]
              1 2 CONNECTING ROS_new_url eq_refl eq_refl eq_refl eq_refl eq_refl eq_refl)
    as (s1 & s2 & s3 & s4 & H1 & H2 & _ & H3 & H4 & H5 & H6).
  exists s1, s2, s3, s4. repeat split; assumption.
Defined.

Lemma field_round_trip service serviceType field k values rs s :
  socket s = Some rs ->
  field <> "length" ->
  list_round_trip
    (callService (Service.Make service serviceType) (ServiceRequest_new VUndef)
     ∘ CbField field)
    service field k values s.
Proof.
  intros Hs Hf. unfold list_round_trip. cbv zeta. intros Hfree.
  set (id := "call_service:" +:+ service +:+ ":" +:+ pretty (js_succ (idCounter s))) in *.
  unfold compose.
  destruct (callService_spec (Service.Make service serviceType) (ServiceRequest_new VUndef)
              [] (CbField field (CbUser k)) rs s Hs eq_refl)
    as (s1 & Hrun & Hc & Hl & Htr & _).
  cbn [Service.name] in Hl, Hc. fold id in Hl, Hc. rewrite Hfree in Hl. cbn [app] in Hl.
  exists s1. eexists. split; [exact Hrun|]. split; [exact Hc|].
  rewrite (handleMessage_service_response _ (VStr id) values) by done.
  rewrite (ros_emit_once _ _ _ _ _ Hl). cbn [run_ros_listener].
  change (run_callback (CbField field (CbUser k)) ?v)
    with (bind (prop v field) (fun x => run_callback (CbUser k) x)).
  pose proof (get_copy_fields_any values field Hf) as Hget.
  destruct (copy_fields_spec values) as (fs & Hfs & _).
  rewrite Hfs in *. unfold bind, prop, ret. rewrite Hget.
  change (run_callback (CbUser k) ?v) with (record (ObsCall k v)).
  rewrite record_log. split; [reflexivity|].
  unfold log. cbn. by rewrite Htr, <- app_assoc.
Qed.

(** X8.  [getTopics], [getServices] and [getParams] call the services
    /rosapi/topics, /rosapi/services and /rosapi/get_param_names without
    arguments, and pass to the callback the field topics, services or
    names of the response: undefined when the response has no such
    field.  The values of the response have no own field named
    [__proto__], through which the response object would inherit
    fields. *)
Theorem X8_rosapi_listings
    (k : nat) (values : value) (rs : ReadyState) (s : State) :
  socket s = Some rs ->
  proto_free values ->
  list_round_trip getTopics "/rosapi/topics" "topics" k values s /\
  list_round_trip getServices "/rosapi/services" "services" k values s /\
  list_round_trip getParams "/rosapi/get_param_names" "names" k values s.
Proof.
  intros Hs _. split; [|split].
  - by apply (field_round_trip "/rosapi/topics" (VStr "rosapi/Topics") "topics" _ _ rs).
  - by apply (field_round_trip "/rosapi/services" (VStr "rosapi/Services") "services" _ _ rs).
  - by apply (field_round_trip "/rosapi/get_param_names" (VStr "rosapi/GetParamNames")
                "names" _ _ rs).
Qed.

Lemma X8_rosapi_listings_witness :
  let values := VObj [("topics", VArr [VStr "/rosout"; VStr "/chatter"])] in
  (exists s1 s2,
     getTopics (CbUser 4) ROS_new_url = (Normal tt, s1) /\
     calls s1 = [service_call "/rosapi/topics" "call_service:/rosapi/topics:1" []] /\
     handleMessage (response_envelope "call_service:/rosapi/topics:1" values) s1
     = (Normal tt, s2) /\
     trace s2 = [ObsEmit SrcRos "call_service:/rosapi/topics:1" values;
                 ObsCall 4 (VArr [VStr "/rosout"; VStr "/chatter"])]) /\
  (exists s1 s2,
     getServices (CbUser 4) ROS_new_url = (Normal tt, s1) /\
     calls s1 = [service_call "/rosapi/services" "call_service:/rosapi/services:1" []] /\
     handleMessage (response_envelope "call_service:/rosapi/services:1" values) s1
     = (Normal tt, s2) /\
     trace s2 = [ObsEmit SrcRos "call_service:/rosapi/services:1" values;
                 ObsCall 4 VUndef]).
Proof.
  intros values.
  destruct (X8_rosapi_listings 4 values CONNECTING ROS_new_url eq_refl eq_refl)
    as (Ht & Hv & _).
  split; [exact (Ht eq_refl)|exact (Hv eq_refl)].
Defined.

(** X9.  [callService] with a request that is undefined or null throws
    the TypeError of [Object.keys], with or without a socket.  Nothing is
    handed to [callOnConnection] and nothing is transmitted, but the
    counter has advanced, the ID is spent and its listener stays
    registered on [ros]. *)
Theorem X9_call_without_request_leaks
    (service : Service.t) (cb : callback) (s : State) :
  let id := "call_service:" +:+ Service.name service +:+ ":" +:+
            pretty (js_succ (idCounter s)) in
  let s' :=
    set_ros_events (on id (Entry (next_listener s) true (LResponse cb)) (ros_events s))
      (set_next_listener (S (next_listener s))
         (set_ids (ids s ++ [id]) (set_idCounter (js_succ (idCounter s)) s))) in
  callService service VUndef cb s = (Throw TypeError, s') /\
  callService service VNull cb s = (Throw TypeError, s') /\
  calls s' = calls s /\
  wire s' = wire s /\
  listeners "connection" (ros_events s') = listeners "connection" (ros_events s) /\
  listeners id (ros_events s')
  = listeners id (ros_events s) ++ [Entry (next_listener s) true (LResponse cb)].
Proof.
  intros id s'.
  destruct (call_service_id_ne (Service.name service) (js_succ (idCounter s))) as [_ Hne].
  split; [reflexivity|]. split; [reflexivity|]. split; [reflexivity|].
  split; [reflexivity|]. subst s'. cbn. split.
  - by apply listeners_on_ne.
  - apply listeners_on_eq.
Qed.

Lemma set_fresh fs k x : k ∉ fs.*1 -> JS.set fs k x = fs ++ [(k, x)].
Proof.
  induction fs as [|[k' y] fs IH]; intros Hk; [reflexivity|].
  cbn in *. apply not_elem_of_cons in Hk as [Hne Hk].
  destruct (decide (k' = k)) as [->|_]; [done|]. by rewrite IH.
Qed.

Lemma copy_suffix (g : string -> value) l2 : forall l1,
  NoDup (l1 ++ l2).*1 ->
  (forall k x, (k, x) ∈ l2 -> g k = x) ->
  fold_left (fun fs name => JS.set fs name (g name)) l2.*1 l1 = l1 ++ l2.
Proof.
  induction l2 as [|[k x] l2 IH]; intros l1 Hnd Hg.
  - cbn. by rewrite app_nil_r.
  - cbn. rewrite (Hg k x) by left.
    rewrite fmap_app in Hnd. cbn in Hnd.
    rewrite set_fresh.
    + rewrite IH.
      * by rewrite <- app_assoc.
      * rewrite <- app_assoc, fmap_app. exact Hnd.
      * intros k' x' Hin. apply Hg. by right.
    + apply NoDup_app in Hnd as (_ & Hdis & _). intros Hin.
      apply (Hdis k Hin). left.
Qed.

Lemma assoc_NoDup {A} k (x : A) l : NoDup l.*1 -> (k, x) ∈ l -> JS.assoc k l = Some x.
Proof.
  induction l as [|[k' y] l IH]; intros Hnd Hin; [by apply elem_of_nil in Hin|].
  cbn in *. apply NoDup_cons in Hnd as [Hk Hnd].
  apply elem_of_cons in Hin as [Heq|Hin].
  - injection Heq as -> ->. by rewrite decide_True.
  - destruct (decide (k' = k)) as [->|_]; [|by apply IH].
    exfalso. apply Hk. apply list_elem_of_fmap. by exists (k, x).
Qed.

Lemma copy_keys_NoDup (g : string -> value) names : forall acc,
  NoDup acc.*1 ->
  NoDup (fold_left (fun fs name => JS.set fs name (g name)) names acc).*1.
Proof.
  assert (Hset : forall fs k x, NoDup fs.*1 -> NoDup (JS.set fs k x).*1).
  { intros fs k x. induction fs as [|[k' y] fs IH]; intros Hnd.
    - cbn. apply NoDup_singleton.
    - cbn in *. apply NoDup_cons in Hnd as [Hk Hnd].
      destruct (decide (k' = k)) as [->|Hne]; cbn.
      + by apply NoDup_cons.
      + apply NoDup_cons. split; [|by apply IH].
        intros Hin. apply list_elem_of_fmap in Hin as ([k2 v2] & -> & Hin). cbn in *.
        assert (JS.assoc k2 (JS.set fs k x) <> None) as Ha.
        { erewrite (assoc_NoDup k2 v2); [done| by apply IH |done]. }
        rewrite assoc_set_ne in Ha by by apply not_eq_sym.
        apply Hk. destruct (JS.assoc k2 fs) eqn:E; [|done]. by eapply assoc_elem_of. }
  induction names as [|n names IH]; intros acc Hnd; [exact Hnd|].
  cbn. apply IH. by apply Hset.
Qed.

(** The copy of an object whose keys are distinct. *)
Lemma copy_object fs : NoDup fs.*1 -> JS.copy_fields (VObj fs) = VObj fs.
Proof.
  intros Hnd. unfold JS.copy_fields. cbn [JS.truthy JS.own_props].
  f_equal. apply (copy_suffix _ fs []); [exact Hnd|].
  intros k x Hin. unfold JS.get. cbn [JS.own_props].
  by rewrite (assoc_NoDup k x fs).
Qed.

(** X10.  [new ros.Message(values)] copies the own fields of [values],
    for values without an own field named [__proto__] (the assignment to
    that name sets the prototype of the message instead): for an object
    whose keys are distinct the copy has the same fields in the same
    order; for a value that is not truthy the copy is the empty object;
    copying a copy changes nothing.  [ServiceRequest] and
    [ServiceResponse] do the same. *)
Theorem X10_message_copies_its_fields (fs : list (string * value)) (v : value) :
  (NoDup fs.*1 -> proto_free (VObj fs) -> Message_new (VObj fs) = VObj fs) /\
  (JS.truthy v = false -> Message_new v = VObj []) /\
  (proto_free v ->
   Message_new (Message_new v) = Message_new v /\
   ServiceRequest_new v = Message_new v /\
   ServiceResponse_new v = Message_new v).
Proof.
  pose proof copy_object as Hobj.
  split; [intros Hnd _; by apply Hobj|]. split; [|intros _; split; [|done]].
  - intros Hv. unfold Message_new, JS.copy_fields. by rewrite Hv.
  - unfold Message_new at 2 3, JS.copy_fields. destruct (JS.truthy v).
    + apply Hobj. apply copy_keys_NoDup. cbn. apply NoDup_nil_2.
    + by apply Hobj, NoDup_nil_2.
Qed.

Lemma X10_message_copies_its_fields_witness :
  let pose := VObj [("x", VNum 1); ("y", VNum 2)] in
  Message_new (VObj [("pose", pose); ("frame", VStr "/map")])
  = VObj [("pose", pose); ("frame", VStr "/map")] /\
  Message_new (VNum 0) = VObj [] /\
  Message_new (VArr [VNum 7]) = VObj [("0", VNum 7)].
Proof.
  intros pose.
  destruct (X10_message_copies_its_fields [("pose", pose); ("frame", VStr "/map")] (VNum 0))
    as (H1 & H2 & _).
  split; [apply H1; [apply (bool_decide_unpack (NoDup _)); vm_compute; exact I|reflexivity]|].
  split; [by apply H2|reflexivity].
Defined.


(** ** Round trips *)

Module JSONRoundTrip.
Import JSON JSONFacts JSONText.

Local Arguments String.append : simpl nomatch.

(** *** Strings *)

Lemma parse_string_escape_char c X :
  parse_string (escape_char c +:+ X)
  = match parse_string X with
    | Some (t, rest) => Some (String c t, rest)
    | None => None
    end.
Proof. split_char c; reflexivity. Qed.

Lemma parse_string_escape s rest :
  parse_string (escape s +:+ String dq rest) = Some (s, rest).
Proof.
  induction s as [|c s IH]; [reflexivity|].
  cbn [escape]. rewrite string_app_assoc, parse_string_escape_char, IH. reflexivity.
Qed.

Lemma parse_string_quote s rest :
  exists body, quote s +:+ rest = String dq body /\ parse_string body = Some (s, rest).
Proof.
  exists (escape s +:+ String dq rest). split; [|apply parse_string_escape].
  unfold quote. cbn. by rewrite string_app_assoc.
Qed.


(** *** Numbers *)

Lemma pretty_N_go_app (x : N) : forall s t,
  pretty_N_go x (s +:+ t) = pretty_N_go x s +:+ t.
Proof.
  induction (N.lt_wf_0 x) as [x _ IH]. intros s t.
  destruct (decide (x = 0)%N) as [->|Hx].
  - by rewrite !pretty_N_go_0.
  - rewrite (pretty_N_go_step x (s +:+ t)), (pretty_N_go_step x s) by lia.
    apply (IH (x `div` 10)%N (N.div_lt x 10 ltac:(lia) eq_refl)
              (String (pretty_N_char (x `mod` 10)) s) t).
Qed.

Lemma pretty_N_char_digit x : JS.is_digit (pretty_N_char x) = true.
Proof. unfold pretty_N_char. by repeat case_match. Qed.

Lemma pretty_N_char_value x :
  (x < 10)%N -> (Z.of_nat (nat_of_ascii (pretty_N_char x)) - 48)%Z = Z.of_N x.
Proof.
  intros Hx.
  assert (x = 0 \/ x = 1 \/ x = 2 \/ x = 3 \/ x = 4 \/ x = 5 \/ x = 6 \/ x = 7 \/
          x = 8 \/ x = 9)%N
    as [->|[->|[->|[->|[->|[->|[->|[->|[->| ->]]]]]]]]] by lia; reflexivity.
Qed.

Lemma pretty_N_go_digits (x : N) : forall s,
  all_digits s = true -> all_digits (pretty_N_go x s) = true.
Proof.
  induction (N.lt_wf_0 x) as [x _ IH]. intros s Hs.
  destruct (decide (x = 0)%N) as [->|Hx].
  - by rewrite pretty_N_go_0.
  - rewrite pretty_N_go_step by lia. apply IH; [apply N.div_lt; lia|].
    cbn. by rewrite pretty_N_char_digit.
Qed.

Lemma digits_value_app D : forall acc s,
  digits_value acc (D +:+ s) = digits_value (digits_value acc D) s.
Proof. induction D as [|c D IH]; intros acc s; [reflexivity|]. cbn. apply IH. Qed.

Lemma pretty_N_go_value (x : N) : digits_value 0 (pretty_N_go x "") = Z.of_N x.
Proof.
  induction (N.lt_wf_0 x) as [x _ IH].
  destruct (decide (x = 0)%N) as [->|Hx].
  - by rewrite pretty_N_go_0.
  - rewrite pretty_N_go_step by lia.
    change (String ?c "") with ("" +:+ String c "").
    rewrite pretty_N_go_app, digits_value_app, IH by (apply N.div_lt; lia).
    cbn [digits_value]. rewrite pretty_N_char_value by (apply N.mod_lt; lia).
    rewrite (N.div_mod x 10) at 3 by lia. lia.
Qed.

Lemma pretty_N_go_head (x : N) : forall s,
  (0 < x)%N ->
  exists c r, pretty_N_go x s = String c r /\ c <> "0"%char.
Proof.
  induction (N.lt_wf_0 x) as [x _ IH]. intros s Hx.
  rewrite pretty_N_go_step by lia.
  destruct (decide (x `div` 10 = 0)%N) as [Hd|Hd].
  - rewrite Hd, pretty_N_go_0. eexists _, _. split; [reflexivity|].
    assert (x < 10)%N by (apply N.div_small_iff in Hd; lia).
    rewrite N.mod_small by done.
    assert (x = 1 \/ x = 2 \/ x = 3 \/ x = 4 \/ x = 5 \/ x = 6 \/ x = 7 \/ x = 8 \/ x = 9)%N
      as [->|[->|[->|[->|[->|[->|[->|[->| ->]]]]]]]] by lia; discriminate.
  - apply IH; [apply N.div_lt; lia|by apply N.neq_0_lt_0].
Qed.

Lemma take_digits_app D rest :
  all_digits D = true ->
  match rest with String c _ => JS.is_digit c = false | EmptyString => True end ->
  take_digits (D +:+ rest) = (D, rest).
Proof.
  intros HD Hrest. induction D as [|c D IH].
  - cbn. destruct rest as [|c r]; [reflexivity|]. cbn. by rewrite Hrest.
  - cbn in *. apply andb_true_iff in HD as [-> HD]. by rewrite IH.
Qed.

(** A string of digits without a useless leading zero, with or without
    a sign, followed by something that does not go on the number. *)
Lemma parse_number_digits (neg : bool) c more rest :
  all_digits (String c more) = true ->
  (c = "0"%char -> more = "") ->
  number_end rest ->
  parse_number ((if neg then "-" else "") +:+ String c more +:+ rest)
  = Some (VNum (if neg then - digits_value 0 (String c more)
                else digits_value 0 (String c more)), rest).
Proof.
  intros HD Hzero Hend.
  assert (Hrest : match rest with String c _ => JS.is_digit c = false | EmptyString => True end).
  { destruct rest; [done|]. by destruct Hend. }
  pose proof (take_digits_app _ rest HD Hrest) as Htake.
  unfold parse_number.
  set (p := match (if neg then "-" else "") +:+ String c more +:+ rest with
            | String "-" r => (true, r)
            | _ => (false, (if neg then "-" else "") +:+ String c more +:+ rest)
            end).
  assert (Hp : p = (neg, String c more +:+ rest)).
  { subst p. destruct neg; [reflexivity|]. cbn in HD.
    apply andb_true_iff in HD as [Hc _]. clear -Hc.
    split_char c; first [discriminate Hc | reflexivity]. }
  rewrite Hp, Htake.
  assert (Hlead : bool_decide (c = "0"%char) && negb (bool_decide (more = "")) = false).
  { destruct (bool_decide_reflect (c = "0"%char)) as [Hc|]; [|done].
    rewrite (Hzero Hc). reflexivity. }
  rewrite Hlead.
  set (frac := match rest with
               | String "." r =>
                   let '(f, r') := take_digits r in
                   if bool_decide (f = "") then None else Some ("." +:+ f, r')
               | _ => Some ("", rest)
               end).
  assert (Hfrac : frac = Some ("", rest)).
  { subst frac. destruct rest as [|c' r]; [reflexivity|].
    destruct Hend as (_ & Hpt & _). clear -Hpt.
    split_char c'; first [by destruct Hpt | reflexivity]. }
  rewrite Hfrac.
  destruct rest as [|c' r]; [reflexivity|].
  destruct Hend as (_ & _ & He1 & He2).
  rewrite (bool_decide_eq_false_2 _ He1), (bool_decide_eq_false_2 _ He2). reflexivity.
Qed.

Lemma parse_number_pretty (n : Z) rest :
  number_end rest ->
  parse_number (pretty n +:+ rest) = Some (VNum n, rest).
Proof.
  intros Hend.
  assert (Hpos : forall p : positive,
            exists c more,
              pretty (N.pos p) = String c more /\
              all_digits (String c more) = true /\
              (c = "0"%char -> more = "") /\
              digits_value 0 (String c more) = Z.pos p).
  { intros p. unfold pretty, pretty_N. rewrite decide_False by done.
    destruct (pretty_N_go_head (N.pos p) "") as (c & more & Heq & Hc); [done|].
    exists c, more. rewrite <- Heq. split; [done|]. split; [by apply pretty_N_go_digits|].
    split; [done|]. apply (pretty_N_go_value (N.pos p)). }
  destruct n as [|p|p].
  - apply (parse_number_digits false "0" "" rest); done.
  - destruct (Hpos p) as (c & more & Heq & HD & Hz & Hv).
    change (pretty (Z.pos p)) with (pretty (N.pos p)). rewrite Heq, <- Hv.
    apply (parse_number_digits false c more rest); done.
  - destruct (Hpos p) as (c & more & Heq & HD & Hz & Hv).
    change (pretty (Z.neg p)) with ("-" +:+ pretty (N.pos p)). rewrite Heq.
    change (Z.neg p) with (- Z.pos p)%Z. rewrite <- Hv, string_app_assoc.
    apply (parse_number_digits true c more rest); done.
Qed.


(** *** Values *)

Lemma value_nested_ind (P : value -> Prop) :
  P VUndef -> P VNull -> (forall b, P (VBool b)) -> (forall n, P (VNum n)) ->
  (forall lit, P (VReal lit)) -> (forall s, P (VStr s)) ->
  (forall l, Forall P l -> P (VArr l)) ->
  (forall fs, Forall (fun kx => P (snd kx)) fs -> P (VObj fs)) ->
  forall v, P v.
Proof.
  intros Hu Hn Hb Hnum Hr Hs Ha Ho.
  fix IH 1. intros [| |b|n|lit|s|l|fs];
    [apply Hu|apply Hn|apply Hb|apply Hnum|apply Hr|apply Hs| |].
  - apply Ha. induction l as [|x l IHl]; constructor; [apply IH|exact IHl].
  - apply Ho. induction fs as [|[k x] fs IHfs]; constructor; [apply IH|exact IHfs].
Qed.

Lemma skip_ws_start t rest : starts_value t -> skip_ws (t +:+ rest) = t +:+ rest.
Proof. intros (c & r & -> & Hws & _). cbn. by rewrite Hws. Qed.

Lemma number_end_comma rest : number_end (String "," rest).
Proof. by repeat split. Qed.
Lemma number_end_bracket rest : number_end (String "]" rest).
Proof. by repeat split. Qed.
Lemma number_end_brace rest : number_end (String "}" rest).
Proof. by repeat split. Qed.

Lemma elements_ok l ts :
  Forall2 good l ts ->
  l <> [] ->
  forall acc rest,
    exists n0, forall n, n0 <= n ->
      parse_elements n acc (JS.join "," ts +:+ String "]" rest)
      = Some (VArr (rev acc ++ l), rest).
Proof.
  induction 1 as [|x t l ts (_ & _ & Hx) Hrest IH]; [done|]. intros _ acc rest.
  destruct Hrest as [|y t' l' ts' Hy Hrest'].
  - destruct (Hx (String "]" rest) (number_end_bracket _)) as (n0 & Hn0).
    exists (S n0). intros [|n] Hn; [lia|]. cbn [parse_elements JS.join].
    rewrite Hn0 by lia. reflexivity.
  - destruct (Hx (String "," (JS.join "," (t' :: ts') +:+ String "]" rest))
                (number_end_comma _)) as (n0 & Hn0).
    destruct (IH ltac:(done) (x :: acc) rest) as (n1 & Hn1).
    exists (S (Nat.max n0 n1)). intros [|n] Hn; [lia|]. cbn [parse_elements].
    change (JS.join "," (t :: t' :: ts')) with (t +:+ "," +:+ JS.join "," (t' :: ts')).
    rewrite !string_app_assoc.
    change ("," +:+ ?s) with (String "," s).
    rewrite Hn0 by lia.
    change (skip_ws (String "," ?s)) with (String "," s). cbv beta iota.
    rewrite Hn1 by lia. cbn [rev]. by rewrite <- app_assoc.
Qed.

Lemma member_parse k t v acc rest' n n0 :
  (forall n, n0 <= n -> parse_value n (t +:+ rest') = Some (v, rest')) ->
  n0 <= n ->
  skip_ws rest' = rest' ->
  parse_members (S n) acc (quote k +:+ ":" +:+ t +:+ rest')
  = match rest' with
    | String "," r4 => parse_members n (JS.set acc k v) r4
    | String "}" r4 => Some (VObj (JS.set acc k v), r4)
    | _ => None
    end.
Proof.
  intros Hv Hn Hws. cbn [parse_members].
  destruct (parse_string_quote k (":" +:+ t +:+ rest')) as (body & Heq & Hbody).
  rewrite Heq. cbn [skip_ws]. replace (is_ws dq) with false by reflexivity.
  rewrite (bool_decide_eq_true_2 (dq = dq)) by done. rewrite Hbody.
  change (":" +:+ ?s) with (String ":" s). cbn [skip_ws].
  replace (is_ws ":") with false by reflexivity. cbn match.
  rewrite Hv by done. by rewrite Hws.
Qed.

Lemma members_ok fs ts :
  Forall2 (fun kx t => good (snd kx) t) fs ts ->
  fs <> [] ->
  forall acc rest,
    NoDup (map fst (acc ++ fs)) ->
    exists n0, forall n, n0 <= n ->
      parse_members n acc (JS.join "," (member_texts fs ts) +:+ String "}" rest)
      = Some (VObj (acc ++ fs), rest).
Proof.
  induction 1 as [|[k x] t fs ts (_ & _ & Hx) Hrest IH]; [done|]. intros _ acc rest Hnd.
  assert (Hset : JS.set acc k x = acc ++ [(k, x)]).
  { clear -Hnd. induction acc as [|[k' y] acc IHacc]; [reflexivity|].
    cbn in *. apply NoDup_cons in Hnd as [Hk Hnd].
    destruct (decide (k' = k)) as [->|_].
    - exfalso. apply Hk. rewrite map_app. apply elem_of_app. right. left.
    - by rewrite IHacc. }
  destruct Hrest as [|[k' y] t' fs' ts' Hy Hrest'].
  - destruct (Hx (String "}" rest) (number_end_brace _)) as (n0 & Hn0).
    exists (S n0). intros [|n] Hn; [lia|].
    change (JS.join "," (member_texts [(k, x)] [t])) with (quote k +:+ ":" +:+ t).
    rewrite !string_app_assoc.
    rewrite (member_parse k t x acc (String "}" rest) n n0) by (done || lia).
    by rewrite Hset.
  - destruct (Hx (String "," (JS.join "," (member_texts ((k', y) :: fs') (t' :: ts'))
                              +:+ String "}" rest))
                (number_end_comma _)) as (n0 & Hn0).
    destruct (IH ltac:(done) (acc ++ [(k, x)]) rest) as (n1 & Hn1).
    { by rewrite <- app_assoc. }
    exists (S (Nat.max n0 n1)). intros [|n] Hn; [lia|].
    change (JS.join "," (member_texts ((k, x) :: (k', y) :: fs') (t :: t' :: ts')))
      with ((quote k +:+ ":" +:+ t) +:+ ","
            +:+ JS.join "," (member_texts ((k', y) :: fs') (t' :: ts'))).
    rewrite !string_app_assoc.
    change ("," +:+ ?s) with (String "," s).
    rewrite (member_parse k t x acc _ n n0) by (done || lia).
    rewrite Hset, Hn1 by lia. by rewrite <- app_assoc.
Qed.

Lemma elems_texts l ts :
  Forall2 good l ts ->
  (fix elems (l : list value) : list string :=
     match l with
     | [] => []
     | x :: r => default "null" (stringify x) :: elems r
     end) l = ts.
Proof.
  induction 1 as [|x t l ts (Hs & _) _ IH]; [reflexivity|]. by rewrite Hs, IH.
Qed.

Lemma members_texts fs ts :
  Forall2 (fun kx t => good (snd kx) t) fs ts ->
  (fix members (fs : list (string * value)) : list string :=
     match fs with
     | [] => []
     | (k, x) :: r =>
         match stringify x with
         | Some s => (quote k +:+ ":" +:+ s) :: members r
         | None => members r
         end
     end) fs = member_texts fs ts.
Proof.
  induction 1 as [|[k x] t fs ts (Hs & _) _ IH]; [reflexivity|].
  cbn in Hs. by rewrite Hs, IH.
Qed.

Lemma stringify_array l :
  stringify (VArr l)
  = Some ("[" +:+
          JS.join ","
            ((fix elems (l : list value) : list string :=
                match l with
                | [] => []
                | x :: r => default "null" (stringify x) :: elems r
                end) l) +:+ "]").
Proof. reflexivity. Qed.

Lemma stringify_object fs :
  stringify (VObj fs)
  = Some ("{" +:+
          JS.join ","
            ((fix members (fs : list (string * value)) : list string :=
                match fs with
                | [] => []
                | (k, x) :: r =>
                    match stringify x with
                    | Some s => (quote k +:+ ":" +:+ s) :: members r
                    | None => members r
                    end
                end) fs) +:+ "}").
Proof. reflexivity. Qed.

Lemma Forall_good (l : list value) :
  Forall (fun x => plain x = true -> exists t, good x t) l ->
  forallb plain l = true ->
  exists ts, Forall2 good l ts.
Proof.
  induction 1 as [|x l Hx _ IH]; intros Hp; [by exists []|].
  cbn in Hp. apply andb_true_iff in Hp as [Hpx Hpl].
  destruct (Hx Hpx) as (t & Ht). destruct (IH Hpl) as (ts & Hts).
  exists (t :: ts). by constructor.
Qed.

Lemma Forall_good_fields (fs : list (string * value)) :
  Forall (fun kx => plain (snd kx) = true -> exists t, good (snd kx) t) fs ->
  forallb (fun kx => plain (snd kx)) fs = true ->
  exists ts, Forall2 (fun kx t => good (snd kx) t) fs ts.
Proof.
  induction 1 as [|x l Hx _ IH]; intros Hp; [by exists []|].
  cbn in Hp. apply andb_true_iff in Hp as [Hpx Hpl].
  destruct (Hx Hpx) as (t & Ht). destruct (IH Hpl) as (ts & Hts).
  exists (t :: ts). by constructor.
Qed.

Lemma plain_good v : plain v = true -> exists t, good v t.
Proof.
  induction v as [| |b|n|lit|s|l IH|fs IH] using value_nested_ind; intros Hp;
    try discriminate Hp.
  - exists "null". split; [reflexivity|]. split; [by exists "n"%char, "ull"|].
    intros rest _. exists 1. intros [|n] Hn; [lia|]. reflexivity.
  - exists (if b then "true" else "false"). split; [by destruct b|].
    split; [destruct b; by eexists _, _|].
    intros rest _. exists 1. intros [|n] Hn; [lia|]. by destruct b.
  - exists (pretty n). split; [reflexivity|]. split.
    + destruct n as [|p|p].
      * by exists "0"%char, "".
      * change (pretty (Z.pos p)) with (pretty (N.pos p)).
        unfold pretty, pretty_N. rewrite decide_False by done.
        destruct (pretty_N_go_head (N.pos p) "") as (c & r & Heq & _); [done|].
        pose proof (pretty_N_go_digits (N.pos p) "" eq_refl) as Hd.
        rewrite Heq in *. cbn in Hd. apply andb_true_iff in Hd as [Hc _].
        exists c, r. split; [done|]. clear -Hc.
        split_char c; first [discriminate Hc | by repeat split].
      * by exists "-"%char, (pretty (N.pos p)).
    + intros rest Hend. exists 1. intros [|m] Hm; [lia|].
      pose proof (parse_number_pretty n rest Hend) as Hnum.
      assert (exists c r, pretty n = String c r /\ JS.is_digit c || bool_decide (c = "-"%char) = true)
        as (c & r & Heq & Hc).
      { destruct n as [|p|p].
        - by exists "0"%char, "".
        - change (pretty (Z.pos p)) with (pretty (N.pos p)).
          unfold pretty, pretty_N. rewrite decide_False by done.
          destruct (pretty_N_go_head (N.pos p) "") as (c & r & Heq & _); [done|].
          pose proof (pretty_N_go_digits (N.pos p) "" eq_refl) as Hd.
          rewrite Heq in *. cbn in Hd. apply andb_true_iff in Hd as [Hc _].
          exists c, r. by rewrite Hc.
        - by exists "-"%char, (pretty (N.pos p)). }
      rewrite Heq in *. cbn [parse_value]. clear -Hnum Hc.
      change (String c r +:+ rest) with (String c (r +:+ rest)) in *.
      split_char c; first [discriminate Hc | exact Hnum].
  - exists (quote s). split; [reflexivity|].
    split; [by exists dq, (escape s +:+ String dq "")|].
    intros rest _. exists 1. intros [|n] Hn; [lia|].
    destruct (parse_string_quote s rest) as (body & Heq & Hbody). rewrite Heq.
    cbn [parse_value skip_ws]. replace (is_ws dq) with false by reflexivity.
    replace (bool_decide (dq = "{"%char)) with false by reflexivity.
    replace (bool_decide (dq = "["%char)) with false by reflexivity.
    rewrite (bool_decide_eq_true_2 (dq = dq)) by done. by rewrite Hbody.
  - cbn [plain] in Hp. destruct (Forall_good l IH Hp) as (ts & Hts).
    exists ("[" +:+ JS.join "," ts +:+ "]"). split; [|split].
    + by rewrite stringify_array, (elems_texts l ts Hts).
    + by exists "["%char, (JS.join "," ts +:+ "]").
    + intros rest _. destruct l as [|x l].
      * inversion Hts; subst. exists 1. intros [|n] Hn; [lia|]. reflexivity.
      * destruct (elements_ok _ _ Hts ltac:(done) [] rest) as (n0 & Hn0).
        exists (S n0). intros [|n] Hn; [lia|].
        inversion Hts as [|? t ? ts' (_ & Hstart & _) Hts' E1 E2]; subst.
        rewrite !string_app_assoc. change ("[" +:+ ?s) with (String "[" s).
        change ("]" +:+ rest) with (String "]" rest).
        cbn [parse_value skip_ws]. replace (is_ws "[") with false by reflexivity.
        cbn match.
        replace (bool_decide ("["%char = "{"%char)) with false by reflexivity.
        rewrite (bool_decide_eq_true_2 ("["%char = "["%char)) by done.
        assert (Hnext : exists c r, skip_ws (JS.join "," (t :: ts') +:+ String "]" rest)
                                    = String c r /\ c <> "]"%char).
        { destruct Hstart as (c & r & -> & Hws & Hb & _).
          destruct ts' as [|t' ts'']; cbn; rewrite Hws; by eexists _, _. }
        destruct Hnext as (c & r & Hskip & Hc). rewrite Hskip.
        pose proof (Hn0 n ltac:(lia)) as Hres. cbn [rev app] in Hres.
        rewrite <- Hres. clear -Hc.
        split_char c; first [by destruct Hc | reflexivity].
  - cbn [plain] in Hp. apply andb_true_iff in Hp as [Hp Hnd].
    apply andb_true_iff in Hp as [Hp _].
    apply bool_decide_eq_true in Hnd.
    destruct (Forall_good_fields fs IH Hp) as (ts & Hts).
    exists ("{" +:+ JS.join "," (member_texts fs ts) +:+ "}"). split; [|split].
    + by rewrite stringify_object, (members_texts fs ts Hts).
    + by exists "{"%char, (JS.join "," (member_texts fs ts) +:+ "}").
    + intros rest _. destruct fs as [|[k x] fs].
      * inversion Hts; subst. exists 1. intros [|n] Hn; [lia|]. reflexivity.
      * destruct (members_ok _ _ Hts ltac:(done) [] rest Hnd) as (n0 & Hn0).
        exists (S n0). intros [|n] Hn; [lia|].
        inversion Hts as [|? t ? ts' _ Hts' E1 E2]; subst.
        rewrite !string_app_assoc. change ("{" +:+ ?s) with (String "{" s).
        change ("}" +:+ rest) with (String "}" rest).
        cbn [parse_value skip_ws]. replace (is_ws "{") with false by reflexivity.
        cbn match.
        rewrite (bool_decide_eq_true_2 ("{"%char = "{"%char)) by done.
        assert (Hnext : exists r, skip_ws (JS.join "," (member_texts ((k, x) :: fs) (t :: ts'))
                                           +:+ String "}" rest)
                                  = String dq r).
        { destruct fs as [|[k' y] fs']; destruct ts'; cbn; by eexists. }
        destruct Hnext as (r & Hskip). rewrite Hskip.
        pose proof (Hn0 n ltac:(lia)) as Hres. cbn [app] in Hres.
        rewrite <- Hres. reflexivity.
Qed.

(** [JSON.parse (JSON.stringify v)] is [v]. *)
Lemma parse_stringify v :
  plain v = true ->
  exists t, stringify v = Some t /\ parse t = Some v.
Proof.
  intros Hp. destruct (plain_good v Hp) as (t & Hs & _ & Hparse).
  exists t. split; [exact Hs|].
  destruct (Hparse "" I) as (n0 & Hn0).
  assert (Heq : t +:+ "" = t).
  { clear. induction t as [|c t IH]; [reflexivity|]. cbn. by rewrite IH. }
  rewrite Heq in Hn0. unfold parse.
  set (n := 2 * String.length t + 2).
  destruct (parse_value_fuel n) as (Hfuel & _ & _).
  rewrite <- (Hfuel (Nat.max n n0) t) by lia.
  rewrite Hn0 by lia. reflexivity.
Qed.

End JSONRoundTrip.

(** X22.  A parameter written with [Param.set] is read back by
    [Param.get].  For a value made of null, booleans, integers up to
    2^53, strings, arrays and objects with distinct keys that are no
    array indices, [set] calls /rosapi/set_param with the name and the
    JSON text of the value; when the response to the call of [get]
    carries that text, the callback of [get] receives the value that was
    set. *)
Theorem X22_param_round_trip
    (param : Param.t) (v : value) (k : nat) (rs rs' : ReadyState) (s s' : State) :
  plain v = true ->
  socket s = Some rs ->
  socket s' = Some rs' ->
  let set_id := "call_service:/rosapi/set_param:" +:+ pretty (js_succ (idCounter s)) in
  let get_id := "call_service:/rosapi/get_param:" +:+ pretty (js_succ (idCounter s')) in
  listeners get_id (ros_events s') = [] ->
  exists text s1 s2 s3,
    JSON.stringify v = Some text /\
    ParamOps.set param v s = (Normal tt, s1) /\
    calls s1
    = calls s ++ [service_call "/rosapi/set_param" set_id [Param.name param; VStr text]] /\
    ParamOps.get param (CbUser k) s' = (Normal tt, s2) /\
    handleMessage (response_envelope get_id (VObj [("value", VStr text)])) s2
    = (Normal tt, s3) /\
    trace s3
    = trace s' ++ [ObsEmit SrcRos get_id (VObj [("value", VStr text)]); ObsCall k v].
Proof.
  intros Hp Hs Hs' set_id get_id Hfree.
  destruct (JSONRoundTrip.parse_stringify v Hp) as (text & Htext & Hparse).
  assert (Hsv : JSON.stringify_value v = VStr text).
  { unfold JSON.stringify_value. by rewrite Htext. }
  exists text.
  destruct (callService_spec (Service.Make "/rosapi/set_param" (VStr "rosapi/SetParam"))
              (ServiceRequest_new
                 (VObj [("name", Param.name param);
                        ("value", JSON.stringify_value v)]))
              ["name"; "value"] CbNoop rs s Hs eq_refl)
    as (s1 & Hrun1 & Hcalls1 & _).
  destruct (callService_spec (Service.Make "/rosapi/get_param" (VStr "rosapi/GetParam"))
              (ServiceRequest_new
                 (VObj [("name", Param.name param);
                        ("value", JSON.stringify_value (VStr ""))]))
              ["name"; "value"] (CbParamGet (CbUser k)) rs' s' Hs' eq_refl)
    as (s2 & Hrun2 & _ & Hl & Htr & _).
  cbn [Service.name] in Hl. change (_ +:+ _) with get_id in Hl.
  rewrite Hfree in Hl. cbn in Hl.
  exists s1, s2. eexists. split; [exact Htext|]. split; [exact Hrun1|].
  split; [by rewrite Hcalls1, Hsv|]. split; [exact Hrun2|].
  rewrite (handleMessage_service_response _ (VStr get_id) (VObj [("value", VStr text)]))
    by reflexivity.
  rewrite (ros_emit_once _ _ _ _ _ Hl). cbn [run_ros_listener].
  unfold run_callback.
  rewrite (prop_defined _ _ (VStr text)); [|by apply get_copy_fields|done].
  unfold bind, ret. change (JS.to_string (VStr text)) with text. rewrite Hparse.
  split; [reflexivity|]. cbn. rewrite trace_log, Htr.
  by rewrite <- app_assoc.
Qed.

Lemma X22_param_round_trip_witness :
  let param := Param.Make (VStr "limits") in
  let v := VObj [("max", VNum 15); ("min", VNum (-3)); ("unit", VStr "m/s");
                 ("axes", VArr [VBool true; VNull])] in
  exists text s1 s2 s3,
    JSON.stringify v = Some text /\
    ParamOps.set param v ROS_new_url = (Normal tt, s1) /\
    ParamOps.get param (CbUser 1) s1 = (Normal tt, s2) /\
    handleMessage (response_envelope "call_service:/rosapi/get_param:2"
                     (VObj [("value", VStr text)])) s2
    = (Normal tt, s3) /\
    trace s3 = [ObsEmit SrcRos "call_service:/rosapi/get_param:2"
                  (VObj [("value", VStr text)]);
                ObsCall 1 v].
Proof.
  intros param v.
  set (s1 := snd (ParamOps.set param v ROS_new_url)).
  assert (Hs1 : socket s1 = Some CONNECTING) by (vm_compute; reflexivity).
  assert (Hfree : listeners ("call_service:/rosapi/get_param:" +:+ pretty (js_succ (idCounter s1)))
                    (ros_events s1) = []) by (vm_compute; reflexivity).
  assert (Hid : "call_service:/rosapi/get_param:" +:+ pretty (js_succ (idCounter s1))
                = "call_service:/rosapi/get_param:2") by (vm_compute; reflexivity).
  assert (Htr : trace s1 = []) by (vm_compute; reflexivity).
  assert (Hp : plain v = true) by (vm_compute; reflexivity).
  destruct (X22_param_round_trip param v 1 CONNECTING CONNECTING ROS_new_url s1
              Hp eq_refl Hs1 Hfree)
    as (text & s1' & s2 & s3 & H1 & H2 & _ & H3 & H4 & H5).
  rewrite Hid in H4, H5. rewrite Htr in H5.
  exists text, s1', s2, s3.
  assert (s1' = s1) as -> by (subst s1; by rewrite H2).
  by repeat split.
Defined.

Lemma publish_frame_parses x c fs :
  plain (VObj fs) = true ->
  JSON.parse (frame_of (publish_call x c (VObj fs))) = Some (publish_call x c (VObj fs)).
Proof.
  intros Hp.
  assert (Hcall : plain (publish_call x c (VObj fs)) = true).
  { unfold publish_call. generalize dependent (VObj fs). intros m Hm.
    cbn [plain forallb snd map fst]. rewrite Hm. cbn [andb].
    vm_compute. reflexivity. }
  destruct (JSONRoundTrip.parse_stringify _ Hcall) as (text & Htext & Hparse).
  unfold frame_of, JSON.stringify_value. by rewrite Htext.
Qed.

(** X23.  A published message arrives as it was sent.  The frame that
    [publish] transmits for an object made of null, booleans, integers up
    to 2^53, strings, arrays and objects with distinct keys that are no
    array indices, on an advertised topic and an open socket, is one
    that [onMessage] parses: on a connection where one topic object is
    subscribed under the name, with one callback, it is routed to that
    topic and the callback receives the message that was published.  The
    message has no own field named [__proto__], which the copy made on
    arrival would not keep. *)
Theorem X23_published_messages_arrive
    (t : nat) (x : Topic.t) (fs : list (string * value)) (s : State)
    (t' i j k : nat) (x' : Topic.t) (s' : State) :
  plain (VObj fs) = true ->
  proto_free (VObj fs) ->
  topics s !! t = Some x ->
  Topic.isAdvertised x = true ->
  socket s = Some OPEN ->
  topics s' !! t' = Some x' ->
  listeners (Topic.name x) (ros_events s') = [Entry i false (LRoute t')] ->
  listeners "message" (Topic.events x') = [Entry j false (TCall (CbUser k))] ->
  exists frame s1 s2,
    TopicOps.publish t (VObj fs) s = (Normal tt, s1) /\
    wire s1 = wire s ++ [frame] /\
    onMessage frame s' = (Normal tt, s2) /\
    trace s2
    = trace s' ++ [ObsEmit SrcRos (Topic.name x) (VObj fs);
                   ObsEmit (SrcTopic t') "message" (VObj fs);
                   ObsCall k (VObj fs)].
Proof.
  intros Hp _ Ht Hadv Hs Ht' Hr Hl.
  destruct (publish_spec t x (VObj fs) OPEN s Ht Hs)
    as (s1 & Hrun & _ & _ & Hw & _).
  rewrite Hadv in Hw. cbn in Hw. destruct Hw as [Hw _].
  set (call := publish_call x (js_succ (idCounter s)) (VObj fs)) in *.
  exists (frame_of call), s1. eexists.
  split; [exact Hrun|]. split; [exact Hw|].
  assert (Hparse : JSON.parse (frame_of call) = Some call)
    by exact (publish_frame_parses x _ fs Hp).
  unfold onMessage. rewrite Hparse.
  assert (Hnd : NoDup fs.*1).
  { cbn [plain] in Hp. apply andb_true_iff in Hp as [_ Hnd].
    by apply bool_decide_eq_true in Hnd. }
  assert (Hcopy : Message_new (VObj fs) = VObj fs) by by apply copy_object.
  assert (Hh : handleMessage call s'
               = handleMessage (publish_envelope (Topic.name x) (VObj fs)) s').
  { rewrite (handleMessage_publish call (VStr (Topic.name x)) (VObj fs)) by reflexivity.
    by rewrite (handleMessage_publish (publish_envelope _ _) (VStr (Topic.name x))
                  (VObj fs)). }
  assert (Hop : prop call "op" = ret (VStr "publish")) by reflexivity.
  unfold bind at 1. rewrite Hop. unfold ret at 1.
  rewrite (is_str_ne "publish" "png") by discriminate.
  rewrite Hh, (publish_routed _ t' x' i j (CbUser k) (VObj fs) s' Hr Ht' Hl), Hcopy.
  change (run_callback (CbUser k) ?v) with (record (ObsCall k v)).
  rewrite record_log, log_log. split; [reflexivity|]. by rewrite trace_log.
Qed.

Lemma X23_published_messages_arrive_witness :
  let o := Topic.Options VUndef "/chatter" (VStr "std_msgs/String") None None in
  let s := run_ops [OpSocketOpen VNull; OpTopic o; OpAdvertise 0] ROS_new_url in
  let s' := run_ops [OpSocketOpen VNull; OpTopic o; OpSubscribe 0 (CbUser 5)] ROS_new_url in
  let msg := VObj [("data", VStr "hello"); ("seq", VNum 42)] in
  exists frame s1 s2,
    TopicOps.publish 0 msg s = (Normal tt, s1) /\
    wire s1 = wire s ++ [frame] /\
    onMessage frame s' = (Normal tt, s2) /\
    trace s2
    = trace s' ++ [ObsEmit SrcRos "/chatter" msg; ObsEmit (SrcTopic 0) "message" msg;
                   ObsCall 5 msg].
Proof.
  intros o s s' msg.
  set (x := Topic.Make VUndef "/chatter" (VStr "std_msgs/String") true "none" 0 ∅).
  set (x' := default x (topics s' !! 0)).
  assert (Ht : topics s !! 0 = Some x) by (vm_compute; reflexivity).
  assert (Hs : socket s = Some OPEN) by (vm_compute; reflexivity).
  assert (Ht' : topics s' !! 0 = Some x') by (vm_compute; reflexivity).
  assert (Hr : listeners (Topic.name x) (ros_events s') = [Entry 1 false (LRoute 0)])
    by (vm_compute; reflexivity).
  assert (Hl : listeners "message" (Topic.events x') = [Entry 0 false (TCall (CbUser 5))])
    by (vm_compute; reflexivity).
  assert (Hp : plain msg = true) by (vm_compute; reflexivity).
  exact (X23_published_messages_arrive 0 x _ s 0 1 0 5 x' s' Hp eq_refl Ht eq_refl Hs Ht'
           Hr Hl).
Defined.


(** ** The action client, continued *)

Lemma advertise_full t x rs s :
  topics s !! t = Some x ->
  socket s = Some rs ->
  exists s',
    TopicOps.advertise t s = (Normal tt, s') /\
    topics s' = <[t := Topic.set_isAdvertised true x]> (topics s) /\
    socket s' = socket s /\
    idCounter s' = js_succ (idCounter s) /\
    calls s' = calls s ++ [advertise_call x (js_succ (idCounter s))] /\
    timers s' = timers s /\
    trace s' = trace s /\
    clients s' = clients s /\
    goals s' = goals s.
Proof.
  intros Ht Hs. unfold TopicOps.advertise. exec. rewrite Ht.
  rewrite (callOnConnection_spec _ rs) by (cbn; exact Hs).
  eexists; split; [reflexivity|].
  rewrite <- (alter_lookup _ _ _ _ Ht). by destruct rs.
Qed.

Lemma subscribe_full t x cb rs s :
  topics s !! t = Some x ->
  socket s = Some rs ->
  exists s',
    TopicOps.subscribe t cb s = (Normal tt, s') /\
    length (topics s') = length (topics s) /\
    socket s' = socket s /\
    idCounter s' = js_succ (idCounter s) /\
    calls s' = calls s ++ [subscribe_call x (js_succ (idCounter s))] /\
    timers s' = timers s /\
    trace s' = trace s /\
    clients s' = clients s /\
    goals s' = goals s.
Proof.
  intros Ht Hs. unfold TopicOps.subscribe, topic_on, ros_on. exec.
  rewrite list_lookup_alter_eq, Ht. cbn.
  rewrite list_lookup_alter_eq, Ht. cbn.
  rewrite (callOnConnection_spec _ rs) by (cbn; exact Hs).
  eexists; split; [reflexivity|].
  destruct rs; cbn; by rewrite length_alter.
Qed.

Lemma Topic_new_plain name type s :
  Topic_new (Topic.Options VUndef name type None None) s
  = (Normal (length (topics s)),
     set_topics (topics s ++ [Topic.Make VUndef name type false "none" 0 ∅]) s).
Proof. rewrite Topic_new_spec. cbn. by rewrite log_nil. Qed.

(** The state in which a topic has just been added. *)
Ltac new_topic name type s s' x Hnew Ht Hlen :=
  pose proof (Topic_new_plain name type s) as Hnew;
  match type of Hnew with _ = (_, ?st) => set (s' := st) in * end;
  set (x := Topic.Make VUndef name type false "none" 0 ∅) in *;
  assert (Ht : topics s' !! length (topics s) = Some x)
    by (subst s'; cbn; apply lookup_snoc_length);
  assert (Hlen : length (topics s') = S (length (topics s)))
    by (subst s'; cbn; rewrite length_app; cbn; lia).

(** X11.  On a connection with a socket, the [ActionClient] constructor
    creates five topics and hands over exactly five calls, in this order:
    advertise of the goal topic, advertise of the cancel topic, subscribe
    of the status, feedback and result topics, with five consecutive
    values of the counter.  It arms the server timer when a timeout that
    is not 0 was given, emits nothing, and records the first two topics as
    its goal and cancel topics. *)
Theorem X11_action_client_wiring
    (o : ActionClient.options) (rs : ReadyState) (s : State) :
  socket s = Some rs ->
  let server := ActionClient.o_serverName o in
  let action := ActionClient.o_actionName o in
  let topic name type := Topic.Make VUndef name (VStr type) false "none" 0 ∅ in
  let n k := Nat.iter k js_succ (idCounter s) in
  exists s',
    ActionClient_new o s = (Normal (length (clients s)), s') /\
    calls s'
    = calls s
      ++ [advertise_call (topic (server +:+ "/goal") (action +:+ "Goal")) (n 1);
          advertise_call (topic (server +:+ "/cancel") "actionlib_msgs/GoalID") (n 2);
          subscribe_call (topic (server +:+ "/status") "actionlib_msgs/GoalStatusArray")
                         (n 3);
          subscribe_call (topic (server +:+ "/feedback") (action +:+ "Feedback")) (n 4);
          subscribe_call (topic (server +:+ "/result") (action +:+ "Result")) (n 5)] /\
    timers s'
    = timers s ++ match timeout_given (ActionClient.o_timeout o) with
                  | Some d => [TimerServer (length (clients s)) d]
                  | None => []
                  end /\
    trace s' = trace s /\
    length (topics s') = length (topics s) + 5 /\
    clients s'
    = clients s
      ++ [ActionClient.Make server action (ActionClient.o_timeout o) ∅
            (Some (length (topics s))) (Some (S (length (topics s)))) false ∅].
Proof.
  intros Hs server action topic n.
  unfold ActionClient_new. fold server action.
  unfold bind at 1. unfold gets at 1. unfold bind at 1. unfold modify at 1.
  set (c := length (clients s)).
  set (x0 := ActionClient.Make server action (ActionClient.o_timeout o) ∅ None None false ∅).
  set (s0 := set_clients (clients s ++ [x0]) s).
  (* the goal topic *)
  unfold bind at 1.
  new_topic (server +:+ "/goal") (VStr (action +:+ "Goal")) s0 s1 xg Hn1 Ht1 Hl1.
  rewrite Hn1. unfold bind at 1. unfold update_client at 1, modify at 1.
  set (s1' := set_clients _ s1).
  assert (Hc1 : clients s1' = clients s ++ [ActionClient.set_goalTopic (Some (length (topics s))) x0]).
  { subst s1' s1 s0 c. cbn. apply alter_snoc_length. }
  unfold bind at 1.
  destruct (advertise_full (length (topics s0)) xg rs s1')
    as (s2 & Hrun2 & Htop2 & Hs2 & Hn2 & Hcalls2 & Htm2 & Htr2 & Hcl2 & _);
    [exact Ht1|exact Hs|].
  rewrite Hrun2.
  assert (Hk2 : socket s2 = Some rs) by (rewrite Hs2; exact Hs).
  (* the cancel topic *)
  unfold bind at 1.
  new_topic (server +:+ "/cancel") (VStr "actionlib_msgs/GoalID") s2 s3 xc Hn3 Ht3 Hl3.
  rewrite Hn3. unfold bind at 1. unfold update_client at 1, modify at 1.
  set (s3' := set_clients _ s3).
  unfold bind at 1.
  destruct (advertise_full (length (topics s2)) xc rs s3')
    as (s4 & Hrun4 & Htop4 & Hs4 & Hn4 & Hcalls4 & Htm4 & Htr4 & Hcl4 & _);
    [exact Ht3|exact Hk2|].
  rewrite Hrun4.
  assert (Hk4 : socket s4 = Some rs) by (rewrite Hs4; exact Hk2).
  (* the status topic *)
  unfold bind at 1.
  new_topic (server +:+ "/status") (VStr "actionlib_msgs/GoalStatusArray") s4 s5 xs
            Hn5 Ht5 Hl5.
  rewrite Hn5. unfold bind at 1.
  destruct (subscribe_full (length (topics s4)) xs (CbStatus c) rs s5)
    as (s6 & Hrun6 & Hlen6 & Hs6 & Hn6 & Hcalls6 & Htm6 & Htr6 & Hcl6 & _);
    [exact Ht5|exact Hk4|].
  rewrite Hrun6.
  assert (Hk6 : socket s6 = Some rs) by (rewrite Hs6; exact Hk4).
  (* the timer *)
  unfold bind at 1.
  set (tm := match timeout_given (ActionClient.o_timeout o) with
             | Some d => [TimerServer c d]
             | None => []
             end).
  set (s7 := set_timers (timers s6 ++ tm) s6).
  assert (Hrun7 : match timeout_given (ActionClient.o_timeout o) with
                  | Some d => setTimeout (TimerServer c d)
                  | None => ret tt
                  end s6 = (Normal tt, s7)).
  { subst s7 tm. destruct (timeout_given _); [reflexivity|].
    unfold ret. rewrite app_nil_r. by destruct s6. }
  rewrite Hrun7.
  (* the feedback topic *)
  unfold bind at 1.
  new_topic (server +:+ "/feedback") (VStr (action +:+ "Feedback")) s7 s8 xf Hn8 Ht8 Hl8.
  rewrite Hn8. unfold bind at 1.
  destruct (subscribe_full (length (topics s7)) xf (CbFeedback c) rs s8)
    as (s9 & Hrun9 & Hlen9 & Hs9 & Hn9 & Hcalls9 & Htm9 & Htr9 & Hcl9 & _);
    [exact Ht8|exact Hk6|].
  rewrite Hrun9.
  assert (Hk9 : socket s9 = Some rs) by (rewrite Hs9; exact Hk6).
  (* the result topic *)
  unfold bind at 1.
  new_topic (server +:+ "/result") (VStr (action +:+ "Result")) s9 s10 xr Hn10 Ht10 Hl10.
  rewrite Hn10. unfold bind at 1.
  destruct (subscribe_full (length (topics s9)) xr (CbResult c) rs s10)
    as (s11 & Hrun11 & Hlen11 & Hs11 & Hn11 & Hcalls11 & Htm11 & Htr11 & Hcl11 & _);
    [exact Ht10|exact Hk9|].
  rewrite Hrun11.
  exists s11. split; [reflexivity|].
  assert (Hid : idCounter s1' = idCounter s) by reflexivity.
  assert (Hid3 : idCounter s3' = idCounter s2) by reflexivity.
  assert (Hid5 : idCounter s5 = idCounter s4) by reflexivity.
  assert (Hid8 : idCounter s8 = idCounter s6) by reflexivity.
  assert (Hid10 : idCounter s10 = idCounter s9) by reflexivity.
  split; [|split; [|split; [|split]]].
  - rewrite Hcalls11.
    change (calls s10) with (calls s9). rewrite Hcalls9.
    change (calls s8) with (calls s6). rewrite Hcalls6.
    change (calls s5) with (calls s4). rewrite Hcalls4.
    change (calls s3') with (calls s2). rewrite Hcalls2.
    change (calls s1') with (calls s).
    rewrite Hid10, Hn9, Hid8, Hn6, Hid5, Hn4, Hid3, Hn2, Hid.
    rewrite <- !app_assoc. reflexivity.
  - rewrite Htm11. change (timers s10) with (timers s9). rewrite Htm9.
    change (timers s8) with (timers s6 ++ tm). rewrite Htm6.
    change (timers s5) with (timers s4). rewrite Htm4.
    change (timers s3') with (timers s2). rewrite Htm2. reflexivity.
  - rewrite Htr11. change (trace s10) with (trace s9). rewrite Htr9.
    change (trace s8) with (trace s6). rewrite Htr6.
    change (trace s5) with (trace s4). rewrite Htr4.
    change (trace s3') with (trace s2). rewrite Htr2. reflexivity.
  - rewrite Hlen11, Hl10, Hlen9, Hl8.
    change (topics s7) with (topics s6). rewrite Hlen6, Hl5, Htop4, length_insert.
    change (topics s3') with (topics s3). rewrite Hl3, Htop2, length_insert.
    change (topics s1') with (topics s1). rewrite Hl1. cbn. lia.
  - rewrite Hcl11. change (clients s10) with (clients s9). rewrite Hcl9.
    change (clients s8) with (clients s6). rewrite Hcl6.
    change (clients s5) with (clients s4). rewrite Hcl4.
    subst s3'. cbn [clients set_clients].
    change (clients s3) with (clients s2). rewrite Hcl2, Hc1.
    assert (Hlen2 : length (topics s2) = S (length (topics s))).
    { rewrite Htop2, length_insert. exact Hl1. }
    rewrite Hlen2. subst c. by rewrite alter_snoc_length.
Qed.

Lemma X11_action_client_wiring_witness :
  let o := ActionClient.Options "/fibonacci" "actionlib_tutorials/FibonacciAction"
             (Some 5000%Z) in
  exists s',
    ActionClient_new o ROS_new_url = (Normal 0, s') /\
    map (fun call => (JS.get call "op", JS.get call "topic", JS.get call "id")) (calls s')
    = [(VStr "advertise", VStr "/fibonacci/goal", VStr "advertise:/fibonacci/goal:1");
       (VStr "advertise", VStr "/fibonacci/cancel", VStr "advertise:/fibonacci/cancel:2");
       (VStr "subscribe", VStr "/fibonacci/status", VStr "subscribe:/fibonacci/status:3");
       (VStr "subscribe", VStr "/fibonacci/feedback",
        VStr "subscribe:/fibonacci/feedback:4");
       (VStr "subscribe", VStr "/fibonacci/result", VStr "subscribe:/fibonacci/result:5")] /\
    timers s' = [TimerServer 0 5000].
Proof.
  intros o.
  destruct (X11_action_client_wiring o CONNECTING ROS_new_url eq_refl)
    as (s' & Hrun & Hc & Ht & _).
  exists s'. split; [exact Hrun|]. split; [rewrite Hc; vm_compute; reflexivity|exact Ht].
Defined.

Section Keeps.
Context {B : Type} (f : State -> B).
Hypothesis f_goals : forall gl s, f (set_goals gl s) = f s.
Hypothesis f_trace : forall tr s, f (set_trace tr s) = f s.

Lemma keeps_ret {A} (a : A) : keeps f (ret a).
Proof. by intros s. Qed.

Lemma keeps_throw {A} e : keeps f (throw (A:=A) e).
Proof. by intros s. Qed.

Lemma keeps_bind {A C} (m : M A) (k : A -> M C) :
  keeps f m -> (forall a, keeps f (k a)) -> keeps f (bind m k).
Proof.
  intros Hm Hk s. unfold bind. specialize (Hm s).
  destruct (m s) as [[a|e] s1]; cbn in *; [|done]. by rewrite Hk.
Qed.

Lemma keeps_for_each {A} (body : A -> M unit) l :
  (forall a, keeps f (body a)) -> keeps f (for_each body l).
Proof.
  intros Hb. induction l as [|a l IH]; [by intros s|].
  cbn [for_each]. apply keeps_bind; [apply Hb|]. intros _. exact IH.
Qed.

Lemma keeps_record o : keeps f (record o).
Proof. intros s. apply f_trace. Qed.

Lemma keeps_prop v k : keeps f (prop v k).
Proof. by destruct v; intros st. Qed.

Lemma keeps_get_goal g : keeps f (get_goal g).
Proof. intros s. unfold get_goal. by destruct (goals s !! g). Qed.

Lemma keeps_update_goal g h : keeps f (update_goal g h).
Proof. intros s. apply f_goals. Qed.

Lemma keeps_get_client c : keeps f (get_client c).
Proof. intros s. unfold get_client. by destruct (clients s !! c). Qed.

Lemma keeps_emit_guard {L} type (snapshot : list (entry L)) :
  keeps f (emit_guard type snapshot).
Proof.
  intros s. unfold emit_guard. destruct (is_str type "error"); [|done].
  by destruct snapshot.
Qed.

Lemma keeps_run_goal_listener g l arg : keeps f (run_goal_listener g l arg).
Proof.
  destruct l; cbn [run_goal_listener];
    repeat first [apply keeps_update_goal | apply keeps_record
                 | apply keeps_bind; [|intros ?]].
Qed.

Lemma keeps_goal_emit g event arg : keeps f (goal_emit g event arg).
Proof.
  unfold goal_emit.
  apply keeps_bind; [apply keeps_record|intros _].
  apply keeps_bind; [apply keeps_get_goal|intros x].
  apply keeps_bind; [apply keeps_emit_guard|intros _].
  apply keeps_for_each. intros e.
  apply keeps_bind; [|intros _; apply keeps_run_goal_listener].
  destruct (once e); [apply keeps_update_goal|apply keeps_ret].
Qed.

Lemma keeps_with_goal c id body :
  (forall g, keeps f (body g)) -> keeps f (with_goal c id body).
Proof.
  intros Hb. unfold with_goal. apply keeps_bind; [apply keeps_get_client|intros x].
  destruct (_ !! _); [apply Hb|].
  destruct (bool_decide _); [apply keeps_throw|apply keeps_ret].
Qed.

(** The rest of the status listener, after it has marked the server as
    heard. *)
Lemma keeps_status_list c arg :
  keeps f (status_list <- prop arg "status_list" ;;
           match status_list with
           | VArr l =>
               for_each
                 (fun status =>
                    goal_id <- prop status "goal_id" ;;
                    id <- prop goal_id "id" ;;
                    with_goal c id (fun g => goal_emit g "status" status))
                 l
           | _ => throw TypeError
           end).
Proof.
  apply keeps_bind; [apply keeps_prop|intros status_list].
  destruct status_list; try apply keeps_throw.
  apply keeps_for_each. intros status.
  apply keeps_bind; [apply keeps_prop|intros goal_id].
  apply keeps_bind; [apply keeps_prop|intros id].
  apply keeps_with_goal. intros g. apply keeps_goal_emit.
Qed.
End Keeps.

Lemma call_client_apps c event arg apps ks : forall s,
  Forall2 (fun e k => is_on k e) apps ks ->
  call_listeners (client_off c event) (fun k => record (ObsCall k arg)) apps s
  = (Normal tt, log (map (fun k => ObsCall k arg) ks) s).
Proof.
  intros s H. revert s. induction H as [|e k apps ks [Honce Hfn] _ IH]; intros s.
  - cbn. by rewrite log_nil.
  - unfold call_listeners in *. cbn [for_each]. unfold bind at 1. unfold bind at 1.
    rewrite Honce, Hfn. cbn. rewrite record_log, IH. by rewrite log_log.
Qed.

(** The status listener, as its first assignment followed by the loop. *)
Ltac open_status c arg :=
  change (run_callback (CbStatus c) arg)
    with (bind (update_client c (ActionClient.set_receivedStatus true))
               (fun _ =>
                  status_list <- prop arg "status_list" ;;
                  match status_list with
                  | VArr l =>
                      for_each
                        (fun status =>
                           goal_id <- prop status "goal_id" ;;
                           id <- prop goal_id "id" ;;
                           with_goal c id (fun g => goal_emit g "status" status))
                        l
                  | _ => throw TypeError
                  end));
  unfold bind at 1; unfold update_client, modify.

Lemma status_marks_server c x arg s :
  clients s !! c = Some x ->
  let s' := snd (run_callback (CbStatus c) arg s) in
  clients s' = <[c := ActionClient.set_receivedStatus true x]> (clients s) /\
  timers s' = timers s.
Proof.
  intros Hc s'. subst s'. split; open_status c arg.
  - rewrite (keeps_status_list clients) by done. cbn.
    by apply alter_lookup.
  - by rewrite (keeps_status_list timers).
Qed.

(** X12.  The timer of the [ActionClient] constructor: when it fires and
    no status message has been handled, the event timeout is emitted on
    the action client and each listener of the application is called;
    once the status listener has run on any message (also on one without
    a status list, for which it throws) the server counts as heard and
    the timer, when it fires, does nothing. *)
Theorem X12_server_timeout
    (n c : nat) (d : Z) (x : ActionClient.t) (ks : list nat) (arg : value) (s : State) :
  timers s !! n = Some (TimerServer c d) ->
  clients s !! c = Some x ->
  Forall2 (fun e k => is_on k e) (listeners "timeout" (ActionClient.events x)) ks ->
  (ActionClient.receivedStatus x = false ->
   timer_fires n s
   = (Normal tt,
      log (ObsEmit (SrcClient c) "timeout" VUndef :: map (fun k => ObsCall k VUndef) ks)
        (set_timers (delete n (timers s)) s))) /\
  (let s' := snd (run_callback (CbStatus c) arg s) in
   (ActionClient.receivedStatus <$> clients s' !! c) = Some true /\
   timer_fires n s' = (Normal tt, set_timers (delete n (timers s')) s')).
Proof.
  intros Hn Hc Hl. split.
  - intros Hr. unfold timer_fires. exec. rewrite Hn. exec. exec.
    rewrite Hc, Hr. cbn. unfold client_emit.
    unfold bind at 1. rewrite record_log.
    unfold bind at 1. unfold get_client. rewrite clients_log. cbn. rewrite Hc.
    unfold bind at 1. rewrite emit_guard_event by done.
    rewrite (call_client_apps _ _ _ _ ks) by done. by rewrite log_log.
  - intros s'. destruct (status_marks_server c x arg s Hc) as [Hcl Htm]. fold s' in Hcl, Htm.
    assert (Hc' : clients s' !! c = Some (ActionClient.set_receivedStatus true x)).
    { rewrite Hcl. apply list_lookup_insert_eq. by eapply lookup_lt_Some. }
    split; [by rewrite Hc'|].
    unfold timer_fires. exec. rewrite Htm, Hn. exec. exec. rewrite Hc'. cbn. by rewrite Htm.
Qed.

Lemma X12_server_timeout_witness :
  let o := ActionClient.Options "/fibonacci" "actionlib_tutorials/FibonacciAction"
             (Some 5000%Z) in
  let s := snd (ActionClient_new o ROS_new_url) in
  let s' := snd (run_callback (CbStatus 0) (VObj []) s) in
  timers s = [TimerServer 0 5000] /\
  timer_fires 0 s
  = (Normal tt, log [ObsEmit (SrcClient 0) "timeout" VUndef] (set_timers [] s)) /\
  fst (run_callback (CbStatus 0) (VObj []) s) = Throw TypeError /\
  timer_fires 0 s' = (Normal tt, set_timers [] s').
Proof.
  intros o s s'.
  assert (exists x, clients s !! 0 = Some x /\ ActionClient.receivedStatus x = false /\
                    listeners "timeout" (ActionClient.events x) = [])
    as (x & Hc & Hr & Hl) by (eexists; repeat split; vm_compute; reflexivity).
  assert (Ht : timers s !! 0 = Some (TimerServer 0 5000)) by (vm_compute; reflexivity).
  assert (Hall : Forall2 (fun e k => is_on k e)
                   (listeners "timeout" (ActionClient.events x)) [])
    by (rewrite Hl; constructor).
  destruct (X12_server_timeout 0 0 5000 x [] (VObj []) s Ht Hc Hall) as [H1 [_ H2]].
  split; [vm_compute; reflexivity|].
  split; [exact (H1 Hr)|].
  split; [vm_compute; reflexivity|exact H2].
Defined.

(** X13.  [goal.cancel()] publishes the message [{id: goal.goalId}] on
    the cancel topic and [actionClient.cancel()] publishes the empty
    message there: on the topic the constructor advertised, each is one
    publish call.  Neither touches the goals, the table of goals of the
    client or the trace: a cancelled goal is still registered and not
    finished. *)
Theorem X13_cancel_envelopes
    (g c t : nat) (y : Goal.t) (x : ActionClient.t) (tx : Topic.t) (rs : ReadyState)
    (s : State) :
  goals s !! g = Some y ->
  Goal.client y = c ->
  clients s !! c = Some x ->
  ActionClient.cancelTopic x = Some t ->
  topics s !! t = Some tx ->
  Topic.isAdvertised tx = true ->
  socket s = Some rs ->
  let n := js_succ (idCounter s) in
  (exists s1,
     ClientOps.goal_cancel g s = (Normal tt, s1) /\
     calls s1 = calls s ++ [publish_call tx n (VObj [("id", VStr (Goal.goalId y))])] /\
     goals s1 = goals s /\ clients s1 = clients s /\ trace s1 = trace s) /\
  (exists s2,
     ClientOps.cancel c s = (Normal tt, s2) /\
     calls s2 = calls s ++ [publish_call tx n (VObj [])] /\
     goals s2 = goals s /\ clients s2 = clients s /\ trace s2 = trace s).
Proof.
  intros Hg Hyc Hc Hct Ht Hadv Hs n.
  assert (Hpub : forall message,
            exists s',
              ClientOps.publish_on ActionClient.cancelTopic c message s = (Normal tt, s') /\
              calls s' = calls s ++ [publish_call tx n message] /\
              goals s' = goals s /\ clients s' = clients s /\ trace s' = trace s).
  { intros message. unfold ClientOps.publish_on. exec. rewrite Hc, Hct.
    destruct (publish_spec t tx message rs s Ht Hs)
      as (s' & Hrun & _ & Hcalls & _ & _ & Hgl & Hcl & _ & Htr).
    rewrite Hadv in Hcalls. by exists s'. }
  split.
  - unfold ClientOps.goal_cancel. exec. rewrite Hg, Hyc. apply Hpub.
  - unfold ClientOps.cancel. apply Hpub.
Qed.

Lemma X13_cancel_envelopes_witness :
  let s := fibonacci_state in
  let x := Topic.Make VUndef "/fibonacci/cancel" (VStr "actionlib_msgs/GoalID")
                      true "none" 0 ∅ in
  (exists s1,
     ClientOps.goal_cancel 0 s = (Normal tt, s1) /\
     calls s1 = calls s ++ [publish_call x 6 (VObj [("id", VStr "goal_0.25_1234")])] /\
     goals s1 = goals s) /\
  (exists s2,
     ClientOps.cancel 0 s = (Normal tt, s2) /\
     calls s2 = calls s ++ [publish_call x 6 (VObj [])]).
Proof.
  intros s x.
  set (cx := default (ActionClient.Make "" "" None ∅ None None false ∅) (clients s !! 0)).
  set (y := default (Goal.Make false VUndef VUndef VUndef "" VUndef 0 ∅) (goals s !! 0)).
  assert (Hg : goals s !! 0 = Some y) by (vm_compute; reflexivity).
  assert (Hyc : Goal.client y = 0) by (vm_compute; reflexivity).
  assert (Hid : Goal.goalId y = "goal_0.25_1234") by (vm_compute; reflexivity).
  assert (Hc : clients s !! 0 = Some cx) by (vm_compute; reflexivity).
  assert (Hct : ActionClient.cancelTopic cx = Some 1) by (vm_compute; reflexivity).
  assert (Ht : topics s !! 1 = Some x) by (vm_compute; reflexivity).
  assert (Hs : socket s = Some CONNECTING) by (vm_compute; reflexivity).
  assert (Hn : js_succ (idCounter s) = 6%N) by (vm_compute; reflexivity).
  destruct (X13_cancel_envelopes 0 0 1 y cx x CONNECTING s Hg Hyc Hc Hct Ht eq_refl Hs)
    as [(s1 & H1 & H2 & H3 & _) (s2 & H4 & H5 & _)].
  rewrite Hn in H2, H5. rewrite Hid in H2.
  split; [exists s1|exists s2]; repeat split; assumption.
Defined.

Lemma run_feedback_callback c x g y ks1 ks2 arg status feedback id s :
  clients s !! c = Some x ->
  ActionClient.goals x !! JS.to_string id = Some g ->
  goals s !! g = Some y ->
  goal_listens y "status" GStatus ks1 ->
  goal_listens y "feedback" GFeedback ks2 ->
  JS.get arg "status" = status ->
  goal_id_of status = Some id ->
  JS.get arg "feedback" = feedback ->
  arg <> VUndef -> arg <> VNull ->
  run_callback (CbFeedback c) arg s
  = (Normal tt,
     log ((ObsEmit (SrcGoal g) "status" status :: map (fun k => ObsCall k status) ks1)
          ++ ObsEmit (SrcGoal g) "feedback" feedback
             :: map (fun k => ObsCall k feedback) ks2)
       (set_goals
          (<[g := Goal.set_feedback feedback (Goal.set_status status y)]> (goals s)) s)).
Proof.
  intros Hc Hg Hy Hl1 Hl2 Hstatus Hid Hfeedback Hu Hn. unfold run_callback.
  assert (Hp : forall k, prop arg k = ret (JS.get arg k)) by (by destruct arg).
  rewrite !Hp. unfold bind at 1, ret at 1. rewrite Hstatus.
  rewrite (read_goal_id status id) by done.
  rewrite (with_goal_found c x id g) by done.
  unfold bind at 1.
  rewrite (goal_emit_spec g y "status" GStatus ks1) by done.
  unfold bind at 1, ret at 1. rewrite Hfeedback.
  rewrite (goal_emit_spec g (Goal.set_status status y) "feedback" GFeedback ks2).
  - rewrite goals_log. cbn [goals set_goals]. rewrite list_insert_insert_eq.
    rewrite set_goals_log, log_log. by destruct s.
  - rewrite goals_log. cbn. apply list_lookup_insert_eq. by eapply lookup_lt_Some.
  - exact Hl2.
  - done.
Qed.

Lemma run_feedback_foreign c x arg status id s :
  clients s !! c = Some x ->
  ActionClient.goals x !! JS.to_string id = None ->
  JS.get arg "status" = status ->
  goal_id_of status = Some id ->
  arg <> VUndef -> arg <> VNull ->
  run_callback (CbFeedback c) arg s
  = (if bool_decide (JS.to_string id ∈ Object_prototype_names)
     then Throw TypeError else Normal tt, s).
Proof.
  intros Hc Hg Hstatus Hid Hu Hn. unfold run_callback.
  assert (Hp : forall k, prop arg k = ret (JS.get arg k)) by (by destruct arg).
  rewrite !Hp. unfold bind at 1, ret at 1. rewrite Hstatus.
  rewrite (read_goal_id status id) by done.
  case_bool_decide.
  - by apply (with_goal_inherited c x id).
  - by apply (with_goal_missing c x id).
Qed.

Lemma copy_defined v : JS.copy_fields v <> VUndef /\ JS.copy_fields v <> VNull.
Proof. destruct (copy_fields_spec v) as (fs & -> & _). by split. Qed.

(** X14.  A message on the feedback topic of an action client whose
    status names a goal of the client emits status and then feedback on
    that goal: the goal's status and feedback are updated and the
    listeners of the application are called, in that order.  When the
    status names no goal of the client, the message is dropped after the
    topic has emitted it: no goal changes.  The table of goals being a
    plain object, an ID that is a name of [Object.prototype] finds the
    inherited member instead: the listener then throws a TypeError,
    again without a change to any goal.  The ID is a string and the
    message has no own field named [__proto__]. *)
Theorem X14_feedback_delivery
    (c g : nat) (x : ActionClient.t) (y : Goal.t) (id : string)
    (ks_status ks_feedback : list nat) (name : string)
    (t i j : nat) (tx : Topic.t) (fmsg status feedback : value) (s : State) :
  clients s !! c = Some x ->
  listeners name (ros_events s) = [Entry i false (LRoute t)] ->
  topics s !! t = Some tx ->
  listeners "message" (Topic.events tx) = [Entry j false (TCall (CbFeedback c))] ->
  proto_free fmsg ->
  JS.get fmsg "status" = status ->
  goal_id_of status = Some (VStr id) ->
  JS.get fmsg "feedback" = feedback ->
  let routed :=
    [ObsEmit SrcRos name fmsg; ObsEmit (SrcTopic t) "message" (Message_new fmsg)] in
  (ActionClient.goals x !! id = Some g ->
   goals s !! g = Some y ->
   goal_listens y "status" GStatus ks_status ->
   goal_listens y "feedback" GFeedback ks_feedback ->
   exists s',
     handleMessage (publish_envelope name fmsg) s = (Normal tt, s') /\
     goals s' !! g = Some (Goal.set_feedback feedback (Goal.set_status status y)) /\
     trace s'
     = trace s ++ routed
       ++ [ObsEmit (SrcGoal g) "status" status]
       ++ map (fun k => ObsCall k status) ks_status
       ++ [ObsEmit (SrcGoal g) "feedback" feedback]
       ++ map (fun k => ObsCall k feedback) ks_feedback) /\
  (ActionClient.goals x !! id = None ->
   id ∉ Object_prototype_names ->
   handleMessage (publish_envelope name fmsg) s = (Normal tt, log routed s)) /\
  (ActionClient.goals x !! id = None ->
   id ∈ Object_prototype_names ->
   handleMessage (publish_envelope name fmsg) s = (Throw TypeError, log routed s)).
Proof.
  intros Hc Hr Ht Hl Hproto Hstatus Hid Hfeedback routed.
  destruct (copy_defined fmsg) as [Hu Hn].
  assert (Hs1 : JS.get (Message_new fmsg) "status" = status)
    by by apply get_copy_fields.
  assert (Hf1 : JS.get (Message_new fmsg) "feedback" = feedback)
    by by apply get_copy_fields.
  rewrite (publish_routed name t tx i j (CbFeedback c) fmsg s Hr Ht Hl). fold routed.
  split; [|split].
  - intros Hg Hy Hls Hlf.
    rewrite (run_feedback_callback c x g y ks_status ks_feedback _ status feedback (VStr id));
      rewrite ?clients_log, ?goals_log; try done.
    eexists. split; [reflexivity|]. split.
    + rewrite goals_log. cbn. apply list_lookup_insert_eq. by eapply lookup_lt_Some.
    + rewrite trace_log. cbn [trace set_goals]. rewrite trace_log.
      cbn. by rewrite <- !app_assoc.
  - intros Hg Hown.
    rewrite (run_feedback_foreign c x (Message_new fmsg) status (VStr id));
      rewrite ?clients_log; try done.
    by rewrite bool_decide_eq_false_2.
  - intros Hg Hown.
    rewrite (run_feedback_foreign c x (Message_new fmsg) status (VStr id));
      rewrite ?clients_log; try done.
    by rewrite bool_decide_eq_true_2.
Qed.

Lemma X14_feedback_delivery_witness :
  let s := fibonacci_state in
  let feedback := VObj [("sequence", VArr [VNum 0; VNum 1; VNum 1])] in
  let fmsg := VObj [("status", fibonacci_status 1); ("feedback", feedback)] in
  let other := VObj [("goal_id", VObj [("id", VStr "goal_0.9_77")]); ("status", VNum 1)] in
  let omsg := VObj [("status", other); ("feedback", feedback)] in
  let inherited := VObj [("goal_id", VObj [("id", VStr "toString")]); ("status", VNum 1)] in
  let imsg := VObj [("status", inherited); ("feedback", feedback)] in
  (exists s',
     handleMessage (publish_envelope "/fibonacci/feedback" fmsg) s = (Normal tt, s') /\
     (Goal.feedback <$> goals s' !! 0) = Some feedback /\
     (Goal.status <$> goals s' !! 0) = Some (fibonacci_status 1) /\
     trace s'
     = [ObsEmit SrcRos "/fibonacci/feedback" fmsg;
        ObsEmit (SrcTopic 3) "message" fmsg;
        ObsEmit (SrcGoal 0) "status" (fibonacci_status 1);
        ObsEmit (SrcGoal 0) "feedback" feedback]) /\
  handleMessage (publish_envelope "/fibonacci/feedback" omsg) s
  = (Normal tt,
     log [ObsEmit SrcRos "/fibonacci/feedback" omsg; ObsEmit (SrcTopic 3) "message" omsg] s) /\
  handleMessage (publish_envelope "/fibonacci/feedback" imsg) s
  = (Throw TypeError,
     log [ObsEmit SrcRos "/fibonacci/feedback" imsg; ObsEmit (SrcTopic 3) "message" imsg] s).
Proof.
  intros s feedback fmsg other omsg inherited imsg.
  set (x := default (ActionClient.Make "" "" None ∅ None None false ∅) (clients s !! 0)).
  set (y := default (Goal.Make false VUndef VUndef VUndef "" VUndef 0 ∅) (goals s !! 0)).
  set (tx := default (Topic.Make VUndef "" VUndef false "" 0 ∅) (topics s !! 3)).
  assert (Hx : clients s !! 0 = Some x) by (vm_compute; reflexivity).
  assert (Hy : goals s !! 0 = Some y) by (vm_compute; reflexivity).
  assert (Ht : topics s !! 3 = Some tx) by (vm_compute; reflexivity).
  assert (Hr : listeners "/fibonacci/feedback" (ros_events s) = [Entry 6 false (LRoute 3)])
    by (vm_compute; reflexivity).
  assert (Hl : listeners "message" (Topic.events tx) = [Entry 5 false (TCall (CbFeedback 0))])
    by (vm_compute; reflexivity).
  assert (Hstatus : goal_listens y "status" GStatus []).
  { exists 11, []. split; [vm_compute; reflexivity|constructor]. }
  assert (Hfeedback : goal_listens y "feedback" GFeedback []).
  { exists 13, []. split; [vm_compute; reflexivity|constructor]. }
  assert (Htrace : trace s = []) by (vm_compute; reflexivity).
  split; [|split].
  - destruct (X14_feedback_delivery 0 0 x y "goal_0.25_1234" [] []
                "/fibonacci/feedback" 3 6 5 tx fmsg (fibonacci_status 1) feedback s
                Hx Hr Ht Hl eq_refl eq_refl eq_refl eq_refl) as [H1 _].
    assert (Hgl : ActionClient.goals x !! "goal_0.25_1234" = Some 0)
      by (vm_compute; reflexivity).
    destruct (H1 Hgl Hy Hstatus Hfeedback) as (s' & Hrun & Hg & Htr).
    exists s'. split; [exact Hrun|]. rewrite Hg, Htr, Htrace.
    split; [reflexivity|]. split; reflexivity.
  - destruct (X14_feedback_delivery 0 0 x y "goal_0.9_77" [] []
                "/fibonacci/feedback" 3 6 5 tx omsg other feedback s
                Hx Hr Ht Hl eq_refl eq_refl eq_refl eq_refl) as (_ & H2 & _).
    apply H2; [vm_compute; reflexivity|].
    apply (bool_decide_unpack _). vm_compute. exact I.
  - destruct (X14_feedback_delivery 0 0 x y "toString" [] []
                "/fibonacci/feedback" 3 6 5 tx imsg inherited feedback s
                Hx Hr Ht Hl eq_refl eq_refl eq_refl eq_refl) as (_ & _ & H3).
    apply H3; [vm_compute; reflexivity|].
    apply (bool_decide_unpack _). vm_compute. exact I.
Defined.

(** X15.  A goal that has received its result never times out: after a
    message on the result topic for the goal, the goal's timer, when it
    fires, emits nothing and changes no goal; it is spent like any timer
    that has fired. *)
Theorem X15_result_silences_goal_timeout
    (c g : nat) (x : ActionClient.t) (y : Goal.t) (id : value)
    (ks_status ks_result : list nat) (name : string)
    (t i j : nat) (tx : Topic.t) (rmsg status : value) (n : nat) (d : Z) (s : State) :
  clients s !! c = Some x ->
  ActionClient.goals x !! JS.to_string id = Some g ->
  goals s !! g = Some y ->
  goal_listens y "status" GStatus ks_status ->
  goal_listens y "result" GResult ks_result ->
  listeners name (ros_events s) = [Entry i false (LRoute t)] ->
  topics s !! t = Some tx ->
  listeners "message" (Topic.events tx) = [Entry j false (TCall (CbResult c))] ->
  JS.get rmsg "status" = status ->
  goal_id_of status = Some id ->
  timers s !! n = Some (TimerGoal g d) ->
  exists s1 s2,
    handleMessage (publish_envelope name rmsg) s = (Normal tt, s1) /\
    timer_fires n s1 = (Normal tt, s2) /\
    trace s2 = trace s1 /\
    goals s2 = goals s1 /\
    timers s2 = delete n (timers s).
Proof.
  intros Hc Hg Hy Hls Hlr Hr Ht Hl Hstatus Hid Hn.
  destruct (copy_defined rmsg) as [Hu Hnl].
  assert (Hs1 : JS.get (Message_new rmsg) "status" = status)
    by by apply get_copy_fields.
  rewrite (publish_routed name t tx i j (CbResult c) rmsg s Hr Ht Hl).
  rewrite (run_result_callback c x g y ks_status ks_result _ status
             (JS.get (Message_new rmsg) "result") id);
    rewrite ?clients_log, ?goals_log; try done.
  eexists. eexists. split; [reflexivity|].
  match goal with |- timer_fires n ?st = _ /\ _ => set (s1 := st) end.
  assert (Htm : timers s1 = timers s) by reflexivity.
  assert (exists y', goals s1 !! g = Some y' /\ Goal.isFinished y' = true)
    as (y' & Hg1 & Hfin).
  { eexists. split.
    - subst s1. rewrite goals_log. cbn [goals set_goals].
      apply list_lookup_insert_eq. rewrite ?goals_log. by eapply lookup_lt_Some.
    - reflexivity. }
  unfold timer_fires. exec. rewrite Htm, Hn. exec. exec. rewrite Hg1, Hfin. cbn.
  by repeat split.
Qed.

Lemma X15_result_silences_goal_timeout_witness :
  let s := snd (ClientOps.send 0 (Some 100%Z) fibonacci_state) in
  let result := VObj [("sequence", VArr [VNum 0; VNum 1; VNum 1])] in
  let rmsg := VObj [("status", fibonacci_status 3); ("result", result)] in
  exists s1 s2,
    timers s = [TimerGoal 0 100] /\
    handleMessage (publish_envelope "/fibonacci/result" rmsg) s = (Normal tt, s1) /\
    timer_fires 0 s1 = (Normal tt, s2) /\
    trace s2 = trace s1 /\
    timers s2 = [].
Proof.
  intros s result rmsg.
  set (x := default (ActionClient.Make "" "" None ∅ None None false ∅) (clients s !! 0)).
  set (y := default (Goal.Make false VUndef VUndef VUndef "" VUndef 0 ∅) (goals s !! 0)).
  set (tx := default (Topic.Make VUndef "" VUndef false "" 0 ∅) (topics s !! 4)).
  assert (Hx : clients s !! 0 = Some x) by (vm_compute; reflexivity).
  assert (Hg : ActionClient.goals x !! JS.to_string (VStr "goal_0.25_1234") = Some 0)
    by (vm_compute; reflexivity).
  assert (Hy : goals s !! 0 = Some y) by (vm_compute; reflexivity).
  assert (Ht : topics s !! 4 = Some tx) by (vm_compute; reflexivity).
  assert (Hr : listeners "/fibonacci/result" (ros_events s) = [Entry 9 false (LRoute 4)])
    by (vm_compute; reflexivity).
  assert (Hl : listeners "message" (Topic.events tx) = [Entry 8 false (TCall (CbResult 0))])
    by (vm_compute; reflexivity).
  assert (Hstatus : goal_listens y "status" GStatus []).
  { exists 11, []. split; [vm_compute; reflexivity|constructor]. }
  assert (Hresult : goal_listens y "result" GResult []).
  { exists 12, []. split; [vm_compute; reflexivity|constructor]. }
  assert (Htm : timers s = [TimerGoal 0 100]) by (vm_compute; reflexivity).
  assert (Hn : timers s !! 0 = Some (TimerGoal 0 100)) by (rewrite Htm; reflexivity).
  destruct (X15_result_silences_goal_timeout 0 0 x y (VStr "goal_0.25_1234") [] []
              "/fibonacci/result" 4 9 8 tx rmsg (fibonacci_status 3) 0 100 s
              Hx Hg Hy Hstatus Hresult Hr Ht Hl eq_refl eq_refl Hn)
    as (s1 & s2 & H1 & H2 & H3 & _ & H4).
  exists s1, s2. rewrite Htm in H4. by repeat split.
Defined.

(** X24.  [new actionClient.Goal(goalMsg)] appends a goal that is not
    finished, with the ID goal_<random>_<time>, registers it under that
    ID in the table of the client and puts the listeners of status,
    result and feedback in place; it hands over no call.  [send] without
    a timeout then publishes, on the goal topic the constructor of the
    client advertised, the message
    [{goal_id: {stamp: {secs: 0, nsecs: 0}, id: goalId}, goal: goalMsg}]
    as one publish call, and arms no timer. *)
Theorem X24_goal_construction_and_send
    (c t : nat) (x : ActionClient.t) (tx : Topic.t) (goalMsg : value)
    (random : string) (time : Z) (rs : ReadyState) (s : State) :
  clients s !! c = Some x ->
  ActionClient.goalTopic x = Some t ->
  topics s !! t = Some tx ->
  Topic.isAdvertised tx = true ->
  socket s = Some rs ->
  let g := length (goals s) in
  let goalId := "goal_" +:+ random +:+ "_" +:+ pretty time in
  let goalMessage :=
    VObj [("goal_id", VObj [("stamp", VObj [("secs", VNum 0); ("nsecs", VNum 0)]);
                            ("id", VStr goalId)]);
          ("goal", goalMsg)] in
  exists s1 s2 y x1,
    ClientOps.Goal_new c goalMsg random time s = (Normal g, s1) /\
    goals s1 = goals s ++ [y] /\
    Goal.goalId y = goalId /\
    Goal.goalMessage y = goalMessage /\
    Goal.isFinished y = false /\
    Goal.client y = c /\
    goal_listens y "status" GStatus [] /\
    goal_listens y "result" GResult [] /\
    goal_listens y "feedback" GFeedback [] /\
    clients s1 !! c = Some x1 /\
    ActionClient.goals x1 = <[goalId := g]> (ActionClient.goals x) /\
    calls s1 = calls s /\
    ClientOps.send g None s1 = (Normal tt, s2) /\
    calls s2 = calls s ++ [publish_call tx (js_succ (idCounter s)) goalMessage] /\
    timers s2 = timers s.
Proof.
  intros Hc Hgt Ht Hadv Hs g goalId goalMessage.
  unfold ClientOps.Goal_new, goal_on. fold goalId.
  assert (Hmsg : Message_new
                   (VObj [("goal_id",
                           VObj [("stamp", VObj [("secs", VNum 0); ("nsecs", VNum 0)]);
                                 ("id", VStr goalId)]);
                          ("goal", goalMsg)]) = goalMessage) by reflexivity.
  rewrite Hmsg. exec. unfold g.
  rewrite !alter_snoc_length. cbn.
  rewrite (alter_lookup _ c x _ Hc).
  match goal with
  | |- context [set_goals (goals s ++ [?y0]) (set_next_listener (S (S (S _))) _)] =>
      set (y := y0)
  end.
  match goal with
  | |- context [set_clients (<[c := ?x0]> _) ?s0] =>
      set (x1 := x0); set (s1 := set_clients (<[c := x1]> (clients s)) s0)
  end.
  assert (Hg1 : goals s1 !! length (goals s) = Some y) by apply lookup_snoc_length.
  assert (Hc1 : clients s1 !! c = Some x1).
  { apply list_lookup_insert_eq. by eapply lookup_lt_Some. }
  assert (Ht1 : topics s1 !! t = Some tx) by exact Ht.
  assert (Hs1 : socket s1 = Some rs) by exact Hs.
  destruct (send_spec _ y c x1 t tx rs None s1 Hg1 eq_refl Hc1 Hgt Ht1 Hs1)
    as (s2 & Hsend & Htm & _).
  assert (Hcalls : calls s2 = calls s ++ [publish_call tx (js_succ (idCounter s)) goalMessage]).
  { assert (Hgt1 : ActionClient.goalTopic x1 = Some t) by exact Hgt.
    destruct (publish_spec t tx goalMessage rs s1 Ht1 Hs1)
      as (s2' & Hrun & _ & Hcalls & _).
    revert Hsend. unfold ClientOps.send, ClientOps.publish_on. unf.
    rewrite Hg1. change (Goal.client y) with c. rewrite Hc1, Hgt1.
    change (Goal.goalMessage y) with goalMessage. rewrite Hrun.
    rewrite Hadv in Hcalls. cbn. intros [= <-]. exact Hcalls. }
  exists s1, s2, y, x1. split; [reflexivity|]. split; [reflexivity|].
  do 4 (split; [reflexivity|]).
  split; [exists (next_listener s), []; split; [reflexivity|constructor]|].
  split; [exists (S (next_listener s)), []; split; [reflexivity|constructor]|].
  split; [exists (S (S (next_listener s))), []; split; [reflexivity|constructor]|].
  split; [exact Hc1|]. split; [reflexivity|]. split; [reflexivity|].
  split; [exact Hsend|]. split; [exact Hcalls|].
  rewrite Htm. cbn. by rewrite app_nil_r.
Qed.

Lemma X24_goal_construction_and_send_witness :
  let s := snd (ActionClient_new
                  (ActionClient.Options "/fibonacci" "actionlib_tutorials/FibonacciAction"
                                        None)
                  ROS_new_url) in
  let tx := Topic.Make VUndef "/fibonacci/goal" (VStr "actionlib_tutorials/FibonacciActionGoal")
                       true "none" 0 ∅ in
  let goalMessage :=
    VObj [("goal_id", VObj [("stamp", VObj [("secs", VNum 0); ("nsecs", VNum 0)]);
                            ("id", VStr "goal_0.25_1234")]);
          ("goal", VObj [("order", VNum 5)])] in
  exists s1 s2,
    ClientOps.Goal_new 0 (VObj [("order", VNum 5)]) "0.25" 1234 s = (Normal 0, s1) /\
    ClientOps.send 0 None s1 = (Normal tt, s2) /\
    calls s2 = calls s ++ [publish_call tx 6 goalMessage].
Proof.
  intros s tx goalMessage.
  set (x := default (ActionClient.Make "" "" None ∅ None None false ∅) (clients s !! 0)).
  assert (Hc : clients s !! 0 = Some x) by (vm_compute; reflexivity).
  assert (Hgt : ActionClient.goalTopic x = Some 0) by (vm_compute; reflexivity).
  assert (Ht : topics s !! 0 = Some tx) by (vm_compute; reflexivity).
  assert (Hs : socket s = Some CONNECTING) by (vm_compute; reflexivity).
  assert (Hn : js_succ (idCounter s) = 6%N) by (vm_compute; reflexivity).
  assert (Hg : length (goals s) = 0) by (vm_compute; reflexivity).
  destruct (X24_goal_construction_and_send 0 0 x tx (VObj [("order", VNum 5)]) "0.25" 1234
              CONNECTING s Hc Hgt Ht eq_refl Hs)
    as (s1 & s2 & y & x1 & H1 & _ & _ & _ & _ & _ & _ & _ & _ & _ & _ & _ & H2 & H3 & _).
  rewrite Hg in H1, H2. rewrite Hn in H3.
  exists s1, s2. split; [exact H1|]. split; [exact H2|exact H3].
Defined.


(** ** The navigation widget *)

Module Nav2DFacts.
Import Nav2D.



End Nav2DFacts.





Module Nav2DPeriod.
Import Nav2D.


Lemma set_robot_twice r g r' g' nav :
  set_robot r' g' (set_robot r g nav) = set_robot r' g' nav.
Proof. reflexivity. Qed.

Lemma robot_step x y r g nav :
  snd (drawrobot x y (set_robot r g nav))
  = set_robot (if g then r + 1 else r - 1)%Z
      (if ((if g then r + 1 else r - 1) =? 10)%Z || ((if g then r + 1 else r - 1) =? 1)%Z
       then negb g else g) nav.
Proof. reflexivity. Qed.



End Nav2DPeriod.

Module Nav2DFrames.
Import Nav2D Nav2DPeriod.




Lemma set_id nav :
  set_robot (robotRadius nav) (robotRadiusGrow nav)
    (set_click (clickRadius nav) (clickUpdate nav) nav) = nav.
Proof. by destruct nav. Qed.


End Nav2DFrames.



